(** * Chess analyzer: evaluation cache, analysis passes, move classifier,
      accuracy and engine start-up

    A shallow embedding of [src/App.jsx] (the second, current [App]
    component of the file: [mateToScore], [classifyMoveByDelta], the engine
    start-up effect, [analyzeFenOnce] with its message handler,
    [analyzeAll], the [annotations], [playerStats] and
    [moveTypeCounts] memos, [getTerminalEval], [normalizeSan],
    [EvaluationBar], [evalToPawns], [bestMoveArrow], the walk over the moves
    in [parsePgnToFens] and [CapturedRow]).

    Conventions of the embedding.
    - Engine scores are JavaScript numbers produced by [parseInt]; they are
      integers and are modelled by [Z].
    - An evaluation object carries exactly one of the keys [cp] and [mate];
      it is the tagged value [Score].
    - [null] and [undefined] are [None].
    - chess.js ([Chess], [isCheckmate], [moves], ...) is an external library.
      Its methods, and the functions of the file whose whole body is calls
      to it, are taken as parameters of the sections that need them. The
      source calls chess.js under both of its naming schemes ([isCheckmate]
      and [isStalemate], but also [in_check] and [in_checkmate]); every
      method it calls is taken to exist.
    - In [analyzeFenOnce] a search is represented by the value its promise
      resolves with; the message handler that builds this value is modelled
      on its own, over the captures of its regular expressions.
    - The 30-second watchdog is an event of the session, with no clock.
    - The doubles of the accuracy curve and of the evaluation bar are
      idealised as real numbers. *)

From Stdlib Require Import ZArith QArith Lia Bool List Reals Lra.
From Stdlib Require Import Strings.String Strings.Ascii DecimalString.
From stdpp Require Import base option gmap strings list sorting.

Local Open Scope Z_scope.

(** ** Data model *)

(** [{ cp: n }] or [{ mate: n }], relative to the side to move. *)
Inductive Score : Type :=
  | Cp (v : Z)
  | Mate (v : Z).

(** One entry of [multipv]: [{ rank, uci, cp | mate }]. *)
Record PvItem : Type := mkPv {
  rank : Z;
  uci : string;
  pv_score : Score
}.

(** The object resolved by [analyzeFenOnce]:
    [{ cp | mate, bestmoveUci, multipv }]. *)
Record Eval : Type := mkEval {
  score : Score;
  bestmoveUci : option string;
  multipv : list PvItem
}.

(** The move-quality tags used by the classifier and the annotations. *)
Inductive Tag : Type :=
  | Brilliant | Great | Best | Excellent | Good
  | Inaccuracy | Mistake | Blunder | Miss.

(** [x ?? 0] on a nullable number. *)
Definition orZero (x : option Z) : Z :=
  match x with
  | Some v => v
  | None => 0
  end.

(** ** Move classifier *)

Module Classifier.

(** [mateToScore(mate)]:
    [n = Math.min(99, Math.abs(Number(mate) || 0))],
    [Math.sign(mate) * (base - n * step)] with [base = 100000] and
    [step = 1000]. *)
Definition mateToScore (mate : Z) : Z :=
  let base := 100000 in
  let step := 1000 in
  let n := Z.min 99 (Z.abs mate) in
  Z.sgn mate * (base - n * step).

(** The [flags] argument of [classifyMoveByDelta]. A missing or falsy
    [bestIsMate] is [false]; [typeof flags?.deltaMateForMover === 'number']
    holds exactly when the field is [Some d]. *)
Record Flags : Type := mkFlags {
  bestIsMate : bool;
  deltaMateForMover : option Z
}.

Definition noFlags : Flags := mkFlags false None.

(** [classifyMoveByDelta(bestCp, playedCp, flags)], statement by statement. *)
Definition classifyMoveByDelta (bestCp playedCp : option Z) (flags : Flags) : Tag :=
  let loss := orZero bestCp - orZero playedCp in
  match deltaMateForMover flags with
  | Some d =>
      if d <? 0 then Best
      else if d =? 0 then Best
      else if d =? 1 then Excellent
      else if d <=? 3 then Good
      else if d <=? 6 then Inaccuracy
      else if d <=? 10 then Mistake
      else Mistake
  | None =>
      if loss <? -10 then Best
      else if (300 <? loss)
              || match bestCp, playedCp with
                 | Some b, Some p =>
                     ((300 <=? b) && (p <=? 0)) || ((b <=? -300) && (0 <=? p))
                 | _, _ => false
                 end
      then Blunder
      else if (bestIsMate flags
               || match bestCp with Some b => 300 <=? b | None => false end)
              && match playedCp with
                 | Some p => (p <=? 50) && (loss <=? 200)
                 | None => false
                 end
      then Miss
      else if loss <=? 10 then Best
      else if loss <=? 20 then Excellent
      else if loss <=? 50 then Good
      else if loss <=? 150 then Inaccuracy
      else if loss <=? 300 then Mistake
      else Blunder
  end.

(** The head of the loop body of the [annotations] memo, for a move whose two
    adjacent evaluations [best] (before the move) and [after] (after it,
    relative to the opponent) are present. *)
Definition annotBestCp (best : Score) : Z :=
  match best with
  | Mate m => mateToScore m
  | Cp c => c
  end.

Definition annotPlayedCp (after : Score) : Z :=
  match after with
  | Mate m => if m =? 0 then 100000 else - mateToScore m
  | Cp c => - c
  end.

Definition bestMateForMover (best : Score) : option Z :=
  match best with
  | Mate m => if 0 <? Z.sgn m then Some (Z.abs m) else None
  | Cp _ => None
  end.

Definition playedMateForMover (after : Score) : option Z :=
  match after with
  | Mate m => if (m =? 0) || (Z.sgn m <? 0) then Some (Z.abs m) else None
  | Cp _ => None
  end.

Definition annotDeltaMate (best after : Score) : option Z :=
  match bestMateForMover best, playedMateForMover after with
  | Some b, Some p => Some (p - b)
  | _, _ => None
  end.

Definition annotBestIsMate (best : Score) : bool :=
  match best with
  | Mate m => 0 <? Z.sgn m
  | Cp _ => false
  end.

(** [let tag = classifyMoveByDelta(bestCp, playedCp, { bestIsMate, deltaMateForMover })]. *)
Definition annotBaseTag (best after : Score) : Tag :=
  classifyMoveByDelta (Some (annotBestCp best)) (Some (annotPlayedCp after))
    (mkFlags (annotBestIsMate best) (annotDeltaMate best after)).

(** The [isMiss] test of the [playerStats] memo ("konsisten dengan
    classifyMoveByDelta"), on the same [bestCp] and [playedCp]:
    the [playerStats] version of [playedCp] is the same expression. *)
Definition statsIsMiss (best after : Score) : bool :=
  (annotBestIsMate best || (300 <=? annotBestCp best))
  && (annotPlayedCp after <=? 50).

(** The tables of the specification, written from its words. *)

(** "<=10 best, <=20 excellent, <=50 good, <=150 inaccuracy, <=300 mistake,
    else blunder". *)
Definition spec_loss_table (loss : Z) : Tag :=
  if loss <=? 10 then Best
  else if loss <=? 20 then Excellent
  else if loss <=? 50 then Good
  else if loss <=? 150 then Inaccuracy
  else if loss <=? 300 then Mistake
  else Blunder.

(** "d <= 0 Best, d = 1 Excellent, 2 <= d <= 3 Good, 4 <= d <= 6 Inaccuracy,
    d > 6 Mistake". *)
Definition spec_mate_table (d : Z) : Tag :=
  if d <=? 0 then Best
  else if d =? 1 then Excellent
  else if (2 <=? d) && (d <=? 3) then Good
  else if (4 <=? d) && (d <=? 6) then Inaccuracy
  else Mistake.

End Classifier.

(** ** String helpers of the JavaScript runtime *)

Module Js.

Local Open Scope string_scope.

(** [hay.includes(needle)]. *)
Fixpoint includes (needle hay : string) : bool :=
  String.prefix needle hay
  || match hay with
     | EmptyString => false
     | String _ rest => includes needle rest
     end.

(** Truthiness of a nullable string: [null], [undefined] and [''] are falsy. *)
Definition truthy (s : option string) : option string :=
  match s with
  | Some EmptyString => None
  | other => other
  end.

(** [a || b] on nullable strings. *)
Definition orElse (a b : option string) : option string :=
  match truthy a with
  | Some s => Some s
  | None => b
  end.

(** [String(n)] for an integer [n]. *)
Definition ofZ (n : Z) : string := NilZero.string_of_int (Z.to_int n).

(** [`${x ?? ''}`] for a nullable integer. *)
Definition ofZOrEmpty (n : option Z) : string :=
  match n with
  | Some v => ofZ v
  | None => ""
  end.

(** [s.split(' ')], as the list of its fields. *)
Fixpoint splitSpace (cur : string) (s : string) : list string :=
  match s with
  | EmptyString => [cur]
  | String c rest =>
      if Ascii.eqb c " "%char then cur :: splitSpace "" rest
      else splitSpace (cur ++ String c "") rest
  end.

(** [fen.split(' ')[1]]. *)
Definition field1 (fen : string) : option string := splitSpace "" fen !! 1%nat.

Definition isSuffixMark (c : ascii) : bool :=
  Ascii.eqb c "+" || Ascii.eqb c "#" || Ascii.eqb c "!" || Ascii.eqb c "?".

(** The ASCII white space removed by [trim]. *)
Definition isSpace (c : ascii) : bool :=
  let n := nat_of_ascii c in
  (n =? 32)%nat || ((9 <=? n)%nat && (n <=? 13)%nat).

Fixpoint dropWhile (p : ascii -> bool) (s : string) : string :=
  match s with
  | EmptyString => EmptyString
  | String c rest => if p c then dropWhile p rest else s
  end.

Fixpoint rev (acc s : string) : string :=
  match s with
  | EmptyString => acc
  | String c rest => rev (String c acc) rest
  end.

Definition dropWhileEnd (p : ascii -> bool) (s : string) : string :=
  rev "" (dropWhile p (rev "" s)).

(** [s.trim()] on ASCII text. *)
Definition trim (s : string) : string :=
  dropWhileEnd isSpace (dropWhile isSpace s).

End Js.

(** [normalizeSan(san)]: a falsy [san] is returned as it is, otherwise
    [String(san).replace(/[+#!?]+$/g, '').trim()]. *)
Definition normalizeSan (san : option string) : option string :=
  match Js.truthy san with
  | None => san
  | Some s => Some (Js.trim (Js.dropWhileEnd Js.isSuffixMark s))
  end.

(** ** Engine session: candidate chain and watchdog *)

Module Session.

Local Open Scope nat_scope.

(** [createStockfishWorker(url = '/stockfish/stockfish-17.1-8e4d048.js')]. *)
Definition defaultUrl : string := "/stockfish/stockfish-17.1-8e4d048.js".

(** [const candidates = [...threadedPriority]] as the source has it. *)
Definition candidates : list string := ["/stockfish/stockfish-17.1-8e4d048.js"%string].

(** A message delivered to [w.onmessage]: a string line, or an object with a
    [type] and an optional [message]. *)
Inductive WorkerMsg : Type :=
  | Line (line : string)
  | Obj (type : string) (message : option string).

(** What can happen to the session after the effect has run. *)
Inductive Event : Type :=
  | OnMessage (m : WorkerMsg)
  | OnError
  | OnMessageError
  | TimerFires (handle : nat).

(** The variables of the effect closure and what it does to the outside.
    - [loadingTimeout] is the handle last returned by [setTimeout]; a handle
      is identified with the token its callback captured, which is unique.
    - [timers] are the scheduled callbacks that were neither cleared nor run.
    - [workerRef] is the URL the current worker was created from and
      [alive] tells whether [terminate] was called on it.
    - [readyCalls] is the history of [setEngineReady] calls, oldest first.
    - [posted] are the messages posted to the current worker. *)
Record State : Type := mkState {
  candidateIndex : nat;
  timeoutToken : nat;
  loadingTimeout : option nat;
  timers : list nat;
  workerRef : option string;
  alive : bool;
  readyCalls : list bool;
  posted : list string
}.

Definition init : State := mkState 0 0 None [] None false [] [].

(** The React state [engineReady]: its initial value is [false]. *)
Definition engineReady (s : State) : bool := List.last (readyCalls s) false.

Definition setEngineReady (b : bool) (s : State) : State :=
  mkState (candidateIndex s) (timeoutToken s) (loadingTimeout s) (timers s)
    (workerRef s) (alive s) (readyCalls s ++ [b]) (posted s).

(** [clearTimeout(loadingTimeout)]. *)
Definition clearLoadingTimeout (s : State) : State :=
  match loadingTimeout s with
  | None => s
  | Some h =>
      mkState (candidateIndex s) (timeoutToken s) (loadingTimeout s)
        (List.filter (fun t => negb (t =? h)) (timers s))
        (workerRef s) (alive s) (readyCalls s) (posted s)
  end.

Section Chain.

(** The candidate list of the effect and the environment: whether
    [new Worker] succeeds for a URL. *)
Variable cands : list string.
Variable spawns : string -> bool.

(** [setupWorker(w)] for a freshly created worker. *)
Definition setupWorker (url : string) (s : State) : State :=
  let s1 := clearLoadingTimeout s in
  let myToken := S (timeoutToken s1) in
  mkState (candidateIndex s1) myToken (Some myToken) (timers s1 ++ [myToken])
    (Some url) true (readyCalls s1) ["uci"%string].

(** [currentWorker?.terminate()]. *)
Definition terminateCurrent (s : State) : State :=
  mkState (candidateIndex s) (timeoutToken s) (loadingTimeout s) (timers s)
    (workerRef s) false (readyCalls s) (posted s).

(** [tryNextCandidate(currentWorker)], with its boolean result. *)
Definition tryNextCandidate (s : State) : bool * State :=
  let s1 := clearLoadingTimeout (terminateCurrent s) in
  let s2 := mkState (S (candidateIndex s1)) (timeoutToken s1) (loadingTimeout s1)
              (timers s1) (workerRef s1) (alive s1) (readyCalls s1) (posted s1) in
  let failed := (false, setEngineReady false (clearLoadingTimeout s2)) in
  if candidateIndex s2 <? length cands then
    match cands !! candidateIndex s2 with
    | Some nextUrl =>
        if spawns nextUrl then (true, setupWorker nextUrl s2) else failed
    | None => failed
    end
  else failed.

(** The body of the effect: create the primary worker, and on a synchronous
    failure fall back through [tryNextCandidate]. *)
Definition start : State :=
  let url := default defaultUrl (cands !! 0) in
  if spawns url then setupWorker url init
  else snd (tryNextCandidate init).

Definition isReadyText (line : string) : bool :=
  Js.includes "uciok" line || Js.includes "readyok" line.

(** [w.onmessage]. *)
Definition onmessage (m : WorkerMsg) (s : State) : State :=
  match m with
  | Line line =>
      if isReadyText line then setEngineReady true (clearLoadingTimeout s) else s
  | Obj type message =>
      let s1 := if String.eqb type "ready"
                then setEngineReady true (clearLoadingTimeout s) else s in
      if String.eqb type "error" then snd (tryNextCandidate s1)
      else if String.eqb type "log" then
        match Js.truthy message with
        | Some msg =>
            if isReadyText msg then setEngineReady true (clearLoadingTimeout s1)
            else s1
        | None => s1
        end
      else s1
  end.

(** The watchdog callback scheduled by [setupWorker] with token [myToken]. *)
Definition watchdog (myToken : nat) (s : State) : State :=
  if negb (myToken =? timeoutToken s) then s
  else setEngineReady false s.

(** One event. Messages and errors come from the current worker while it is
    alive; a timer runs only while it is scheduled, and is then consumed. *)
Definition step (e : Event) (s : State) : State :=
  match e with
  | OnMessage m => if alive s then onmessage m s else s
  | OnError => if alive s then snd (tryNextCandidate s) else s
  | OnMessageError => s
  | TimerFires h =>
      if existsb (Nat.eqb h) (timers s) then
        watchdog h
          (mkState (candidateIndex s) (timeoutToken s) (loadingTimeout s)
             (List.filter (fun t => negb (t =? h)) (timers s))
             (workerRef s) (alive s) (readyCalls s) (posted s))
      else s
  end.

Definition run (es : list Event) : State := fold_left (fun s e => step e s) es start.

End Chain.

End Session.

(** ** Evaluation channel, evaluation cache and analysis scheduler *)

Module Channel.

Local Open Scope string_scope.

(** The second argument of [analyzeFenOnce]: a depth (or nothing), or an
    options object whose fields may be missing. *)
Record SearchOpts : Type := mkOpts {
  o_depth : option Z;
  o_movetime : option Z;
  o_multiPV : option Z
}.

Inductive OptsArg : Type :=
  | ByDepth (depth : option Z)
  | ByObject (o : SearchOpts).

(** What the component holds between calls.
    - [workerPresent]: [workerRef.current] is not null.
    - [engineReady]: the React state of that name.
    - [cache]: [evalCacheRef.current], a [Map] from key strings to results.
    - [sent]: every message posted to the worker so far, oldest first.
    - [evals]: the React state [evals], an object from position index to an
      evaluation or [null]. *)
Record World : Type := mkWorld {
  workerPresent : bool;
  engineReady : bool;
  cache : gmap string Eval;
  sent : list string;
  evals : gmap nat (option Eval)
}.

Definition setCache (c : gmap string Eval) (w : World) : World :=
  mkWorld (workerPresent w) (engineReady w) c (sent w) (evals w).

Definition post (cmds : list string) (w : World) : World :=
  mkWorld (workerPresent w) (engineReady w) (cache w) (sent w ++ cmds) (evals w).

Definition setEvals (e : gmap nat (option Eval)) (w : World) : World :=
  mkWorld (workerPresent w) (engineReady w) (cache w) (sent w) e.

(** [`${fen}|mv:${movetime ?? ''}|dp:${depth}|mpv:${multiPV}`]. *)
Definition cacheKey (fen : string) (movetime : option Z) (depth multiPV : Z) : string :=
  fen ++ "|mv:" ++ Js.ofZOrEmpty movetime ++ "|dp:" ++ Js.ofZ depth
      ++ "|mpv:" ++ Js.ofZ multiPV.

(** The three search parameters [analyzeFenOnce] derives from its arguments:
    [(depth, multiPV, movetime)]. *)
Definition resolveOpts (a : OptsArg) (multiPVArg : option Z) : Z * Z * option Z :=
  match a with
  | ByObject o =>
      (default 12 (o_depth o),
       default (default 5 multiPVArg) (o_multiPV o),
       o_movetime o)
  | ByDepth d => (default 12 d, default 5 multiPVArg, None)
  end.

(** The messages one search posts. *)
Definition searchCommands (fen : string) (movetime : option Z) (depth multiPV : Z)
  : list string :=
  [ "setoption name MultiPV value " ++ Js.ofZ multiPV;
    "position fen " ++ fen;
    match movetime with
    | Some mt => "go movetime " ++ Js.ofZ mt
    | None => "go depth " ++ Js.ofZ depth
    end ].

(** The number of searches the engine was asked for: the [go] messages. *)
Definition searchCount (msgs : list string) : nat :=
  length (List.filter (String.prefix "go ") msgs).

(** How often one message was posted. *)
Definition countMsg (m : string) (msgs : list string) : nat :=
  length (List.filter (String.eqb m) msgs).

(** The option reset posted before a pass. *)
Definition prepCommands (multiPV : Z) : list string :=
  [ "ucinewgame";
    "setoption name Clear Hash value true";
    "setoption name Threads value 1";
    "setoption name Hash value 32";
    "setoption name Ponder value false";
    "setoption name UCI_AnalyseMode value true";
    "setoption name UCI_LimitStrength value false";
    "setoption name Skill Level value 20";
    "setoption name Contempt value 0";
    "setoption name MultiPV value " ++ Js.ofZ multiPV ].

(** [x.bestmoveUci || (Array.isArray(x.multipv) ? x.multipv.find(r => r.rank === 1)?.uci : null)]. *)
Definition topUci (e : Eval) : option string :=
  Js.orElse (bestmoveUci e)
    (uci <$> List.find (fun x => rank x =? 1)%Z (multipv e)).

(** The named options of [analyzeAll], after its defaults were applied. *)
Record AllOpts : Type := mkAllOpts {
  fastFirstPass : bool;
  movetime : Z;
  multiPV : Z;
  stableFinalPass : bool;
  stableDepth : Z;
  stableMultiPV : Z
}.

(** [{ fastFirstPass = true, movetime = 80, multiPV = 3, stableFinalPass = true,
      stableDepth = 14, stableMultiPV = 5 }]. *)
Definition defaultAllOpts : AllOpts := mkAllOpts true 80 3 true 14 5.

(** A [for (let i = start; ...; i++)] loop over the elements of a list. *)
Fixpoint forEachFrom {S : Type} (body : nat -> string -> S -> S)
    (i : nat) (l : list string) (s : S) : S :=
  match l with
  | [] => s
  | x :: rest => forEachFrom body (Datatypes.S i) rest (body i x s)
  end.

Section Engine.

(** chess.js: [new Chess(fen)] ([None] when it throws), [isCheckmate()] and
    [isStalemate()] of the loaded game. *)
Variable Board : Type.
Variable chessLoad : string -> option Board.
Variable isCheckmate : Board -> bool.
Variable isStalemate : Board -> bool.

(** The engine. A search is answered by the value its promise resolves with,
    which the message handler builds from the engine's lines up to
    [bestmove]; the engine keeps state, so the answer may depend on every
    message it has received. Each search is assumed to end with a
    [bestmove] line. *)
Variable engine : list string -> option Eval.

(** The wrappers of chess.js used by the verification pass:
    [getMovedPieceType(fen, san)] (the piece letter, or null),
    [offeredSacrificeLossMagnitude(fen, san, moverSide)] (the material the
    mover is left short of after the capture on the target square and the
    best recapture, in pawns, or null) and [uciToSan(fen, uci)]; and the
    move list [sans] of the component. *)
Variable getMovedPieceType : string -> string -> option string.
Variable offeredSacrificeLossMagnitude : string -> string -> option string -> option Z.
Variable uciToSan : string -> string -> option string.
Variable sans : list string.

(** [isStrictPieceSacrificeOffer(fen, san, moverSide)]. *)
Definition isStrictPieceSacrificeOffer (fen san : string) (moverSide : option string)
  : bool :=
  match Js.truthy (getMovedPieceType fen san) with
  | None => false
  | Some moved =>
      if String.eqb moved "k" || String.eqb moved "p" then false
      else
        match offeredSacrificeLossMagnitude fen san moverSide with
        | None => false
        | Some loss =>
            if String.eqb moved "q" then (loss <=? -5)%Z
            else if String.eqb moved "r" then (loss <=? -3)%Z
            else if String.eqb moved "b" || String.eqb moved "n" then (loss <=? -2)%Z
            else false
        end
  end.

(** [getTerminalEval(fen)]. *)
Definition getTerminalEval (fen : string) : option Score :=
  match chessLoad fen with
  | Some g =>
      if isCheckmate g then Some (Mate 0)
      else if isStalemate g then Some (Cp 0)
      else None
  | None => None
  end.

(** [analyzeFenOnce(fen, optionsDepthOrOpts = 12, multiPVArg = 5)]: the value
    the promise resolves with, and the world afterwards. *)
Definition analyzeFenOnce (fen : string) (a : OptsArg) (multiPVArg : option Z)
    (w : World) : option Eval * World :=
  if negb (workerPresent w) then (None, w)
  else
    let '(depth, multiPV, movetime) := resolveOpts a multiPVArg in
    match getTerminalEval fen with
    | Some terminal =>
        let key := cacheKey fen movetime depth multiPV in
        let res := mkEval terminal None [] in
        (Some res, setCache (<[key := res]> (cache w)) w)
    | None =>
        let key := cacheKey fen movetime depth multiPV in
        match cache w !! key with
        | Some hit => (Some hit, w)
        | None =>
            let w' := post (searchCommands fen movetime depth multiPV) w in
            (engine (sent w'), w')
        end
    end.

(** The body of the first loop of [analyzeAll]. *)
Definition fastBody (depth : Z) (o : AllOpts) (i : nat) (fen : string)
    (s : gmap nat Eval * World) : gmap nat Eval * World :=
  let '(next, w) := s in
  let opts :=
    if fastFirstPass o
    then mkOpts (Some (Z.min depth 12)) (Some (movetime o)) (Some (multiPV o))
    else mkOpts (Some depth) None (Some 5%Z) in
  let '(ev, w1) := analyzeFenOnce fen (ByObject opts) None w in
  match ev with
  | Some e =>
      let key := fen ++ "|mv:" ++ Js.ofZOrEmpty (o_movetime opts)
                     ++ "|dp:" ++ Js.ofZOrEmpty (o_depth opts)
                     ++ "|mpv:" ++ Js.ofZOrEmpty (o_multiPV opts) in
      (<[i := e]> next, setCache (<[key := e]> (cache w1)) w1)
  | None => (next, w1)
  end.

(** The options of the stable pass. *)
Definition stableOpts (o : AllOpts) : OptsArg :=
  ByObject (mkOpts (Some (stableDepth o)) None (Some (stableMultiPV o))).

(** The body of the stable loop:
    [if (ev2) finalEvals[i] = ev2; else finalEvals[i] = next[i] ?? null]. *)
Definition stableBody (o : AllOpts) (next : gmap nat Eval) (i : nat) (fen : string)
    (s : gmap nat (option Eval) * World) : gmap nat (option Eval) * World :=
  let '(finalEvals, w) := s in
  let '(ev2, w1) := analyzeFenOnce fen (stableOpts o) None w in
  match ev2 with
  | Some e => (<[i := Some e]> finalEvals, w1)
  | None => (<[i := next !! i]> finalEvals, w1)
  end.

(** The options of the verification pass:
    [deepDepth = Math.max((stableFinalPass ? stableDepth : depth) + 4, 18)],
    [deepMultiPV = Math.max(stableMultiPV || 5, 5)]. *)
Definition deepOpts (depth : Z) (o : AllOpts) : OptsArg :=
  let deepDepth := Z.max ((if stableFinalPass o then stableDepth o else depth) + 4) 18 in
  let deepMultiPV := Z.max (if (stableMultiPV o =? 0)%Z then 5 else stableMultiPV o) 5 in
  ByObject (mkOpts (Some deepDepth) None (Some deepMultiPV)).

(** [u ? uciToSan(fen, u) : null] for the top move of an evaluation, and the
    test [san && normalizeSan(san) === normalizeSan(playedSan)]. *)
Definition topSan (fen : string) (e : Eval) : option string :=
  match Js.truthy (topUci e) with
  | Some u => uciToSan fen u
  | None => None
  end.

Definition sameMove (san : option string) (playedSan : string) : bool :=
  match Js.truthy san with
  | Some _ => bool_decide (normalizeSan san = normalizeSan (Some playedSan))
  | None => false
  end.

(** The body of the verification loop. *)
Definition deepBody (depth : Z) (o : AllOpts) (i : nat) (fen : string)
    (s : gmap nat (option Eval) * World) : gmap nat (option Eval) * World :=
  let '(finalEvals, w) := s in
  match Js.truthy (Some fen), finalEvals !! i with
  | Some _, Some (Some cur) =>
      match Js.truthy (sans !! i) with
      | None => s
      | Some playedSan =>
          if negb (isStrictPieceSacrificeOffer fen playedSan (Js.field1 fen)) then s
          else if sameMove (topSan fen cur) playedSan then s
          else
            let '(evDeep, w1) := analyzeFenOnce fen (deepOpts depth o) None w in
            match evDeep with
            | Some e =>
                if sameMove (topSan fen e) playedSan
                then (<[i := Some e]> finalEvals, w1)
                else (finalEvals, w1)
            | None => (finalEvals, w1)
            end
      end
  | _, _ => s
  end.

(** The three passes of [analyzeAll], each from the state the previous one
    left. *)
Definition fastPass (depth : Z) (fenList : list string) (o : AllOpts) (w : World)
  : gmap nat Eval * World :=
  forEachFrom (fastBody depth o) 0 fenList
    (∅, post (prepCommands (if fastFirstPass o then multiPV o else stableMultiPV o)) w).

Definition stablePass (fenList : list string) (o : AllOpts)
    (s : gmap nat Eval * World) : gmap nat (option Eval) * World :=
  let '(next, w) := s in
  if stableFinalPass o
  then forEachFrom (stableBody o next) 0 fenList
         (∅, post (prepCommands (stableMultiPV o)) w)
  else (Some <$> next, w).

Definition deepPass (depth : Z) (fenList : list string) (o : AllOpts)
    (s : gmap nat (option Eval) * World) : gmap nat (option Eval) * World :=
  forEachFrom (deepBody depth o) 0 (take (length fenList - 1) fenList) s.

(** [analyzeAll(depth = 12, list, { ... } = {})]. *)
Definition analyzeAll (depth : Z) (fenList : list string) (o : AllOpts) (w : World)
  : World :=
  if negb (engineReady w) || (length fenList =? 0)%nat then w
  else if negb (workerPresent w) then w
  else
    let '(finalEvals, w3) :=
      deepPass depth fenList o (stablePass fenList o (fastPass depth fenList o w)) in
    setEvals finalEvals w3.

End Engine.

End Channel.

(** ** Accuracy aggregator: per-move accuracy *)

Module Accuracy.

Import Classifier.

(** [Math.pow(x, y)] for [x >= 0] and [y > 0], and the rest of the curve, on
    real numbers: the doubles of the source are idealised. *)
Definition jsPow (x : Z) (y : R) : R :=
  if (x =? 0)%Z then 0%R else Rpower (IZR x) y.

(** [Math.max(0, 100 - 0.45 * Math.pow(cpLoss, 0.88))]. *)
Definition baseAcc (cpLoss : Z) : R :=
  Rmax 0 (100 - 0.45 * jsPow cpLoss 0.88).

(** [0.7 + 0.3 * Math.exp(-Math.pow(Math.min(Math.abs(bestCp), 200) / 120, 2))]. *)
Definition eqFactor (bestCp : Z) : R :=
  let x := (IZR (Z.min (Z.abs bestCp) 200) / 120)%R in
  (0.7 + 0.3 * exp (- (x * x)))%R.

Definition getCpFromItem (item : PvItem) : Z :=
  match pv_score item with
  | Mate m => mateToScore m
  | Cp c => c
  end.

(** [a && b && b === a] on nullable strings. *)
Definition sameSan (a b : option string) : bool :=
  match Js.truthy a, Js.truthy b with
  | Some x, Some y => String.eqb y x
  | _, _ => false
  end.

Section Stats.

(** chess.js wrappers: [uciToSan], and the test of step E of [playerStats],
    "the played move is a capture after which the mover's material count is
    not lower" ([false] when chess.js throws). *)
Variable uciToSan : string -> string -> option string.
Variable captureKeepsMaterial : string -> option string -> option string -> bool.

(** [u ? uciToSan(fen, u) : null]. *)
Definition sanOf (fen : string) (u : option string) : option string :=
  match Js.truthy u with
  | Some x => uciToSan fen x
  | None => None
  end.

(** The SAN the source calls [pv1San]:
    [pv1Uci = best.bestmoveUci || (pv1 ? pv1.uci : null)]. *)
Definition pv1San (fen : string) (best : Eval) : option string :=
  let pv1 := List.find (fun x => rank x =? 1)%Z (multipv best) in
  sanOf fen (Js.orElse (bestmoveUci best) (uci <$> pv1)).

(** The [for (const alt of pvList)] loop looking for a line within 10 cp of
    the first one whose SAN is the played move. *)
Definition nearEqualAlt (fen : string) (best : Eval) (playedSan : option string) : bool :=
  match List.find (fun x => rank x =? 1)%Z (multipv best) with
  | None => false
  | Some pv1 =>
      let pv1Cp := getCpFromItem pv1 in
      existsb (fun alt =>
                 negb (rank alt =? 1)%Z
                 && (Z.abs (pv1Cp - getCpFromItem alt) <=? 10)%Z
                 && sameSan (sanOf fen (Some (uci alt))) playedSan)
              (multipv best)
  end.

(** "Do not force perfect if the move accelerates mate against the mover". *)
Definition acceleratesMateAgainst (best after : Score) : bool :=
  match best, after with
  | Mate b, Mate a =>
      (Z.sgn b <? 0)%Z && (0 <? Z.sgn a)%Z && (Z.abs a <? Z.abs b)%Z
  | _, _ => false
  end.

Definition cpLoss (best after : Score) : Z :=
  Z.max 0 (annotBestCp best - annotPlayedCp after).

(** The value of [forcedPerfect] when the branches are reached. *)
Definition forcedPerfect (fen : string) (best after : Eval) (playedSan : option string)
  : bool :=
  let fp0 :=
    if sameSan (pv1San fen best) playedSan then true
    else nearEqualAlt fen best playedSan in
  let fp1 := if fp0 && acceleratesMateAgainst (score best) (score after)
             then false else fp0 in
  if negb fp1 && (cpLoss (score best) (score after) <=? 10)%Z then true else fp1.

(** Branch C to E: the decay curve, the equality factor and the recapture
    boost. *)
Definition curveAccuracy (fen : string) (best after : Eval) (playedSan : option string)
  : R :=
  let loss := cpLoss (score best) (score after) in
  let acc := (baseAcc loss * eqFactor (annotBestCp (score best)))%R in
  if captureKeepsMaterial fen playedSan (Js.field1 fen) && (loss <=? 30)%Z
  then Rmax acc 95 else acc.

(** [moveAccuracy] of one move that has both adjacent evaluations, after the
    final clamp [Math.max(0, Math.min(100, moveAccuracy))]. *)
Definition moveAccuracy (fen : string) (best after : Eval) (playedSan : option string)
  : R :=
  let raw :=
    if forcedPerfect fen best after playedSan then 100%R
    else match score after with
         | Mate 0 => 100%R
         | _ =>
             if annotBestIsMate (score best) then 30%R
             else curveAccuracy fen best after playedSan
         end in
  Rmax 0 (Rmin 100 raw).

End Stats.

End Accuracy.

(** ** Observing a loop, and concrete situations *)

Module Observe.

Import Channel.

(** The state of a loop over [l] when it reaches index [k]. *)
Definition loopAt {S : Type} (body : nat -> string -> S -> S) (l : list string)
    (s : S) (k : nat) : S :=
  forEachFrom body 0 (take k l) s.

End Observe.

Module Scenario.

Import Channel.
Local Open Scope string_scope.

(** Positions. The start position; the position after 1. f3 e5 2. g4 Qh4#
    (checkmate, White to move); a stalemate with Black to move; the Italian
    position after 1. e4 e5 2. Nf3 Nc6 3. Bc4 Nf6 and the one after the
    bishop sacrifice 4. Bxf7+. *)
Definition startFen : string :=
  "rnbqkbnr/pppppppp/8/8/8/8/PPPPPPPP/RNBQKBNR w KQkq - 0 1".
Definition foolsMateFen : string :=
  "rnb1kbnr/pppp1ppp/8/4p3/6Pq/5P2/PPPPP2P/RNBQKBNR w KQkq - 1 3".
Definition stalemateFen : string := "7k/5Q2/6K1/8/8/8/8/8 b - - 0 1".
Definition italianFen : string :=
  "r1bqkb1r/pppp1ppp/2n2n2/4p3/2B1P3/5N2/PPPP1PPP/RNBQK2R w KQkq - 4 4".
Definition afterBxf7Fen : string :=
  "r1bqkb1r/pppp1Bpp/2n2n2/4p3/4P3/5N2/PPPP1PPP/RNBQK2R b KQkq - 0 4".

(** chess.js on these positions: every FEN loads, and the two terminal
    positions are recognised. *)
Definition chessLoad (fen : string) : option string := Some fen.
Definition isCheckmate (g : string) : bool := String.eqb g foolsMateFen.
Definition isStalemate (g : string) : bool := String.eqb g stalemateFen.

(** [uciToSan] on the moves that occur below. *)
Definition uciToSan (fen uci : string) : option string :=
  if String.eqb uci "d2d3" then Some "d3"
  else if String.eqb uci "c4f7" then Some "Bxf7+"
  else if String.eqb uci "e8f7" then Some "Kxf7"
  else if String.eqb uci "e2e4" then Some "e4"
  else if String.eqb uci "d8h4" then Some "Qh4#"
  else if String.eqb uci "h1g1" then Some "Kg1"
  else None.

(** In the Italian position the played 4. Bxf7+ moves a bishop; after
    ...Kxf7 there is no recapture on f7 and White is three pawns short of
    the material White had after the move. *)
Definition getMovedPieceType (fen san : string) : option string :=
  if String.eqb fen italianFen && String.eqb san "Bxf7+" then Some "b" else None.
Definition offeredSacrificeLossMagnitude (fen san : string) (side : option string)
  : option Z :=
  if String.eqb fen italianFen && String.eqb san "Bxf7+" then Some (-3)%Z else None.

Definition line (r : Z) (u : string) (sc : Score) : PvItem := mkPv r u sc.
Definition evalOf (sc : Score) (u : string) : Eval := mkEval sc (Some u) [line 1 u sc].

(** An engine whose answer is fixed by the last two messages it received,
    the position and the [go] command; [deepTop] is the move it prefers in
    the Italian position at depth 18. *)
Definition engine (deepTop : string) (sent : list string) : option Eval :=
  match List.rev sent with
  | go :: pos :: _ =>
      if String.eqb pos ("position fen " ++ italianFen) then
        if String.eqb go "go movetime 80" then Some (evalOf (Cp 30) "d2d3")
        else if String.eqb go "go depth 14" then Some (evalOf (Cp 25) "d2d3")
        else if String.eqb go "go depth 18" then Some (evalOf (Cp 28) deepTop)
        else Some (evalOf (Cp 27) "d2d3")
      else if String.eqb pos ("position fen " ++ afterBxf7Fen) then
        Some (evalOf (Cp 250) "e8f7")
      else Some (evalOf (Cp 20) "e2e4")
  | _ => None
  end.

(** A component whose engine is ready and whose cache is empty. *)
Definition readyWorld : World := mkWorld true true ∅ [] ∅.

(** The game 1. e4 e5 2. Nf3 Nc6 3. Bc4 Nf6 4. Bxf7+ from its fourth move. *)
Definition italianGame : list string := [italianFen; afterBxf7Fen].
Definition italianSans : list string := ["Bxf7+"].

(** The options [handleQuickAnalyze] passes to [analyzeAll] (with depth 12):
    [{ fastFirstPass: true, stableFinalPass: false, movetime: 80, multiPV: 3 }]. *)
Definition quickOpts : AllOpts := mkAllOpts true 80 3 false 14 5.

(** Two candidate builds, for the start-up chain. *)
Definition twoCandidates : list string :=
  ["/stockfish/stockfish-17.1-8e4d048.js"; "/stockfish/stockfish-17.1-lite.js"].

Definition allSpawn (url : string) : bool := true.

(** No capture restores material in the situations below. *)
Definition noCapture (fen : string) (san side : option string) : bool := false.

(** The mover is being mated: the search before the move reports mate in 3
    against the mover with 1. Kg1 (the only legal move) as first line, and
    the search after 1. Kg1 reports mate in 2 for the opponent. *)
Definition losingFen : string := "1q6/8/8/8/8/5k2/8/7K w - - 0 1".
Definition matedIn3 : Eval := evalOf (Mate (-3)) "h1g1".
Definition mateIn2 : Eval := evalOf (Mate 2) "b8b2".

(** The operations of the component over this chess.js and this engine. *)
Definition once (deepTop : string) :=
  analyzeFenOnce string chessLoad isCheckmate isStalemate (engine deepTop).
Definition fast (deepTop : string) :=
  fastPass string chessLoad isCheckmate isStalemate (engine deepTop).
Definition stable (deepTop : string) :=
  stablePass string chessLoad isCheckmate isStalemate (engine deepTop).
Definition deep (deepTop : string) :=
  deepPass string chessLoad isCheckmate isStalemate (engine deepTop)
    getMovedPieceType offeredSacrificeLossMagnitude uciToSan italianSans.
Definition analyze (deepTop : string) :=
  analyzeAll string chessLoad isCheckmate isStalemate (engine deepTop)
    getMovedPieceType offeredSacrificeLossMagnitude uciToSan italianSans.

End Scenario.

(** ** Annotations: the tag of each move *)

Module Annotations.

Import Classifier.
Local Open Scope string_scope.

(** One entry of the [annotations] object: [{ mover, tag, delta }], with
    [delta = deltaCp / 100]. *)
Record Annotation : Type := mkAnn {
  mover : string;
  tag : Tag;
  delta : Q
}.

Definition isBrilliant (t : Tag) : bool :=
  match t with Brilliant => true | _ => false end.

Definition isBest (t : Tag) : bool :=
  match t with Best => true | _ => false end.

(** The test the source repeats for a moved piece and a material loss:
    [(t === 'q' && loss <= -5) || (t === 'r' && loss <= -3) ||
     ((t === 'n' || t === 'b') && loss <= -2)]; a [null] loss fails it. *)
Definition sacrificeThreshold (t : string) (loss : option Z) : bool :=
  match loss with
  | None => false
  | Some l =>
      (String.eqb t "q" && (l <=? -5)%Z)
      || (String.eqb t "r" && (l <=? -3)%Z)
      || ((String.eqb t "n" || String.eqb t "b") && (l <=? -2)%Z)
  end.

(** An evaluation that is neither [null] nor [undefined]. *)
Definition present (e : option (option Eval)) : option Eval :=
  match e with
  | Some (Some x) => Some x
  | _ => None
  end.

Section Tagging.

(** The wrappers of chess.js the memo calls. *)
Variable uciToSan : string -> string -> option string.
Variable getMovedPieceType : string -> string -> option string.
Variable offeredSacrificeLossMagnitude : string -> string -> option string -> option Z.
Variable hasOpponentCaptureOnTarget : string -> string -> bool.
Variable moverHasImmediateCheckAfterTargetCapture : string -> string -> option string -> bool.
Variable worstImmediateCaptureLoss : string -> string -> option string -> option Z.

(** [movedType && movedType !== 'p' && movedType !== 'k']: the piece letter
    when the test passes. *)
Definition pieceMoved (fen san : string) : option string :=
  match Js.truthy (getMovedPieceType fen san) with
  | Some t => if String.eqb t "p" || String.eqb t "k" then None else Some t
  | None => None
  end.

(** [bestSan && playedSan && playedSan === bestSan], on the normalised SANs. *)
Definition sameAsBest (bestSan playedSan : option string) : bool :=
  match Js.truthy bestSan, Js.truthy playedSan with
  | Some b, Some p => String.eqb p b
  | _, _ => false
  end.

(** The only-move test: the played move is the best one, there are at least
    two lines, and [Math.min(...altLosses)] is finite and at least 150. *)
Definition onlyMove (best : Eval) (same : bool) : bool :=
  if same && (2 <=? length (multipv best))%nat then
    match List.find (fun x => rank x =? 1)%Z (multipv best) with
    | Some bestItem =>
        let bestItemCp := Accuracy.getCpFromItem bestItem in
        let altLosses :=
          List.map (fun x => bestItemCp - Accuracy.getCpFromItem x)%Z
            (List.filter (fun x => negb (rank x =? 1)%Z) (multipv best)) in
        match altLosses with
        | [] => false
        | x :: rest => (150 <=? fold_left Z.min rest x)%Z
        end
    | None => false
    end
  else false.

(** The tag of the move played in position [fen], from the evaluation
    [best] of that position, the evaluation [after] of the next one and the
    move [playedSanRaw = sans[i]]: the classifier's tag followed by the
    chain of overrides, in the order of the source. *)
Definition moveTag (fen : string) (best after : Eval) (playedSanRaw : option string)
  : Tag :=
  let moverSide := Js.field1 fen in
  let bestCp := annotBestCp (score best) in
  let playedCp := annotPlayedCp (score after) in
  let tag0 := annotBaseTag (score best) (score after) in
  let bestSan := normalizeSan (Channel.topSan uciToSan fen best) in
  let playedSan := normalizeSan playedSanRaw in
  let same := sameAsBest bestSan playedSan in
  let san := match Js.truthy playedSan with Some p => p | None => "" end in
  let tag1 :=
    if same then
      if match pieceMoved fen san with
         | Some t => sacrificeThreshold t (offeredSacrificeLossMagnitude fen san moverSide)
         | None => false
         end
      then Brilliant else Best
    else tag0 in
  let tag2 :=
    if negb (isBrilliant tag1)
       && match Js.truthy playedSan with Some _ => true | None => false end then
      match pieceMoved fen san with
      | Some t =>
          if sacrificeThreshold t (offeredSacrificeLossMagnitude fen san moverSide)
             && (bestCp - playedCp <=? 20)%Z
          then Brilliant else tag1
      | None => tag1
      end
    else tag1 in
  let tag3 :=
    if onlyMove best same && bool_decide (playedSan = bestSan) then
      if negb (isBrilliant tag2) && negb (isBest tag2) then Great else tag2
    else tag2 in
  let tag4 :=
    if negb (isBrilliant tag3) && same then
      match pieceMoved fen san with
      | Some _ =>
          if hasOpponentCaptureOnTarget fen san
             && moverHasImmediateCheckAfterTargetCapture fen san moverSide
          then Brilliant else tag3
      | None => tag3
      end
    else tag3 in
  let tag5 :=
    if negb (isBrilliant tag4) && same then
      if bool_decide (getMovedPieceType fen san = Some "n") then
        if hasOpponentCaptureOnTarget fen san then
          match offeredSacrificeLossMagnitude fen san moverSide with
          | Some sacLoss4 =>
              if (sacLoss4 <? 0)%Z && (-50 <? bestCp)%Z then Brilliant else tag4
          | None => tag4
          end
        else tag4
      else tag4
    else tag4 in
  if negb (isBrilliant tag5) && same then
    match pieceMoved fen san with
    | Some t =>
        if sacrificeThreshold t (worstImmediateCaptureLoss fen san moverSide)
        then Brilliant else tag5
    | None => tag5
    end
  else tag5.

(** Whether the played move is the engine's first move, as [moveTag] tests
    it. *)
Definition playedIsBest (fen : string) (best : Eval) (playedSanRaw : option string)
  : bool :=
  sameAsBest (normalizeSan (Channel.topSan uciToSan fen best))
    (normalizeSan playedSanRaw).

(** The entry written for move [i], if any: both adjacent evaluations must
    be there. *)
Definition annotationAt (evals : gmap nat (option Eval)) (sans : list string)
    (i : nat) (fen : string) : option Annotation :=
  match present (evals !! i), present (evals !! S i) with
  | Some best, Some after =>
      let deltaCp := (annotBestCp (score best) - annotPlayedCp (score after))%Z in
      Some (mkAnn (if bool_decide (Js.field1 fen = Some "w") then "White" else "Black")
              (moveTag fen best after (sans !! i))
              (Qmake deltaCp 100))
  | _, _ => None
  end.

(** The body of the loop: [if (tag) ann[i + 1] = { ... }]. *)
Definition annotateBody (evals : gmap nat (option Eval)) (sans : list string)
    (i : nat) (fen : string) (ann : gmap nat Annotation) : gmap nat Annotation :=
  match annotationAt evals sans i fen with
  | Some a => <[S i := a]> ann
  | None => ann
  end.

(** The [annotations] memo. *)
Definition annotations (fens : list string) (evals : gmap nat (option Eval))
    (sans : list string) : gmap nat Annotation :=
  Channel.forEachFrom (annotateBody evals sans) 0 (take (length fens - 1) fens) ∅.

End Tagging.

End Annotations.

(** ** Player statistics *)

Module Stats.

Import Classifier.

(** [counts: { best, excellent, good, inaccuracy, mistake, blunder, miss }]. *)
Record Counts : Type := mkCounts {
  c_best : nat;
  c_excellent : nat;
  c_good : nat;
  c_inaccuracy : nat;
  c_mistake : nat;
  c_blunder : nat;
  c_miss : nat
}.

(** [{ accuracy, totalMoves, goodMoves, extraPenalty, counts }] of one
    player. *)
Record PlayerStat : Type := mkStat {
  accuracy : R;
  totalMoves : nat;
  goodMoves : nat;
  extraPenalty : Z;
  counts : Counts
}.

Definition emptyStat : PlayerStat := mkStat 0 0 0 0 (mkCounts 0 0 0 0 0 0 0).

(** [stats[player].counts.<tag>++] for the seven counters. *)
Definition bump (t : Tag) (c : Counts) : Counts :=
  match t with
  | Best => mkCounts (S (c_best c)) (c_excellent c) (c_good c) (c_inaccuracy c)
              (c_mistake c) (c_blunder c) (c_miss c)
  | Excellent => mkCounts (c_best c) (S (c_excellent c)) (c_good c) (c_inaccuracy c)
                   (c_mistake c) (c_blunder c) (c_miss c)
  | Good => mkCounts (c_best c) (c_excellent c) (S (c_good c)) (c_inaccuracy c)
              (c_mistake c) (c_blunder c) (c_miss c)
  | Inaccuracy => mkCounts (c_best c) (c_excellent c) (c_good c) (S (c_inaccuracy c))
                    (c_mistake c) (c_blunder c) (c_miss c)
  | Mistake => mkCounts (c_best c) (c_excellent c) (c_good c) (c_inaccuracy c)
                 (S (c_mistake c)) (c_blunder c) (c_miss c)
  | Blunder => mkCounts (c_best c) (c_excellent c) (c_good c) (c_inaccuracy c)
                 (c_mistake c) (S (c_blunder c)) (c_miss c)
  | Miss => mkCounts (c_best c) (c_excellent c) (c_good c) (c_inaccuracy c)
              (c_mistake c) (c_blunder c) (S (c_miss c))
  | _ => c
  end.

(** The counter chosen by [cpLoss]. *)
Definition lossBucket (cpLoss : Z) : Tag :=
  if (cpLoss <=? 10)%Z then Best
  else if (cpLoss <=? 20)%Z then Excellent
  else if (cpLoss <=? 50)%Z then Good
  else if (cpLoss <=? 150)%Z then Inaccuracy
  else if (cpLoss <=? 300)%Z then Mistake
  else Blunder.

(** The counter a move goes to: by the mate-distance change when both
    evaluations are mates for the mover and the mate did not get faster
    ([dMate != null && dMate >= 0]), by [cpLoss] otherwise. *)
Definition bucket (best after : Score) : Tag :=
  let cpLoss := Z.max 0 (annotBestCp best - annotPlayedCp after) in
  match annotDeltaMate best after with
  | Some dMate =>
      if (0 <=? dMate)%Z then
        if (dMate =? 0)%Z then Best
        else if (dMate =? 1)%Z then Excellent
        else if (dMate <=? 3)%Z then Good
        else if (dMate <=? 6)%Z then Inaccuracy
        else Mistake
      else lossBucket cpLoss
  | None => lossBucket cpLoss
  end.

(** The moves counted in the six quality counters (all but [miss]). *)
Definition classified (c : Counts) : nat :=
  c_best c + c_excellent c + c_good c + c_inaccuracy c + c_mistake c + c_blunder c.

(** What the loop keeps true of the running statistics of one player: the
    six quality counters add up to the moves counted, the other counters
    are bounded by them, and the accuracy sum by 100 per move. *)
Definition wellCounted (st : PlayerStat) : Prop :=
  classified (counts st) = totalMoves st
  /\ (goodMoves st <= totalMoves st)%nat
  /\ (c_miss (counts st) <= totalMoves st)%nat
  /\ (0 <= extraPenalty st <= 200 * Z.of_nat (totalMoves st))%Z
  /\ (0 <= accuracy st <= 100 * INR (totalMoves st))%R.

Section Loop.

Variable uciToSan : string -> string -> option string.
Variable captureKeepsMaterial : string -> option string -> option string -> bool.

(** The body of the loop for one move that has both evaluations, on the
    statistics of the mover. *)
Definition countMove (fen : string) (best after : Eval) (playedSan : option string)
    (st : PlayerStat) : PlayerStat :=
  let moveAccuracy :=
    Accuracy.moveAccuracy uciToSan captureKeepsMaterial fen best after playedSan in
  let c1 := bump (bucket (score best) (score after)) (counts st) in
  let c2 := if statsIsMiss (score best) (score after) then bump Miss c1 else c1 in
  mkStat (accuracy st + moveAccuracy)
    (S (totalMoves st))
    (if Rle_dec 92 moveAccuracy then S (goodMoves st) else goodMoves st)
    (match score after with
     | Mate 1 => extraPenalty st + 200
     | _ => extraPenalty st
     end)
    c2.

(** The body of the loop: moves without both evaluations are skipped, the
    others are counted for White when the side to move is ['w'] and for
    Black otherwise. The state is the pair (white, black). *)
Definition statsBody (evals : gmap nat (option Eval)) (sans : list string)
    (i : nat) (fen : string) (s : PlayerStat * PlayerStat) : PlayerStat * PlayerStat :=
  match Annotations.present (evals !! i), Annotations.present (evals !! S i) with
  | Some best, Some after =>
      if bool_decide (Js.field1 fen = Some "w"%string)
      then (countMove fen best after (sans !! i) (fst s), snd s)
      else (fst s, countMove fen best after (sans !! i) (snd s))
  | _, _ => s
  end.

(** [stats[color].accuracy = stats[color].accuracy / stats[color].totalMoves]
    when [totalMoves > 0]. *)
Definition finalize (st : PlayerStat) : PlayerStat :=
  if (totalMoves st =? 0)%nat then st
  else mkStat (accuracy st / INR (totalMoves st)) (totalMoves st) (goodMoves st)
         (extraPenalty st) (counts st).

(** The [playerStats] memo: (white, black). *)
Definition playerStats (fens : list string) (evals : gmap nat (option Eval))
    (sans : list string) : PlayerStat * PlayerStat :=
  let s := Channel.forEachFrom (statsBody evals sans) 0
             (take (length fens - 1) fens) (emptyStat, emptyStat) in
  (finalize (fst s), finalize (snd s)).

End Loop.

End Stats.

(** ** How bad a tag is *)

Module Grading.

(** The tags of [classifyMoveByDelta] from the mildest to the worst, in the
    order of its loss table; [Miss] stands where the branch that returns it
    stands in the table, beside [Mistake]. *)
Definition severity (t : Tag) : nat :=
  match t with
  | Brilliant | Great | Best => 0
  | Excellent => 1
  | Good => 2
  | Inaccuracy => 3
  | Miss | Mistake => 4
  | Blunder => 5
  end.

End Grading.

(** ** Strings made of given characters *)

Module Chars.

(** Every character of a string passes a test. *)
Fixpoint allChars (p : ascii -> bool) (s : string) : bool :=
  match s with
  | EmptyString => true
  | String c rest => p c && allChars p rest
  end.

End Chars.

(** ** What a run leaves behind *)

Module Footprint.

Import Channel.

(** From [w] to [w'] the worker and the readiness flag are as they were,
    every cache key is still there, and the messages posted are those of
    [w] followed by new ones with at most [n] searches among them. *)
Definition extendsBy (n : nat) (w w' : World) : Prop :=
  workerPresent w' = workerPresent w
  /\ engineReady w' = engineReady w
  /\ (forall k, is_Some (cache w !! k) -> is_Some (cache w' !! k))
  /\ exists ext, sent w' = sent w ++ ext /\ (searchCount ext <= n)%nat.

(** The searches a run of [analyzeAll] can ask for: one per position in the
    first pass, one per position in the stable pass, one per move in the
    verification pass. *)
Definition searchBudget (fenList : list string) (o : AllOpts) : nat :=
  (length fenList + (if stableFinalPass o then length fenList else 0)
   + (length fenList - 1))%nat.

End Footprint.

(** ** Evaluation bar and evaluation chart *)

Module Bar.

Local Open Scope R_scope.

(** [sideToMove === c], for a side that may be undefined. *)
Definition sideIs (sideToMove : option string) (c : string) : bool :=
  match sideToMove with
  | Some s => String.eqb s c
  | None => false
  end.

(** [pawnsToPct(pawns)] of [EvaluationBar], on real numbers. *)
Definition pawnsToPct (pawns : R) : R :=
  let x := Rmax (-10) (Rmin 10 pawns) in
  let k := 0.85 in
  let pct := 100 / (1 + exp (- k * x)) in
  Rmax 1 (Rmin 99 pct).

(** The mate of the line of rank 1, if that line carries one. *)
Definition pv1Mate (e : Eval) : option Z :=
  match List.find (fun x => rank x =? 1)%Z (multipv e) with
  | Some pv1 =>
      match pv_score pv1 with
      | Mate m => Some m
      | Cp _ => None
      end
  | None => None
  end.

(** [evalToWhitePawns()]. *)
Definition evalToWhitePawns (evaluation : option Eval) (sideToMove : option string) : R :=
  match evaluation with
  | None => 0
  | Some e =>
      let mateVal :=
        match score e with
        | Mate m => Some m
        | Cp _ => pv1Mate e
        end in
      match mateVal with
      | Some m =>
          let mWhite := if sideIs sideToMove "w" then m else (- m)%Z in
          if (0 <? mWhite)%Z then 10 else -10
      | None =>
          match score e with
          | Cp c => IZR (if sideIs sideToMove "b" then (- c)%Z else c) / 100
          | Mate _ => 0
          end
      end
  end.

(** [percentage], the height of the white part of the bar. *)
Definition percentage (evaluation : option Eval) (sideToMove : option string) : R :=
  match evaluation with
  | Some (mkEval (Mate m) _ _) =>
      if (m =? 0)%Z then (if sideIs sideToMove "b" then 100 else 0)
      else
        let mWhite := if sideIs sideToMove "w" then m else (- m)%Z in
        if (0 <? mWhite)%Z then 99 else 1
  | _ => pawnsToPct (evalToWhitePawns evaluation sideToMove)
  end.

(** [evalToPawns(evalObj, sideToMove)], the value drawn on the chart. *)
Definition evalToPawns (evalObj : option Eval) (sideToMove : option string) : option R :=
  match evalObj with
  | None => None
  | Some e =>
      match score e with
      | Mate m =>
          if (m =? 0)%Z then Some (if sideIs sideToMove "w" then -10 else 10)
          else
            let mWhite := if sideIs sideToMove "w" then m else (- m)%Z in
            Some (if (0 <? mWhite)%Z then 10 else -10)
      | Cp c =>
          let sign := if sideIs sideToMove "b" then (-1)%Z else 1%Z in
          Some (IZR (c * sign) / 100)
      end
  end.

Section Effective.

(** chess.js, as [getTerminalEval] uses it. *)
Variable Board : Type.
Variable chessLoad : string -> option Board.
Variable isCheckmate : Board -> bool.
Variable isStalemate : Board -> bool.

(** The memo [{ effectiveEval, effectiveSide }]: what the bar is given for
    the current position. *)
Definition effective (fens : list string) (idx : nat) (evals : gmap nat (option Eval))
  : option Eval * option string :=
  match Js.truthy (fens !! idx) with
  | Some currFen =>
      match Channel.getTerminalEval Board chessLoad isCheckmate isStalemate currFen with
      | Some term => (Some (mkEval term None []), Js.field1 currFen)
      | None =>
          match Annotations.present (evals !! idx) with
          | Some currEval => (Some currEval, Js.field1 currFen)
          | None => (None, Js.orElse (Js.field1 currFen) (Some "w"%string))
          end
      end
  | None => (None, Some "w"%string)
  end.

(** The white part of the bar on the current position. *)
Definition barFill (fens : list string) (idx : nat) (evals : gmap nat (option Eval)) : R :=
  percentage (fst (effective fens idx evals)) (snd (effective fens idx evals)).

End Effective.

End Bar.

(** ** Captured pieces: the walk of [parsePgnToFens] and [CapturedRow] *)

Module Captures.

Local Open Scope string_scope.

(** A move of [game.history({ verbose: true })]: its SAN, the colour of the
    mover and the type of the captured piece, if any. *)
Record Move : Type := mkMove {
  san : string;
  color : string;
  captured : option string
}.

(** An object [{ p, n, b, r, q }] of counts. *)
Abbreviation Caps := (gmap string nat).

(** [emptyCaps()]. *)
Definition emptyCaps : Caps :=
  <["p" := 0%nat]> (<["n" := 0%nat]> (<["b" := 0%nat]> (<["r" := 0%nat]>
    (<["q" := 0%nat]> ∅)))).

(** [c[t] || 0]. *)
Definition getCount (c : Caps) (t : string) : nat :=
  match c !! t with
  | Some n => n
  | None => 0%nat
  end.

(** [{ ...acc, [t]: (acc[t] || 0) + 1 }]. *)
Definition bumpCap (acc : Caps) (t : string) : Caps :=
  <[t := (getCount acc t + 1)%nat]> acc.

Section Walk.

(** chess.js: a game, [walk.move(mv)] and [walk.fen()]. *)
Variable Board : Type.
Variable move : Board -> Move -> Board.
Variable fen : Board -> string.

(** The variables of the loop over the moves. *)
Record Walk : Type := mkWalk {
  walk : Board;
  fens : list string;
  sans : list string;
  capsProgress : list (Caps * Caps);
  accWhite : Caps;
  accBlack : Caps
}.

(** [const walk = new Chess(); const fens = [walk.fen()]; ...]. *)
Definition startWalk (start : Board) : Walk :=
  mkWalk start [fen start] [] [(emptyCaps, emptyCaps)] emptyCaps emptyCaps.

(** The body of [for (const mv of moves)]. *)
Definition walkBody (st : Walk) (mv : Move) : Walk :=
  let b := move (walk st) mv in
  let aw :=
    match Js.truthy (captured mv) with
    | Some t => if String.eqb (color mv) "w" then bumpCap (accWhite st) t else accWhite st
    | None => accWhite st
    end in
  let ab :=
    match Js.truthy (captured mv) with
    | Some t => if String.eqb (color mv) "w" then accBlack st else bumpCap (accBlack st) t
    | None => accBlack st
    end in
  mkWalk b (fens st ++ [fen b]) (sans st ++ [san mv]) (capsProgress st ++ [(aw, ab)])
    aw ab.

Definition walkMoves (start : Board) (moves : list Move) : Walk :=
  fold_left walkBody moves (startWalk start).

End Walk.

Arguments walk {Board} _.
Arguments fens {Board} _.
Arguments sans {Board} _.
Arguments capsProgress {Board} _.
Arguments accWhite {Board} _.
Arguments accBlack {Board} _.

(** How many of the moves are captures of a piece of type [t] by White
    ([byWhite]) or by the other side. *)
Definition capturesOf (byWhite : bool) (t : string) (moves : list Move) : nat :=
  length (List.filter
            (fun mv => bool_decide (Js.truthy (captured mv) = Some t)
                       && Bool.eqb (String.eqb (color mv) "w") byWhite)
            moves).

(** [CapturedRow]: the piece types in display order, the codes of the icons
    of a row, and the material lead shown when it is positive. *)
Definition order : list string := ["q"; "r"; "b"; "n"; "p"].

Definition upper (t : string) : string :=
  if String.eqb t "q" then "Q"
  else if String.eqb t "r" then "R"
  else if String.eqb t "b" then "B"
  else if String.eqb t "n" then "N"
  else if String.eqb t "p" then "P"
  else t.

Definition rowItems (oppCaps : option Caps) (rowColor : string) : list string :=
  let prefix := if String.eqb rowColor "white" then "b" else "w" in
  let c := match oppCaps with Some c => c | None => emptyCaps end in
  flat_map (fun t => repeat (prefix ++ upper t) (getCount c t)) order.

Definition pieceValues : list (string * Z) :=
  [("p", 1%Z); ("n", 3%Z); ("b", 3%Z); ("r", 5%Z); ("q", 9%Z)].

Definition sumVals (obj : option Caps) : Z :=
  match obj with
  | None => 0%Z
  | Some c =>
      fold_left (fun s kv => (s + Z.of_nat (getCount c (fst kv)) * snd kv)%Z)
        pieceValues 0%Z
  end.

Definition lead (caps oppCaps : option Caps) : Z := (sumVals oppCaps - sumVals caps)%Z.

(** [lead > 0 && <span>+{lead}</span>]. *)
Definition showsLead (caps oppCaps : option Caps) : bool := (0 <? lead caps oppCaps)%Z.

End Captures.

(** ** The arrow of the engine's move *)

Module Arrow.

(** [s.slice(a, b)] for [a <= b <= s.length]. *)
Definition slice (a b : nat) (s : string) : string := String.substring a (b - a) s.

Section BestMove.

Variable uciToSan : string -> string -> option string.

(** The [bestMoveArrow] memo: the list of arrows [(from, to)] drawn on the
    current position, none or one. *)
Definition bestMoveArrow (fens : list string) (idx : nat)
    (evals : gmap nat (option Eval)) (sans : list string) : list (string * string) :=
  match Js.truthy (fens !! idx) with
  | None => []
  | Some fen =>
      match Annotations.present (evals !! idx) with
      | None => []
      | Some currentEval =>
          match Js.truthy (bestmoveUci currentEval) with
          | None => []
          | Some uci =>
              if (String.length uci <? 4)%nat then []
              else if (idx <? length sans)%nat
                      && match Js.truthy (sans !! idx), Js.truthy (uciToSan fen uci) with
                         | Some playedSan, Some bestSan =>
                             bool_decide (normalizeSan (Some playedSan)
                                          = normalizeSan (Some bestSan))
                         | _, _ => false
                         end
              then []
              else [(slice 0 2 uci, slice 2 4 uci)]
          end
      end
  end.

End BestMove.

End Arrow.

(** ** Move quality summary *)

Module Summary.

Import Annotations.

Local Open Scope string_scope.

(** [s.toLowerCase()] on ASCII text. *)
Definition lowerChar (c : ascii) : ascii :=
  let n := nat_of_ascii c in
  if (65 <=? n)%nat && (n <=? 90)%nat then ascii_of_nat (n + 32) else c.

Fixpoint toLowerCase (s : string) : string :=
  match s with
  | EmptyString => EmptyString
  | String c rest => String (lowerChar c) (toLowerCase rest)
  end.

(** The position of a tag among the keys of [base]. *)
Definition tagIndex (t : Tag) : nat :=
  match t with
  | Brilliant => 0 | Great => 1 | Best => 2 | Excellent => 3 | Good => 4
  | Inaccuracy => 5 | Miss => 6 | Mistake => 7 | Blunder => 8
  end.

(** An object with one counter per tag; [base] has them all at 0. *)
Definition base : Tag -> nat := fun _ => 0%nat.

(** [res[color][key] += 1]. *)
Definition bumpTag (f : Tag -> nat) (t : Tag) : Tag -> nat :=
  fun t' => if (tagIndex t' =? tagIndex t)%nat then S (f t') else f t'.

(** [res = { white: { ...base }, black: { ...base } }]. *)
Record Res : Type := mkRes {
  white : Tag -> nat;
  black : Tag -> nat
}.

(** The body of the [forEach] over the entries of [annotations]. *)
Definition countEntry (res : Res) (entry : nat * Annotation) : Res :=
  let ann := snd entry in
  let color := toLowerCase (mover ann) in
  if String.eqb color "white" then mkRes (bumpTag (white res) (tag ann)) (black res)
  else if String.eqb color "black" then mkRes (white res) (bumpTag (black res) (tag ann))
  else res.

(** The order of [Object.entries] on integer keys: ascending. *)
Definition keyLe (a b : nat * Annotation) : Prop := (fst a <= fst b)%nat.

#[global] Instance keyLe_dec (a b : nat * Annotation) : Decision (keyLe a b) :=
  le_dec (fst a) (fst b).

(** The [moveTypeCounts] memo. *)
Definition moveTypeCounts (annotations : gmap nat Annotation) : Res :=
  fold_left countEntry (merge_sort keyLe (map_to_list annotations)) (mkRes base base).

(** The sum of the nine counters of a column. *)
Definition total (f : Tag -> nat) : nat :=
  (f Brilliant + f Great + f Best + f Excellent + f Good + f Inaccuracy + f Miss
   + f Mistake + f Blunder)%nat.

(** The entries of a map whose mover is [c]. *)
Definition moversOf (c : string) (l : list (nat * Annotation)) : nat :=
  length (List.filter (fun e => String.eqb (mover (snd e)) c) l).

End Summary.

(** ** What holds of a session after any events *)

Module Startup.

Import Session.

Local Open Scope nat_scope.

(** The URL the worker of candidate [i] is created from:
    [createStockfishWorker(candidates[i])], whose parameter defaults to
    [defaultUrl] when [candidates[i]] is undefined. *)
Definition candidateUrl (cands : list string) (i : nat) : string :=
  match cands !! i with
  | Some url => url
  | None => defaultUrl
  end.

(** The messages on which [w.onmessage] calls [setEngineReady(true)]. *)
Definition isHandshake (m : WorkerMsg) : bool :=
  match m with
  | Line line => isReadyText line
  | Obj type message =>
      String.eqb type "ready"
      || (String.eqb type "log"
          && match Js.truthy message with
             | Some msg => isReadyText msg
             | None => false
             end)
  end.

(** No watchdog is pending, or exactly one, which is the one of the current
    token and the one [loadingTimeout] refers to. *)
Definition oneWatchdog (s : State) : Prop :=
  timers s = []
  \/ (timers s = [timeoutToken s] /\ loadingTimeout s = Some (timeoutToken s)).

(** A live worker is the worker of the current candidate. *)
Definition onCandidate (cands : list string) (spawns : string -> bool) (s : State) : Prop :=
  alive s = true ->
  workerRef s = Some (candidateUrl cands (candidateIndex s))
  /\ spawns (candidateUrl cands (candidateIndex s)) = true
  /\ posted s = ["uci"%string].

(** Without a live worker nothing is pending and the engine is reported as
    not ready. *)
Definition deadIsFinal (s : State) : Prop :=
  alive s = false -> timers s = [] /\ engineReady s = false.

End Startup.

(** ** The message handler of one search *)

Module Handler.

(** What the regular expressions of the handler capture on one string line:
    [/\bmultipv\s+(\d+)/], [/score\s+cp\s+(-?\d+)/],
    [/score\s+mate\s+(-?\d+)/], [/\bpv\s+([a-h][1-8][a-h][1-8][qrbn]?)/] and
    [/\bbestmove\s+(\S+)/], the numbers already through [parseInt]. *)
Record Line : Type := mkLine {
  l_multipv : option nat;
  l_cp : option Z;
  l_mate : option Z;
  l_pv : option string;
  l_bestmove : option string
}.

(** A message of the worker during a search: a string line, or an object of
    type ['eval'] (with [cp], or else with [mate]) or ['bestmove'], or any
    other object. *)
Inductive Msg : Type :=
  | Str (l : Line)
  | ObjEval (cp : option Z) (mate : Z)
  | ObjBest (bestmove : option string)
  | ObjOther.

(** The variables of the promise: [currentEval], the object [mpv] and
    whether the promise was resolved, with what. Once it is resolved the
    listener is removed. *)
Record State : Type := mkState {
  currentEval : option Score;
  mpv : gmap nat (Score * string);
  resolved : option (option Eval)
}.

Definition init : State := mkState None ∅ None.

(** The score a line carries: [mMate ? { mate } : { cp }]. *)
Definition lineScore (l : Line) : option Score :=
  match l_mate l with
  | Some m => Some (Mate m)
  | None =>
      match l_cp l with
      | Some c => Some (Cp c)
      | None => None
      end
  end.

(** The order of [.sort((a, b) => a.rank - b.rank)]. *)
Definition rankLe (a b : PvItem) : Prop := (rank a <= rank b)%Z.

#[global] Instance rankLe_dec (a b : PvItem) : Decision (rankLe a b) :=
  Z_le_dec (rank a) (rank b).

(** [Object.keys(mpv).map(k => ({ rank: parseInt(k, 10), uci, [type]: value }))
      .sort((a, b) => a.rank - b.rank)]. *)
Definition multipvOf (m : gmap nat (Score * string)) : list PvItem :=
  merge_sort rankLe
    (List.map (fun e => mkPv (Z.of_nat (fst e)) (snd (snd e)) (fst (snd e)))
       (map_to_list m)).

(** The value the promise is resolved with when [bestmove] arrives. *)
Definition buildResult (st : State) (bestmoveUci : option string) : option Eval :=
  let multipv := multipvOf (mpv st) in
  let best := List.find (fun x => rank x =? 1)%Z multipv in
  let result :=
    match best with
    | Some b => Some (pv_score b)
    | None => currentEval st
    end in
  match result with
  | Some sc => Some (mkEval sc bestmoveUci multipv)
  | None => None
  end.

(** The string branch of the handler. *)
Definition handleLine (l : Line) (st : State) : State :=
  let st1 :=
    match l_multipv l with
    | Some k =>
        match l_pv l, lineScore l with
        | Some u, Some sc =>
            mkState (if (k =? 1)%nat then Some sc else currentEval st)
              (<[k := (sc, u)]> (mpv st)) (resolved st)
        | _, _ => st
        end
    | None => st
    end in
  let st2 :=
    match l_cp l with
    | Some c => mkState (Some (Cp c)) (mpv st1) (resolved st1)
    | None => st1
    end in
  let st3 :=
    match l_mate l with
    | Some m => mkState (Some (Mate m)) (mpv st2) (resolved st2)
    | None => st2
    end in
  match l_bestmove l with
  | Some b => mkState (currentEval st3) (mpv st3) (Some (buildResult st3 (Some b)))
  | None => st3
  end.

(** The handler, while it is registered. *)
Definition handle (m : Msg) (st : State) : State :=
  match resolved st with
  | Some _ => st
  | None =>
      match m with
      | Str l => handleLine l st
      | ObjEval cp mate =>
          mkState (Some (match cp with Some c => Cp c | None => Mate mate end))
            (mpv st) (resolved st)
      | ObjBest b => mkState (currentEval st) (mpv st) (Some (buildResult st b))
      | ObjOther => st
      end
  end.

(** The state after a sequence of messages, and what the promise was
    resolved with, if it was. *)
Definition run (msgs : list Msg) : State := fold_left (fun st m => handle m st) msgs init.

Definition resolveWith (msgs : list Msg) : option (option Eval) := resolved (run msgs).

(** A message that ends the search, and a message that writes the entry of
    rank 1. *)
Definition isBestmove (m : Msg) : bool :=
  match m with
  | Str l => match l_bestmove l with Some _ => true | None => false end
  | ObjBest _ => true
  | _ => false
  end.

Definition writesRank1 (m : Msg) : bool :=
  match m with
  | Str l =>
      match l_multipv l, l_pv l, lineScore l with
      | Some 1%nat, Some _, Some _ => true
      | _, _, _ => false
      end
  | _ => false
  end.

(** A message that carries a score. *)
Definition hasScore (m : Msg) : bool :=
  match m with
  | Str l => match lineScore l with Some _ => true | None => false end
  | ObjEval _ _ => true
  | _ => false
  end.

End Handler.

(** ** More concrete situations *)

Module Cases.

Local Open Scope string_scope.

(** The piece that moves, for the moves that occur below (the annotations
    pass the SAN without its check or mate mark). *)
Definition getMovedPieceType (fen san : string) : option string :=
  if String.eqb san "e4" then Some "p"
  else if String.eqb san "Qh4" then Some "q"
  else if String.eqb san "Bxf7" then Some "b"
  else if String.eqb san "Kg1" then Some "k"
  else None.

(** No capture is possible on the target square of these moves, except on
    f7 after 4. Bxf7+, where the bishop is lost for a pawn. *)
Definition offeredSacrificeLossMagnitude (fen san : string) (side : option string)
  : option Z :=
  if String.eqb san "Bxf7" then Some (-3)%Z else None.
Definition hasOpponentCaptureOnTarget (fen san : string) : bool :=
  String.eqb san "Bxf7".
Definition moverHasImmediateCheckAfterTargetCapture (fen san : string)
    (side : option string) : bool := false.
Definition worstImmediateCaptureLoss (fen san : string) (side : option string)
  : option Z :=
  if String.eqb san "Bxf7" then Some (-3)%Z else None.

(** [moveTag] and [annotations] over these wrappers. *)
Definition tagOf :=
  Annotations.moveTag Scenario.uciToSan getMovedPieceType
    offeredSacrificeLossMagnitude hasOpponentCaptureOnTarget
    moverHasImmediateCheckAfterTargetCapture worstImmediateCaptureLoss.
Definition annotate :=
  Annotations.annotations Scenario.uciToSan getMovedPieceType
    offeredSacrificeLossMagnitude hasOpponentCaptureOnTarget
    moverHasImmediateCheckAfterTargetCapture worstImmediateCaptureLoss.

(** The position before 2... Qh4# and the evaluations around the mate. *)
Definition beforeMateFen : string :=
  "rnbqkbnr/pppp1ppp/8/4p3/6P1/5P2/PPPPP2P/RNBQKBNR b KQkq - 0 2".
Definition mateInOne : Eval := Scenario.evalOf (Mate 1) "d8h4".
Definition mated : Eval := mkEval (Mate 0) None [].

(** The evaluations of the two positions of [Scenario.italianGame] when the
    engine prefers 4. d3, and when it prefers the sacrifice. *)
Definition italianEvals (top : string) : gmap nat (option Eval) :=
  <[0%nat := Some (Scenario.evalOf (Cp 25) top)]>
    (<[1%nat := Some (Scenario.evalOf (Cp 250) "e8f7")]> ∅).

(** The output of a search with two lines, and what a worker might still
    send after [bestmove]. *)
Definition infoLine (k : nat) (cp : Z) (u : string) : Handler.Msg :=
  Handler.Str (Handler.mkLine (Some k) (Some cp) None (Some u) None).

Definition bestLine (u : string) : Handler.Msg :=
  Handler.Str (Handler.mkLine None None None None (Some u)).

Definition readyLine : Handler.Msg :=
  Handler.Str (Handler.mkLine None None None None None).

Definition twoLines : list Handler.Msg :=
  [infoLine 1 30 "e2e4"; infoLine 2 (-12) "d2d4"].

Definition twoLinesEval : Eval :=
  mkEval (Cp 30) (Some "e2e4") [mkPv 1 "e2e4" (Cp 30); mkPv 2 "d2d4" (Cp (-12))].

(** A game record that keeps the moves played, and the Scandinavian
    1. e4 d5 2. exd5 Qxd5. *)
Definition playMove (b : list Captures.Move) (mv : Captures.Move) : list Captures.Move :=
  b ++ [mv].

Definition moveCount (b : list Captures.Move) : string := Js.ofZ (Z.of_nat (length b)).

Definition scandinavian : list Captures.Move :=
  [ Captures.mkMove "e4" "w" None; Captures.mkMove "d5" "b" None;
    Captures.mkMove "exd5" "w" (Some "p"); Captures.mkMove "Qxd5" "b" (Some "p") ].

End Cases.

(** * Properties *)

(** ** The mate sentinel *)

Section MateSentinel.

Import Classifier.

Lemma mateToScore_pos (m : Z) :
  0 < m -> mateToScore m = 100000 - Z.min 99 m * 1000.
Proof.
  intros Hm. unfold mateToScore. cbv zeta.
  rewrite (Z.sgn_pos m Hm), (Z.abs_eq m) by lia. lia.
Qed.

Lemma mateToScore_opp (m : Z) : mateToScore (- m) = - mateToScore m.
Proof.
  unfold mateToScore. cbv zeta. rewrite Z.sgn_opp, Z.abs_opp. lia.
Qed.

Lemma mateToScore_pos_bounds (m : Z) :
  0 < m -> 1000 <= mateToScore m <= 99000.
Proof. intros Hm. rewrite mateToScore_pos by assumption. lia. Qed.

(** C9, as amended. For two mate distances [0 < m1 < m2] the closer mate has
    the strictly larger sentinel, and for the negated distances the strictly
    more negative one, as long as the closer distance is below the cap of 99;
    from 99 on every distance has the same sentinel. *)
Theorem mateToScore_order (m1 m2 : Z) :
  0 < m1 -> m1 < m2 ->
  (m1 < 99 ->
     mateToScore m2 < mateToScore m1 /\ mateToScore (- m1) < mateToScore (- m2))
  /\ (99 <= m1 ->
     mateToScore m2 = mateToScore m1 /\ mateToScore (- m1) = mateToScore (- m2)).
Proof.
  intros H1 H12.
  rewrite !mateToScore_opp, (mateToScore_pos m1), (mateToScore_pos m2) by lia.
  split; intros Hcap; lia.
Qed.

Lemma mateToScore_order_witness :
  (mateToScore 5 < mateToScore 3 /\ mateToScore (- 3) < mateToScore (- 5))
  /\ mateToScore 150 = mateToScore 120.
Proof.
  split.
  - apply (mateToScore_order 3 5); lia.
  - apply (mateToScore_order 120 150); lia.
Defined.

(** C9 as stated fails: mate in 99 and mate in 100 have the same sentinel. *)
Lemma mateToScore_not_strict :
  0 < 99 /\ 99 < 100 /\ ~ (mateToScore 100 < mateToScore 99)
  /\ ~ (mateToScore (- 99) < mateToScore (- 100)).
Proof. vm_compute. repeat split; try reflexivity; intros H; discriminate H. Qed.

End MateSentinel.

(** ** The classifier *)

Section ClassifierFacts.

Import Classifier.

Lemma classify_mate_delta (bestCp playedCp : option Z) (bim : bool) (d : Z) :
  classifyMoveByDelta bestCp playedCp (mkFlags bim (Some d)) = spec_mate_table d.
Proof.
  unfold classifyMoveByDelta, spec_mate_table. cbn [deltaMateForMover].
  repeat match goal with
         | |- context [ (?a <? ?b) ] => destruct (Z.ltb_spec a b)
         | |- context [ (?a <=? ?b) ] => destruct (Z.leb_spec a b)
         | |- context [ (?a =? ?b) ] => destruct (Z.eqb_spec a b)
         end; cbn; try reflexivity; lia.
Qed.

Lemma spec_mate_table_not_blunder (d : Z) : spec_mate_table d <> Blunder.
Proof.
  unfold spec_mate_table.
  repeat match goal with
         | |- context [ if ?c then _ else _ ] => destruct c
         end; discriminate.
Qed.

(** C6. When the evaluation before the move is a mate for the mover
    ([mate m1], [m1 > 0]) and the evaluation after it is still one
    ([mate m2], [m2 <= 0] from the opponent's side), the flag passed by the
    annotations is [d = |m2| - m1], the classifier's answer is a function of
    [d] alone, whatever the scores and the other flag, namely the table
    [d <= 0] Best, [1] Excellent, [2..3] Good, [4..6] Inaccuracy, above
    Mistake, and it is never Blunder. *)
Theorem forced_mate_classified_by_distance
    (m1 m2 : Z) (bestCp playedCp : option Z) (bim : bool) :
  0 < m1 -> m2 <= 0 ->
  let d := Z.abs m2 - m1 in
  annotDeltaMate (Mate m1) (Mate m2) = Some d
  /\ classifyMoveByDelta bestCp playedCp (mkFlags bim (Some d)) = spec_mate_table d
  /\ annotBaseTag (Mate m1) (Mate m2) = spec_mate_table d
  /\ annotBaseTag (Mate m1) (Mate m2) <> Blunder.
Proof.
  intros H1 H2 d.
  assert (Hd : annotDeltaMate (Mate m1) (Mate m2) = Some d).
  { unfold annotDeltaMate, bestMateForMover, playedMateForMover.
    rewrite (Z.sgn_pos m1 H1). cbn.
    destruct (Z.eqb_spec m2 0) as [-> | Hne]; cbn.
    - unfold d. rewrite (Z.abs_eq m1) by lia. reflexivity.
    - rewrite (Z.sgn_neg m2) by lia. cbn.
      unfold d. rewrite (Z.abs_eq m1) by lia. reflexivity. }
  assert (Ht : annotBaseTag (Mate m1) (Mate m2) = spec_mate_table d).
  { unfold annotBaseTag. rewrite Hd. apply classify_mate_delta. }
  repeat split.
  - exact Hd.
  - apply classify_mate_delta.
  - exact Ht.
  - rewrite Ht. apply spec_mate_table_not_blunder.
Qed.

Lemma forced_mate_classified_by_distance_witness :
  annotDeltaMate (Mate 2) (Mate (- 5)) = Some 3
  /\ classifyMoveByDelta (Some 98000) (Some 95000) (mkFlags true (Some 3)) = Good
  /\ annotBaseTag (Mate 2) (Mate (- 5)) = Good
  /\ annotBaseTag (Mate 2) (Mate (- 5)) <> Blunder.
Proof.
  apply (forced_mate_classified_by_distance 2 (- 5) (Some 98000) (Some 95000) true); lia.
Defined.

(** C10. Without a mate-distance flag, a played score more than 10 cp above
    the best score is classified Best, whatever the other inputs are: the
    test comes before the blunder-swing override. *)
Theorem better_than_best_is_best (bestCp playedCp : option Z) (flags : Flags) :
  deltaMateForMover flags = None ->
  orZero bestCp - orZero playedCp < -10 ->
  classifyMoveByDelta bestCp playedCp flags = Best.
Proof.
  intros Hd Hloss. unfold classifyMoveByDelta. rewrite Hd. cbv zeta.
  destruct (Z.ltb_spec (orZero bestCp - orZero playedCp) (-10)); [reflexivity | lia].
Qed.

(** The swing test [bestCp <= -300 && playedCp >= 0] holds at this input. *)
Lemma better_than_best_is_best_witness :
  classifyMoveByDelta (Some (- 300)) (Some 0) noFlags = Best.
Proof.
  apply (better_than_best_is_best (Some (- 300)) (Some 0) noFlags).
  - reflexivity.
  - cbn. lia.
Defined.

(** C5 as stated fails: from +300 to 0 the loss is 300, in the Mistake band
    of the table, and the swing override answers Blunder. Both evaluations
    are centipawn scores, so no mate-distance flag is passed. *)
Lemma loss_table_overridden_by_swing :
  annotDeltaMate (Cp 300) (Cp 0) = None
  /\ 0 <= annotBestCp (Cp 300) - annotPlayedCp (Cp 0)
  /\ annotBestCp (Cp 300) - annotPlayedCp (Cp 0) = 300
  /\ spec_loss_table 300 = Mistake
  /\ annotBaseTag (Cp 300) (Cp 0) = Blunder
  /\ classifyMoveByDelta (Some 300) (Some 0) noFlags = Blunder.
Proof. vm_compute. repeat split; try reflexivity. intros H; discriminate H. Qed.

(** C5, as amended. Without a mate-distance flag and with
    [loss = bestCp - playedCp >= 0], the classifier answers by the loss table
    (<= 10 Best, <= 20 Excellent, <= 50 Good, <= 150 Inaccuracy, <= 300
    Mistake, above Blunder) for every move outside the domain of the two
    overrides, that is unless the mover had a forced mate or at least 300 cp
    and ends at 50 cp or less. *)
Theorem loss_table_outside_overrides (b p : Z) (flags : Flags) :
  deltaMateForMover flags = None ->
  0 <= b - p ->
  ~ ((bestIsMate flags = true \/ 300 <= b) /\ p <= 50) ->
  classifyMoveByDelta (Some b) (Some p) flags = spec_loss_table (b - p).
Proof.
  intros Hd Hloss Hno. unfold classifyMoveByDelta, spec_loss_table.
  rewrite Hd. cbn [orZero]. cbv zeta.
  destruct (Z.ltb_spec (b - p) (-10)); [lia |].
  destruct (Z.ltb_spec 300 (b - p)) as [Hbig | Hsmall]; cbn [orb].
  - repeat match goal with
           | |- context [ (?x <=? ?y) ] => destruct (Z.leb_spec x y); try lia
           end; reflexivity.
  - assert (Hswing : ((300 <=? b) && (p <=? 0)) || ((b <=? -300) && (0 <=? p)) = false).
    { destruct (Z.leb_spec 300 b), (Z.leb_spec p 0), (Z.leb_spec b (-300)),
        (Z.leb_spec 0 p); cbn; try reflexivity; try lia;
        exfalso; apply Hno; (split; [right; lia | lia]). }
    rewrite Hswing.
    assert (Hmiss : (bestIsMate flags || (300 <=? b)) && ((p <=? 50) && (b - p <=? 200)) = false).
    { destruct (bestIsMate flags) eqn:Hb, (Z.leb_spec 300 b), (Z.leb_spec p 50);
        cbn; try reflexivity; try lia;
        exfalso; apply Hno; (split; [auto | lia]). }
    rewrite Hmiss. reflexivity.
Qed.

Lemma loss_table_outside_overrides_witness :
  classifyMoveByDelta (Some 120) (Some 60) noFlags = Inaccuracy.
Proof.
  apply (loss_table_outside_overrides 120 60 noFlags).
  - reflexivity.
  - lia.
  - cbn. intros [[H | H] _]; [discriminate H | lia].
Defined.

(** The Miss branch is dead for every pair of evaluations the annotations
    pass: its test needs [loss <= 200], which a best score of at least 300
    (or a mate sentinel, at least 1000) and a played score of at most 50
    exclude. *)
Lemma annotBaseTag_never_miss (best after : Score) : annotBaseTag best after <> Miss.
Proof.
  unfold annotBaseTag.
  destruct (annotDeltaMate best after) as [d |] eqn:Hd.
  - rewrite classify_mate_delta.
    unfold spec_mate_table.
    repeat match goal with
           | |- context [ if ?c then _ else _ ] => destruct c
           end; discriminate.
  - assert (Hb : annotBestIsMate best = true -> 1000 <= annotBestCp best).
    { destruct best as [c | m]; cbn; [discriminate |].
      intros Hs. apply Z.ltb_lt in Hs.
      assert (0 < m) by (destruct m; cbn in Hs; lia).
      apply mateToScore_pos_bounds. assumption. }
    unfold classifyMoveByDelta. cbn [deltaMateForMover bestIsMate orZero].
    cbv zeta.
    set (b := annotBestCp best) in *. set (p := annotPlayedCp after) in *.
    destruct (annotBestIsMate best) eqn:Hbim;
      [specialize (Hb eq_refl) | clear Hb];
      repeat match goal with
             | |- context [ (?x <? ?y) ] => destruct (Z.ltb_spec x y)
             | |- context [ (?x <=? ?y) ] => destruct (Z.leb_spec x y)
             end; cbn; try discriminate; lia.
Qed.

(** C7 at a failing input: the mover is 300 cp up before the move and 50 cp
    up after it (the opponent's evaluation is -50). The move is not a
    Blunder, the source answers Mistake, and the [isMiss] test of
    [playerStats] counts a miss at the same input. *)
Theorem squandered_advantage_not_miss :
  annotBestCp (Cp 300) = 300
  /\ annotPlayedCp (Cp (- 50)) = 50
  /\ annotBaseTag (Cp 300) (Cp (- 50)) = Mistake
  /\ statsIsMiss (Cp 300) (Cp (- 50)) = true.
Proof. vm_compute. repeat split; reflexivity. Qed.

End ClassifierFacts.

(** ** Engine session *)

Section SessionFacts.

Import Session.

Variable cands : list string.
Variable spawns : string -> bool.

Lemma clearLoadingTimeout_fields (s : State) :
  candidateIndex (clearLoadingTimeout s) = candidateIndex s
  /\ timeoutToken (clearLoadingTimeout s) = timeoutToken s
  /\ workerRef (clearLoadingTimeout s) = workerRef s
  /\ alive (clearLoadingTimeout s) = alive s
  /\ readyCalls (clearLoadingTimeout s) = readyCalls s.
Proof. unfold clearLoadingTimeout. destruct (loadingTimeout s); cbn; auto. Qed.

(** The watchdog callback never touches the candidate index, the worker or
    its liveness. *)
Lemma watchdog_keeps_candidate (h : nat) (s : State) :
  candidateIndex (watchdog h s) = candidateIndex s
  /\ workerRef (watchdog h s) = workerRef s
  /\ alive (watchdog h s) = alive s.
Proof. unfold watchdog. destruct (negb (h =? timeoutToken s)%nat); cbn; auto. Qed.

Lemma existsb_last (x : nat) (l : list nat) : existsb (Nat.eqb x) (l ++ [x]) = true.
Proof.
  rewrite existsb_app. cbn [existsb]. rewrite Nat.eqb_refl. cbn.
  apply orb_true_r.
Qed.

Lemma setupWorker_fields (url : string) (s : State) :
  candidateIndex (setupWorker url s) = candidateIndex s
  /\ workerRef (setupWorker url s) = Some url
  /\ alive (setupWorker url s) = true
  /\ readyCalls (setupWorker url s) = readyCalls s
  /\ existsb (Nat.eqb (timeoutToken (setupWorker url s)))
       (timers (setupWorker url s)) = true.
Proof.
  destruct (clearLoadingTimeout_fields s) as (Hi & _ & _ & _ & Hr).
  unfold setupWorker.
  cbn [candidateIndex workerRef alive readyCalls timeoutToken timers].
  repeat split; try assumption. apply existsb_last.
Qed.

Lemma reportFailed_fields (s : State) :
  candidateIndex (setEngineReady false (clearLoadingTimeout s)) = candidateIndex s
  /\ alive (setEngineReady false (clearLoadingTimeout s)) = alive s
  /\ readyCalls (setEngineReady false (clearLoadingTimeout s)) = readyCalls s ++ [false].
Proof.
  destruct (clearLoadingTimeout_fields s) as (Hi & _ & _ & Ha & Hr).
  unfold setEngineReady. cbn [candidateIndex alive readyCalls].
  rewrite Hr. auto.
Qed.

(** C3, as amended. While the watchdog of the current attempt is pending on
    a live worker: when it fires, not-ready is reported at once and the
    session stays on the same candidate with the same live worker; it is an
    error of the worker (an error event, or a message object of type
    [error]) that advances the candidate index, to the next candidate
    without any report when there is one and it can be created, and with
    the not-ready report and no live worker otherwise. *)
Theorem watchdog_reports_error_advances (s : State) :
  alive s = true ->
  existsb (Nat.eqb (timeoutToken s)) (timers s) = true ->
  (let s' := step cands spawns (TimerFires (timeoutToken s)) s in
   candidateIndex s' = candidateIndex s
   /\ workerRef s' = workerRef s
   /\ alive s' = true
   /\ readyCalls s' = readyCalls s ++ [false])
  /\ (let s' := step cands spawns OnError s in
      candidateIndex s' = S (candidateIndex s)
      /\ match cands !! S (candidateIndex s) with
         | Some url =>
             if spawns url
             then workerRef s' = Some url /\ alive s' = true
                  /\ readyCalls s' = readyCalls s
                  /\ existsb (Nat.eqb (timeoutToken s')) (timers s') = true
             else alive s' = false /\ readyCalls s' = readyCalls s ++ [false]
         | None => alive s' = false /\ readyCalls s' = readyCalls s ++ [false]
         end)
  /\ (forall message : option string,
        step cands spawns (OnMessage (Obj "error" message)) s
        = step cands spawns OnError s).
Proof.
  intros Halive Hpending. split; [| split].
  - cbn [step]. rewrite Hpending. unfold watchdog. cbn [timeoutToken].
    rewrite Nat.eqb_refl. cbn. auto.
  - cbn [step]. rewrite Halive. unfold tryNextCandidate.
    destruct (clearLoadingTimeout_fields (terminateCurrent s)) as (Hi & _ & _ & Ha & Hr).
    cbn [candidateIndex alive readyCalls terminateCurrent] in Hi, Ha, Hr.
    set (s1 := clearLoadingTimeout (terminateCurrent s)) in *.
    set (s2 := mkState (S (candidateIndex s1)) (timeoutToken s1) (loadingTimeout s1)
                 (timers s1) (workerRef s1) (Session.alive s1) (readyCalls s1) (posted s1)).
    assert (H2i : candidateIndex s2 = S (candidateIndex s)) by (cbn; now rewrite Hi).
    assert (H2a : Session.alive s2 = false) by exact Ha.
    assert (H2r : readyCalls s2 = readyCalls s) by exact Hr.
    destruct (reportFailed_fields s2) as (Fi & Fa & Fr).
    rewrite H2i in *. rewrite H2a in Fa. rewrite H2r in Fr.
    destruct (cands !! S (candidateIndex s)) as [url |] eqn:Hurl.
    + assert (Hlt : (S (candidateIndex s) <? length cands)%nat = true).
      { apply Nat.ltb_lt. apply lookup_lt_Some in Hurl. exact Hurl. }
      rewrite Hlt. destruct (spawns url); cbn [snd].
      * destruct (setupWorker_fields url s2) as (Si & Sw & Sa & Sr & St).
        rewrite H2i in Si. rewrite H2r in Sr. auto.
      * auto.
    + destruct (S (candidateIndex s) <? length cands)%nat; cbn [snd]; auto.
  - intros message. cbn [step]. rewrite Halive. reflexivity.
Qed.

End SessionFacts.

Lemma watchdog_reports_error_advances_witness :
  let s := Session.start Scenario.twoCandidates Scenario.allSpawn in
  Session.candidateIndex
    (Session.step Scenario.twoCandidates Scenario.allSpawn
       (Session.TimerFires (Session.timeoutToken s)) s) = 0%nat
  /\ Session.candidateIndex
       (Session.step Scenario.twoCandidates Scenario.allSpawn Session.OnError s) = 1%nat.
Proof.
  set (s := Session.start Scenario.twoCandidates Scenario.allSpawn).
  destruct (watchdog_reports_error_advances Scenario.twoCandidates Scenario.allSpawn s)
    as [(Hi & _) [(Hj & _) _]]; [reflexivity | reflexivity |].
  split; [exact Hi | exact Hj].
Defined.

(** C3 as stated fails. With two candidates that both load, the watchdog of
    the first one fires before any readiness signal: not-ready is reported
    while the session is still on candidate 0, the second candidate was
    never created, and no later timer changes that. With the candidate list
    of the source the watchdog likewise reports without [tryNextCandidate]
    running: the index stays 0 and the worker is not terminated. *)
Lemma watchdog_does_not_advance :
  let s := Session.run Scenario.twoCandidates Scenario.allSpawn
             [Session.TimerFires 1%nat] in
  Session.readyCalls s = [false]
  /\ Session.candidateIndex s = 0%nat
  /\ Session.workerRef s = Some "/stockfish/stockfish-17.1-8e4d048.js"%string
  /\ Session.timers s = []
  /\ (1 < length Scenario.twoCandidates)%nat
  /\ (let s0 := Session.run Session.candidates Scenario.allSpawn
                  [Session.TimerFires 1%nat] in
      Session.readyCalls s0 = [false]
      /\ Session.candidateIndex s0 = 0%nat
      /\ Session.alive s0 = true).
Proof. vm_compute. repeat split; reflexivity. Qed.

(** ** Evaluation channel and cache *)

Section ChannelFacts.

Import Channel.

Variable Board : Type.
Variable chessLoad : string -> option Board.
Variable isCheckmate : Board -> bool.
Variable isStalemate : Board -> bool.
Variable engine : list string -> option Eval.

Local Abbreviation analyzeOnce :=
  (analyzeFenOnce Board chessLoad isCheckmate isStalemate engine).
Local Abbreviation terminalEval := (getTerminalEval Board chessLoad isCheckmate isStalemate).

(** A cache hit answers without posting anything and leaves the world as it
    is. *)
Lemma cache_hit_skips_engine (fen : string) (a : OptsArg) (mpv : option Z)
    (w : World) (hit : Eval) :
  workerPresent w = true ->
  terminalEval fen = None ->
  (let '(depth, multiPV, movetime) := resolveOpts a mpv in
   cache w !! cacheKey fen movetime depth multiPV = Some hit) ->
  analyzeOnce fen a mpv w = (Some hit, w).
Proof.
  intros Hw Ht Hc. unfold analyzeFenOnce. rewrite Hw, Ht. cbn [negb].
  destruct (resolveOpts a mpv) as [[depth multiPV] movetime].
  rewrite Hc. reflexivity.
Qed.

(** A miss posts the search and resolves with the engine's answer; the cache
    is not written. *)
Lemma cache_miss_not_stored (fen : string) (a : OptsArg) (mpv : option Z) (w : World) :
  workerPresent w = true ->
  terminalEval fen = None ->
  (let '(depth, multiPV, movetime) := resolveOpts a mpv in
   cache w !! cacheKey fen movetime depth multiPV = None) ->
  cache (snd (analyzeOnce fen a mpv w)) = cache w
  /\ (let '(depth, multiPV, movetime) := resolveOpts a mpv in
      sent (snd (analyzeOnce fen a mpv w))
      = sent w ++ searchCommands fen movetime depth multiPV).
Proof.
  intros Hw Ht Hc. unfold analyzeFenOnce. rewrite Hw, Ht. cbn [negb].
  destruct (resolveOpts a mpv) as [[depth multiPV] movetime].
  rewrite Hc. cbn. auto.
Qed.

(** Without a worker nothing is posted and the promise resolves with null. *)
Lemma no_worker_no_answer (fen : string) (a : OptsArg) (mpv : option Z) (w : World) :
  workerPresent w = false -> analyzeOnce fen a mpv w = (None, w).
Proof. intros Hw. unfold analyzeFenOnce. rewrite Hw. reflexivity. Qed.

(** The key the first loop of [analyzeAll] writes is the key [analyzeFenOnce]
    reads for the same options, so a result of the first pass is found by a
    later request with these options. *)
Lemma fastBody_then_hit (depth : Z) (o : AllOpts) (i : nat) (fen : string)
    (next : gmap nat Eval) (w : World) (e : Eval) :
  let opts :=
    if fastFirstPass o
    then mkOpts (Some (Z.min depth 12)) (Some (movetime o)) (Some (multiPV o))
    else mkOpts (Some depth) None (Some 5) in
  workerPresent w = true ->
  terminalEval fen = None ->
  fst (analyzeOnce fen (ByObject opts) None w) = Some e ->
  let s' := fastBody Board chessLoad isCheckmate isStalemate engine depth o i fen (next, w) in
  fst s' !! i = Some e
  /\ analyzeOnce fen (ByObject opts) None (snd s') = (Some e, snd s').
Proof.
  intros opts Hw Ht He. unfold fastBody. fold opts.
  destruct (analyzeOnce fen (ByObject opts) None w) as [ev w1] eqn:Hcall.
  cbn [fst] in He. subst ev. cbn [fst snd].
  assert (Hw1 : workerPresent w1 = true).
  { revert Hcall. unfold analyzeFenOnce. rewrite Hw, Ht. cbn [negb].
    destruct (resolveOpts (ByObject opts) None) as [[d m] mt].
    destruct (cache w !! cacheKey fen mt d m); intros [= _ <-]; assumption. }
  split; [apply lookup_insert_eq |].
  apply cache_hit_skips_engine; [exact Hw1 | exact Ht |].
  subst opts. destruct (fastFirstPass o); cbn; apply lookup_insert_eq.
Qed.

(** C8. With a worker in place, a position that chess.js reports as
    checkmate or stalemate is answered at once: nothing is posted to the
    engine, and the evaluation is mate 0 for a checkmate and 0 centipawns
    for a stalemate, with no best move and no lines. *)
Theorem terminal_position_short_circuit
    (fen : string) (g : Board) (a : OptsArg) (mpv : option Z) (w : World) :
  workerPresent w = true ->
  chessLoad fen = Some g ->
  isCheckmate g || isStalemate g = true ->
  sent (snd (analyzeOnce fen a mpv w)) = sent w
  /\ fst (analyzeOnce fen a mpv w)
     = Some (mkEval (if isCheckmate g then Mate 0 else Cp 0) None []).
Proof.
  intros Hw Hg Hterm. unfold analyzeFenOnce, getTerminalEval.
  rewrite Hw, Hg. cbn [negb].
  destruct (resolveOpts a mpv) as [[depth multiPV] movetime].
  destruct (isCheckmate g); cbn.
  - auto.
  - cbn in Hterm. rewrite Hterm. cbn. auto.
Qed.

End ChannelFacts.

Lemma terminal_position_short_circuit_witness :
  (let r := Scenario.once "d2d3" Scenario.foolsMateFen (Channel.ByDepth (Some 18)) None
              Scenario.readyWorld in
   Channel.sent (snd r) = [] /\ fst r = Some (mkEval (Mate 0) None []))
  /\ (let r := Scenario.once "d2d3" Scenario.stalemateFen (Channel.ByDepth None) None
                 Scenario.readyWorld in
      Channel.sent (snd r) = [] /\ fst r = Some (mkEval (Cp 0) None [])).
Proof.
  split.
  - apply (terminal_position_short_circuit string Scenario.chessLoad
             Scenario.isCheckmate Scenario.isStalemate (Scenario.engine "d2d3")
             Scenario.foolsMateFen Scenario.foolsMateFen
             (Channel.ByDepth (Some 18)) None Scenario.readyWorld);
      reflexivity.
  - apply (terminal_position_short_circuit string Scenario.chessLoad
             Scenario.isCheckmate Scenario.isStalemate (Scenario.engine "d2d3")
             Scenario.stalemateFen Scenario.stalemateFen
             (Channel.ByDepth None) None Scenario.readyWorld);
      reflexivity.
Defined.

(** C1 at a failing input. The start position is requested twice with depth
    18, as [requestAnalyzeCurrent] does: the first request leaves the cache
    empty and the engine is asked to search twice. The same happens through
    the Quick analysis of a game run twice: the two searches of the first
    pass are served from the cache the second time, and the depth-18 search
    of the verification pass, which goes through [analyzeFenOnce] alone, is
    sent to the engine again. *)
Theorem repeated_request_searches_twice :
  (let once := Scenario.once "d2d3" Scenario.startFen (Channel.ByDepth (Some 18)) None in
   let r1 := once Scenario.readyWorld in
   let r2 := once (snd r1) in
   fst r1 = Some (Scenario.evalOf (Cp 20) "e2e4")
   /\ Channel.cache (snd r1) = ∅
   /\ Channel.searchCount (Channel.sent (snd r1)) = 1%nat
   /\ Channel.searchCount (Channel.sent (snd r2)) = 2%nat)
  /\ (let quick := Scenario.analyze "d2d3" 12 Scenario.italianGame Scenario.quickOpts in
      let w1 := quick Scenario.readyWorld in
      let w2 := quick w1 in
      Channel.countMsg "go movetime 80" (Channel.sent w1) = 2%nat
      /\ Channel.countMsg "go movetime 80" (Channel.sent w2) = 2%nat
      /\ Channel.countMsg "go depth 18" (Channel.sent w1) = 1%nat
      /\ Channel.countMsg "go depth 18" (Channel.sent w2) = 2%nat).
Proof. vm_compute. repeat split; reflexivity. Qed.

(** ** Analysis scheduler *)

Section LoopFacts.

Import Channel Observe.

Context {S : Type}.
Variable body : nat -> string -> S -> S.

Lemma forEachFrom_app (l1 l2 : list string) :
  forall (i : nat) (s : S),
    forEachFrom body i (l1 ++ l2) s
    = forEachFrom body (i + length l1) l2 (forEachFrom body i l1 s).
Proof.
  induction l1 as [| x l1 IH]; intros i s; cbn.
  - rewrite Nat.add_0_r. reflexivity.
  - rewrite IH. rewrite Nat.add_succ_r. reflexivity.
Qed.

(** The loop reaches index [k] in the state [loopAt] gives, runs the body
    there and goes on with the rest. *)
Lemma forEachFrom_split (l : list string) (k : nat) (x : string) (s : S) :
  l !! k = Some x ->
  forEachFrom body 0 l s
  = forEachFrom body (Datatypes.S k) (drop (Datatypes.S k) l) (body k x (loopAt body l s k)).
Proof.
  intros Hk. unfold loopAt.
  rewrite <- (take_drop_middle l k x Hk) at 1.
  rewrite forEachFrom_app. cbn.
  rewrite length_take_le by (apply lookup_lt_Some in Hk; lia).
  reflexivity.
Qed.

End LoopFacts.

Section MapLoopFacts.

Import Channel Observe.

Context {V W : Type}.
Variable body : nat -> string -> gmap nat V * W -> gmap nat V * W.
Variable k : nat.

(** Every iteration writes at most its own index. *)
Hypothesis body_frame :
  forall (j : nat) (x : string) (s : gmap nat V * W),
    j <> k -> fst (body j x s) !! k = fst s !! k.

Lemma forEachFrom_frame (l : list string) :
  forall (i : nat) (s : gmap nat V * W),
    (k < i \/ i + length l <= k)%nat ->
    fst (forEachFrom body i l s) !! k = fst s !! k.
Proof.
  induction l as [| x l IH]; intros i s Hk; cbn.
  - reflexivity.
  - rewrite IH by (cbn in Hk; lia).
    apply body_frame. cbn in Hk. lia.
Qed.

Lemma loopAt_frame (l : list string) (s : gmap nat V * W) :
  fst (loopAt body l s k) !! k = fst s !! k.
Proof.
  unfold loopAt. apply forEachFrom_frame. right.
  rewrite length_take. lia.
Qed.

Lemma forEachFrom_at (l : list string) (x : string) (s : gmap nat V * W) :
  l !! k = Some x ->
  fst (forEachFrom body 0 l s) !! k = fst (body k x (loopAt body l s k)) !! k.
Proof.
  intros Hk. rewrite (forEachFrom_split body l k x s Hk).
  apply forEachFrom_frame. left. lia.
Qed.

Lemma forEachFrom_beyond (l : list string) (s : gmap nat V * W) :
  l !! k = None ->
  fst (forEachFrom body 0 l s) !! k = fst s !! k.
Proof.
  intros Hk. apply forEachFrom_frame. right.
  apply lookup_ge_None_1 in Hk. lia.
Qed.

End MapLoopFacts.

Section SchedulerFacts.

Import Channel Observe.

Variable Board : Type.
Variable chessLoad : string -> option Board.
Variable isCheckmate : Board -> bool.
Variable isStalemate : Board -> bool.
Variable engine : list string -> option Eval.
Variable getMovedPieceType : string -> string -> option string.
Variable offeredSacrificeLossMagnitude : string -> string -> option string -> option Z.
Variable uciToSan : string -> string -> option string.
Variable sans : list string.

Local Abbreviation strictOffer :=
  (isStrictPieceSacrificeOffer getMovedPieceType offeredSacrificeLossMagnitude).
Local Abbreviation analyzeOnce :=
  (analyzeFenOnce Board chessLoad isCheckmate isStalemate engine).
Local Abbreviation fastLoopBody :=
  (fastBody Board chessLoad isCheckmate isStalemate engine).
Local Abbreviation stableLoopBody :=
  (stableBody Board chessLoad isCheckmate isStalemate engine).
Local Abbreviation deepLoopBody :=
  (deepBody Board chessLoad isCheckmate isStalemate engine
     getMovedPieceType offeredSacrificeLossMagnitude uciToSan sans).
Local Abbreviation runFast :=
  (fastPass Board chessLoad isCheckmate isStalemate engine).
Local Abbreviation runStable :=
  (stablePass Board chessLoad isCheckmate isStalemate engine).
Local Abbreviation runDeep :=
  (deepPass Board chessLoad isCheckmate isStalemate engine
     getMovedPieceType offeredSacrificeLossMagnitude uciToSan sans).

Lemma stableBody_frame (o : AllOpts) (next : gmap nat Eval) (k j : nat) (x : string)
    (s : gmap nat (option Eval) * World) :
  j <> k -> fst (stableLoopBody o next j x s) !! k = fst s !! k.
Proof.
  intros Hjk. unfold stableBody. destruct s as [fe w].
  destruct (analyzeOnce x (stableOpts o) None w) as [[e |] w1]; cbn;
    apply lookup_insert_ne; assumption.
Qed.

Lemma deepBody_frame (depth : Z) (o : AllOpts) (k j : nat) (x : string)
    (s : gmap nat (option Eval) * World) :
  j <> k -> fst (deepLoopBody depth o j x s) !! k = fst s !! k.
Proof.
  intros Hjk. unfold deepBody. destruct s as [fe w].
  repeat match goal with
         | |- context [ match ?c with Some _ => _ | None => _ end ] =>
             destruct c; try reflexivity
         | |- context [ if ?c then _ else _ ] => destruct c; try reflexivity
         | |- context [ let '(_, _) := ?c in _ ] => destruct c
         end; cbn; try reflexivity;
    apply lookup_insert_ne; assumption.
Qed.

(** What the stable pass leaves at index [k]. *)
Lemma stablePass_at (fenList : list string) (o : AllOpts) (next : gmap nat Eval)
    (w1 : World) (k : nat) (fen : string) :
  stableFinalPass o = true ->
  fenList !! k = Some fen ->
  let before :=
    loopAt (stableLoopBody o next) fenList
      (∅, post (prepCommands (stableMultiPV o)) w1) k in
  fst (runStable fenList o (next, w1)) !! k
  = Some (match fst (analyzeOnce fen (stableOpts o) None (snd before)) with
          | Some e2 => Some e2
          | None => next !! k
          end).
Proof.
  intros Hst Hk before. unfold stablePass. rewrite Hst.
  rewrite (forEachFrom_at (stableLoopBody o next) k
             (fun j x s Hj => stableBody_frame o next k j x s Hj) fenList fen _ Hk).
  fold before. unfold stableBody. destruct before as [fe wk]. cbn [snd].
  destruct (analyzeOnce fen (stableOpts o) None wk) as [[e |] w']; cbn;
    apply lookup_insert_eq.
Qed.

(** What the verification pass leaves at index [k] when it reaches it. *)
Lemma deepPass_at (depth : Z) (fenList : list string) (o : AllOpts)
    (s2 : gmap nat (option Eval) * World) (k : nat) (fen : string) :
  fenList !! k = Some fen ->
  (Datatypes.S k < length fenList)%nat ->
  let before := loopAt (deepLoopBody depth o) (take (length fenList - 1) fenList) s2 k in
  fst before !! k = fst s2 !! k
  /\ fst (runDeep depth fenList o s2) !! k = fst (deepLoopBody depth o k fen before) !! k.
Proof.
  intros Hk Hlt before. split.
  - apply loopAt_frame. intros j x s Hj. apply deepBody_frame. exact Hj.
  - unfold deepPass.
    apply (forEachFrom_at (deepLoopBody depth o) k
             (fun j x s Hj => deepBody_frame depth o k j x s Hj)).
    rewrite lookup_take_lt by lia. exact Hk.
Qed.

Lemma deepPass_last (depth : Z) (fenList : list string) (o : AllOpts)
    (s2 : gmap nat (option Eval) * World) (k : nat) :
  (length fenList <= Datatypes.S k)%nat ->
  fst (runDeep depth fenList o s2) !! k = fst s2 !! k.
Proof.
  intros Hge. unfold deepPass.
  apply (forEachFrom_beyond (deepLoopBody depth o) k
           (fun j x s Hj => deepBody_frame depth o k j x s Hj)).
  apply lookup_take_ge. lia.
Qed.

(** C4, as amended. For a position [k] of the list:
    - after the stable pass the recorded evaluation is the one the stable
      search returned for [k], and the fast-pass one (or null) only when
      that search returned nothing;
    - after the verification pass the recorded evaluation is either the one
      recorded before it, or a deeper result whose first move is the played
      move;
    - when the verification pass searches [k] and gets a result, that
      result is recorded if its first move is the played move, and otherwise
      the evaluation recorded before stays. *)
Theorem later_pass_supersedes (depth : Z) (fenList : list string) (o : AllOpts)
    (w : World) (k : nat) (fen : string) :
  fenList !! k = Some fen ->
  let s1 := runFast depth fenList o w in
  let s2 := runStable fenList o s1 in
  let s3 := runDeep depth fenList o s2 in
  (stableFinalPass o = true ->
   let before :=
     loopAt (stableLoopBody o (fst s1)) fenList
       (∅, post (prepCommands (stableMultiPV o)) (snd s1)) k in
   fst s2 !! k
   = Some (match fst (analyzeOnce fen (stableOpts o) None (snd before)) with
           | Some e2 => Some e2
           | None => fst s1 !! k
           end))
  /\ (let before :=
        loopAt (deepLoopBody depth o) (take (length fenList - 1) fenList) s2 k in
      let evDeep := fst (analyzeOnce fen (deepOpts depth o) None (snd before)) in
      (fst s3 !! k = fst s2 !! k
       \/ exists (e : Eval) (playedSan : string),
            evDeep = Some e
            /\ Js.truthy (sans !! k) = Some playedSan
            /\ sameMove (topSan uciToSan fen e) playedSan = true
            /\ fst s3 !! k = Some (Some e))
      /\ (forall (cur e : Eval) (playedSan : string),
            (Datatypes.S k < length fenList)%nat ->
            fen <> ""%string ->
            fst s2 !! k = Some (Some cur) ->
            Js.truthy (sans !! k) = Some playedSan ->
            strictOffer fen playedSan (Js.field1 fen) = true ->
            sameMove (topSan uciToSan fen cur) playedSan = false ->
            evDeep = Some e ->
            fst s3 !! k
            = Some (Some (if sameMove (topSan uciToSan fen e) playedSan
                          then e else cur)))).
Proof.
  intros Hk s1 s2 s3. split.
  - intros Hst before. subst s2. destruct s1 as [next w1]. cbn [fst snd] in *.
    apply stablePass_at; assumption.
  - intros before evDeep.
    destruct (Nat.lt_ge_cases (Datatypes.S k) (length fenList)) as [Hlt | Hge].
    + destruct (deepPass_at depth fenList o s2 k fen Hk Hlt) as [Hpre Hat].
      fold before in Hpre, Hat. fold s3 in Hat.
      assert (Hfen : forall c : ascii, forall r : string,
                 Js.truthy (Some (String c r)) = Some (String c r)) by reflexivity.
      split.
      * rewrite Hat, <- Hpre. unfold deepBody.
        destruct before as [fe wk]. cbn [fst snd] in *. subst evDeep.
        destruct (Js.truthy (Some fen)); [| left; reflexivity].
        destruct (fe !! k) as [[cur |] |] eqn:Hfe; try (left; exact Hfe).
        destruct (Js.truthy (sans !! k)) as [playedSan |]; [| left; exact Hfe].
        destruct (negb _); [left; exact Hfe |].
        destruct (sameMove (topSan uciToSan fen cur) playedSan); [left; exact Hfe |].
        destruct (analyzeOnce fen (deepOpts depth o) None wk) as [[e |] w'];
          cbn [fst]; [| left; exact Hfe].
        destruct (sameMove (topSan uciToSan fen e) playedSan) eqn:Hsame;
          [| left; exact Hfe].
        right. exists e, playedSan. cbn [fst].
        repeat split; try assumption. apply lookup_insert_eq.
      * intros cur e playedSan _ Hne Hcur Hsan Hsac Hnot Hdeep.
        rewrite Hat. rewrite <- Hpre in Hcur. unfold deepBody.
        destruct before as [fe wk]. cbn [fst snd] in *. subst evDeep.
        destruct fen as [| c r]; [congruence |]. rewrite Hfen.
        rewrite Hcur, Hsan, Hsac, Hnot. cbn [negb].
        destruct (analyzeOnce (String c r) (deepOpts depth o) None wk) as [ev w'].
        cbn [fst] in Hdeep. subst ev.
        destruct (sameMove (topSan uciToSan (String c r) e) playedSan); cbn [fst].
        -- apply lookup_insert_eq.
        -- exact Hcur.
    + split.
      * left. apply deepPass_last. exact Hge.
      * intros cur e playedSan Hlt. lia.
Qed.

End SchedulerFacts.

Lemma later_pass_supersedes_witness :
  let s1 := Scenario.fast "c4f7" 15 Scenario.italianGame Channel.defaultAllOpts
              Scenario.readyWorld in
  let s2 := Scenario.stable "c4f7" Scenario.italianGame Channel.defaultAllOpts s1 in
  let s3 := Scenario.deep "c4f7" 15 Scenario.italianGame Channel.defaultAllOpts s2 in
  fst s1 !! 0%nat = Some (Scenario.evalOf (Cp 30) "d2d3")
  /\ fst s2 !! 0%nat = Some (Some (Scenario.evalOf (Cp 25) "d2d3"))
  /\ fst s3 !! 0%nat = Some (Some (Scenario.evalOf (Cp 28) "c4f7"))
  /\ Channel.evals
       (Scenario.analyze "c4f7" 15 Scenario.italianGame Channel.defaultAllOpts
          Scenario.readyWorld) !! 0%nat
     = Some (Some (Scenario.evalOf (Cp 28) "c4f7")).
Proof.
  intros s1 s2 s3.
  unfold Scenario.fast in s1. unfold Scenario.stable in s2.
  unfold Scenario.deep in s3. unfold Scenario.analyze.
  destruct (later_pass_supersedes string Scenario.chessLoad Scenario.isCheckmate
              Scenario.isStalemate (Scenario.engine "c4f7")
              Scenario.getMovedPieceType Scenario.offeredSacrificeLossMagnitude
              Scenario.uciToSan Scenario.italianSans 15 Scenario.italianGame
              Channel.defaultAllOpts Scenario.readyWorld 0%nat Scenario.italianFen
              eq_refl)
    as [Hstable [_ Hdeep]].
  fold s1 in Hstable, Hdeep. fold s2 in Hstable, Hdeep. fold s3 in Hdeep.
  assert (H2 : fst s2 !! 0%nat = Some (Some (Scenario.evalOf (Cp 25) "d2d3"))).
  { rewrite (Hstable eq_refl). vm_compute. reflexivity. }
  assert (H3 : fst s3 !! 0%nat = Some (Some (Scenario.evalOf (Cp 28) "c4f7"))).
  { rewrite (Hdeep (Scenario.evalOf (Cp 25) "d2d3") (Scenario.evalOf (Cp 28) "c4f7")
               "Bxf7+"%string).
    - vm_compute. reflexivity.
    - cbn. lia.
    - discriminate.
    - exact H2.
    - reflexivity.
    - reflexivity.
    - vm_compute. reflexivity.
    - vm_compute. reflexivity. }
  split; [| split; [| split]].
  - vm_compute. reflexivity.
  - exact H2.
  - exact H3.
  - vm_compute. reflexivity.
Defined.

(** C4 as stated fails for the verification pass. In the Italian position the
    played 4. Bxf7+ is a sacrifice offer and not the engine's first move, so
    the position is searched again at depth 18. That search returns an
    evaluation, its first move is still d3, and the evaluation recorded for
    the position after the run is the one of the stable pass. *)
Lemma deeper_result_not_recorded :
  let s2 := Scenario.stable "d2d3" Scenario.italianGame Channel.defaultAllOpts
              (Scenario.fast "d2d3" 15 Scenario.italianGame Channel.defaultAllOpts
                 Scenario.readyWorld) in
  let deep := Scenario.once "d2d3" Scenario.italianFen
                (Channel.deepOpts 15 Channel.defaultAllOpts) None (snd s2) in
  let run := Scenario.analyze "d2d3" 15 Scenario.italianGame Channel.defaultAllOpts
               Scenario.readyWorld in
  Channel.isStrictPieceSacrificeOffer Scenario.getMovedPieceType
    Scenario.offeredSacrificeLossMagnitude Scenario.italianFen "Bxf7+" (Some "w"%string)
  = true
  /\ fst deep = Some (Scenario.evalOf (Cp 28) "d2d3")
  /\ Channel.sent run = Channel.sent (snd deep)
  /\ List.last (Channel.sent run) ""%string = "go depth 18"%string
  /\ fst s2 !! 0%nat = Some (Some (Scenario.evalOf (Cp 25) "d2d3"))
  /\ Channel.evals run !! 0%nat = Some (Some (Scenario.evalOf (Cp 25) "d2d3"))
  /\ Channel.evals run !! 0%nat <> Some (fst deep).
Proof. vm_compute. repeat split; try reflexivity. intros H; discriminate H. Qed.

(** ** Per-move accuracy *)

Section AccuracyFacts.

Import Classifier Accuracy.
Local Open Scope R_scope.

Variable uciToSan : string -> string -> option string.
Variable captureKeepsMaterial : string -> option string -> option string -> bool.

Local Abbreviation accuracyOf := (moveAccuracy uciToSan captureKeepsMaterial).

Lemma clamp_100 : Rmax 0 (Rmin 100 100) = 100.
Proof.
  rewrite Rmin_left by lra. apply Rmax_right. lra.
Qed.

Lemma clamp_below (x : R) : x < 100 -> Rmax 0 (Rmin 100 x) < 100.
Proof.
  intros Hx. rewrite Rmin_right by lra.
  apply Rmax_lub_lt; lra.
Qed.

Lemma jsPow_pos (x : Z) (y : R) : (0 < x)%Z -> 0 < jsPow x y.
Proof.
  intros Hx. unfold jsPow.
  destruct (Z.eqb_spec x 0) as [-> | _]; [lia |].
  unfold Rpower. apply exp_pos.
Qed.

Lemma baseAcc_bounds (loss : Z) : (0 < loss)%Z -> 0 <= baseAcc loss < 100.
Proof.
  intros Hl. unfold baseAcc. pose proof (jsPow_pos loss 0.88 Hl) as Hp.
  split.
  - apply Rmax_l.
  - apply Rmax_lub_lt; lra.
Qed.

Lemma exp_nonpos_le_1 (y : R) : y <= 0 -> 0 < exp y <= 1.
Proof.
  intros Hy. split; [apply exp_pos |].
  destruct Hy as [Hlt | ->].
  - left. rewrite <- exp_0. apply exp_increasing. exact Hlt.
  - rewrite exp_0. lra.
Qed.

Lemma eqFactor_bounds (bestCp : Z) : 0 < eqFactor bestCp <= 1.
Proof.
  unfold eqFactor. cbv zeta.
  set (x := IZR (Z.min (Z.abs bestCp) 200) / 120).
  assert (Hx : - (x * x) <= 0) by (pose proof (Rle_0_sqr x) as H; unfold Rsqr in H; lra).
  destruct (exp_nonpos_le_1 _ Hx). lra.
Qed.

(** The decay curve stays below 100 as soon as there is a loss. *)
Lemma curveAccuracy_below_100 (fen : string) (best after : Eval) (playedSan : option string) :
  (0 < cpLoss (score best) (score after))%Z ->
  curveAccuracy captureKeepsMaterial fen best after playedSan < 100.
Proof.
  intros Hl. unfold curveAccuracy. cbv zeta.
  destruct (baseAcc_bounds _ Hl) as [Hb0 Hb1].
  destruct (eqFactor_bounds (annotBestCp (score best))) as [He0 He1].
  assert (Hprod : baseAcc (cpLoss (score best) (score after))
                  * eqFactor (annotBestCp (score best)) < 100) by nra.
  destruct (_ && _); [apply Rmax_lub_lt; lra | exact Hprod].
Qed.

(** A loss of 1000 is past the end of the curve: [1000 ^ 0.88 >= 223], so
    [100 - 0.45 * 1000 ^ 0.88] is negative and the base accuracy is 0. *)
Lemma Rpower_1000_088 : 223 <= Rpower 1000 0.88.
Proof.
  apply Rle_trans with (Rpower 1000 0.8).
  - destruct (Rle_lt_dec 223 (Rpower 1000 0.8)) as [H | H]; [exact H | exfalso].
    assert (Hpos : 0 < Rpower 1000 0.8) by (unfold Rpower; apply exp_pos).
    assert (H5 : Rpower (Rpower 1000 0.8) 5 = 1000 ^ 4).
    { rewrite Rpower_mult. replace (0.8 * 5) with (INR 4) by (simpl; lra).
      apply Rpower_pow. lra. }
    assert (H5' : Rpower (Rpower 1000 0.8) 5 = Rpower 1000 0.8 ^ 5).
    { replace 5 with (INR 5) by (simpl; lra). apply Rpower_pow. exact Hpos. }
    rewrite H5' in H5.
    assert (Hle : Rpower 1000 0.8 ^ 5 <= 223 ^ 5) by (apply pow_incr; lra).
    rewrite H5 in Hle. lra.
  - apply Rle_Rpower; lra.
Qed.

Lemma baseAcc_1000 : baseAcc 1000 = 0.
Proof.
  unfold baseAcc, jsPow. cbn [Z.eqb].
  pose proof Rpower_1000_088 as H.
  apply Rmax_left. lra.
Qed.

(** C2, as amended. For a move with both adjacent evaluations whose SAN is
    the SAN of the engine's first line ([pv1San]), the accuracy is exactly
    100, unless the evaluations say the move brings a mate against the mover
    closer. *)
Theorem top_line_move_is_perfect
    (fen : string) (best after : Eval) (playedSan : option string) :
  sameSan (pv1San uciToSan fen best) playedSan = true ->
  acceleratesMateAgainst (score best) (score after) = false ->
  accuracyOf fen best after playedSan = 100.
Proof.
  intros Hsan Hacc. unfold moveAccuracy, forcedPerfect.
  rewrite Hsan, Hacc. cbn. apply clamp_100.
Qed.

End AccuracyFacts.

Lemma top_line_move_is_perfect_witness :
  Accuracy.moveAccuracy Scenario.uciToSan Scenario.noCapture
    "rnbqkbnr/pppp1ppp/8/4p3/6P1/5P2/PPPPP2P/RNBQKBNR b KQkq - 0 2"
    (Scenario.evalOf (Mate 1) "d8h4") (mkEval (Mate 0) None [])
    (Some "Qh4#"%string)
  = 100%R.
Proof.
  apply (top_line_move_is_perfect Scenario.uciToSan Scenario.noCapture);
    reflexivity.
Defined.

(** C2 as stated fails. Before the move the engine reports mate in 3 against
    the mover with 1. Kg1 as its first line; 1. Kg1 is played; the search
    after it reports mate in 2 for the opponent. The SAN match is undone by
    the mate-acceleration guard, the loss is 1000 on the sentinel scale, and
    the accuracy comes from the decay curve: it is 0. *)
Lemma top_line_move_not_perfect :
  Accuracy.sameSan
    (Accuracy.pv1San Scenario.uciToSan Scenario.losingFen Scenario.matedIn3)
    (Some "Kg1"%string) = true
  /\ Accuracy.cpLoss (score Scenario.matedIn3) (score Scenario.mateIn2) = 1000
  /\ Accuracy.moveAccuracy Scenario.uciToSan Scenario.noCapture Scenario.losingFen
       Scenario.matedIn3 Scenario.mateIn2 (Some "Kg1"%string) = 0%R
  /\ Accuracy.moveAccuracy Scenario.uciToSan Scenario.noCapture Scenario.losingFen
       Scenario.matedIn3 Scenario.mateIn2 (Some "Kg1"%string) <> 100%R.
Proof.
  split; [reflexivity | split; [reflexivity |]].
  assert (Hfp : Accuracy.forcedPerfect Scenario.uciToSan Scenario.losingFen
                  Scenario.matedIn3 Scenario.mateIn2 (Some "Kg1"%string) = false)
    by reflexivity.
  assert (Hzero : Accuracy.moveAccuracy Scenario.uciToSan Scenario.noCapture
                    Scenario.losingFen Scenario.matedIn3 Scenario.mateIn2
                    (Some "Kg1"%string) = 0%R).
  { unfold Accuracy.moveAccuracy. rewrite Hfp.
    cbn [score Scenario.mateIn2 Scenario.matedIn3 Scenario.evalOf
         Classifier.annotBestIsMate].
    change (0 <? Z.sgn (-3)) with false. cbv iota.
    unfold Accuracy.curveAccuracy, Scenario.noCapture. cbn [andb].
    change (Accuracy.cpLoss (score Scenario.matedIn3) (score Scenario.mateIn2))
      with 1000.
    rewrite baseAcc_1000, Rmult_0_l.
    rewrite Rmin_right by lra. apply Rmax_left. lra. }
  split; [exact Hzero |].
  rewrite Hzero. lra.
Qed.

(** ** Annotations *)

Section AnnotationFacts.

Import Classifier Annotations.

Variable uciToSan : string -> string -> option string.
Variable getMovedPieceType : string -> string -> option string.
Variable offeredSacrificeLossMagnitude : string -> string -> option string -> option Z.
Variable hasOpponentCaptureOnTarget : string -> string -> bool.
Variable moverHasImmediateCheckAfterTargetCapture : string -> string -> option string -> bool.
Variable worstImmediateCaptureLoss : string -> string -> option string -> option Z.

Local Abbreviation tagOf :=
  (moveTag uciToSan getMovedPieceType offeredSacrificeLossMagnitude
     hasOpponentCaptureOnTarget moverHasImmediateCheckAfterTargetCapture
     worstImmediateCaptureLoss).
Local Abbreviation pieceOf := (pieceMoved getMovedPieceType).

Local Abbreviation isBestMove := (playedIsBest uciToSan).

(** One step through the chain: split on a test that does not itself
    depend on the tag computed so far. *)
Ltac chain_step :=
  match goal with
  | |- context [ match ?c with Some _ => _ | None => _ end ] =>
      lazymatch c with
      | context [ isBrilliant ] => fail
      | context [ isBest ] => fail
      | _ => destruct c
      end
  | |- context [ if ?c then _ else _ ] =>
      lazymatch c with
      | context [ isBrilliant ] => fail
      | context [ isBest ] => fail
      | _ => destruct c
      end
  end; cbn [isBrilliant isBest negb andb].

Lemma onlyMove_needs_same (best : Eval) : onlyMove best false = false.
Proof. reflexivity. Qed.

Lemma classify_tags (bestCp playedCp : option Z) (flags : Flags) :
  let t := classifyMoveByDelta bestCp playedCp flags in
  t <> Brilliant /\ t <> Great.
Proof.
  unfold classifyMoveByDelta.
  repeat match goal with
         | |- context [ match ?c with Some _ => _ | None => _ end ] => destruct c
         | |- context [ if ?c then _ else _ ] => destruct c
         end; split; discriminate.
Qed.

(** The shape of the override chain: the result is Brilliant, or Best when
    the played move is the engine's first move, or the classifier's tag when
    it is not. *)
Lemma moveTag_shape (fen : string) (best after : Eval) (playedSanRaw : option string) :
  tagOf fen best after playedSanRaw = Brilliant
  \/ (isBestMove fen best playedSanRaw = true
      /\ tagOf fen best after playedSanRaw = Best)
  \/ (isBestMove fen best playedSanRaw = false
      /\ tagOf fen best after playedSanRaw = annotBaseTag (score best) (score after)).
Proof.
  unfold moveTag, playedIsBest. cbv zeta.
  destruct (classify_tags (Some (annotBestCp (score best)))
              (Some (annotPlayedCp (score after)))
              (mkFlags (annotBestIsMate (score best))
                 (annotDeltaMate (score best) (score after)))) as [HnB HnG].
  fold (annotBaseTag (score best) (score after)) in HnB, HnG.
  set (tag0 := annotBaseTag (score best) (score after)) in *.
  destruct (sameAsBest _ _) eqn:Hsame.
  - rewrite ?andb_true_r. repeat chain_step; auto.
  - rewrite onlyMove_needs_same. rewrite ?andb_false_r. cbn [andb].
    destruct tag0; try congruence; cbn [isBrilliant negb andb];
      repeat chain_step; auto.
Qed.

(** X1. Whatever the evaluations, the move and the answers of chess.js, the
    tag of a move is never Great and never Miss: the only-move rule asks for
    a tag other than Best and Brilliant on a move that the first override
    has just set to one of the two, and the classifier's Miss branch cannot
    be reached from a pair of evaluations. *)
Theorem moveTag_never_great_never_miss
    (fen : string) (best after : Eval) (playedSanRaw : option string) :
  tagOf fen best after playedSanRaw <> Great
  /\ tagOf fen best after playedSanRaw <> Miss.
Proof.
  pose proof (annotBaseTag_never_miss (score best) (score after)) as HnM.
  destruct (classify_tags (Some (annotBestCp (score best)))
              (Some (annotPlayedCp (score after)))
              (mkFlags (annotBestIsMate (score best))
                 (annotDeltaMate (score best) (score after)))) as [_ HnG].
  fold (annotBaseTag (score best) (score after)) in HnG.
  destruct (moveTag_shape fen best after playedSanRaw)
    as [-> | [[_ ->] | [_ ->]]]; split; congruence.
Qed.

(** X2. When the played move is the engine's first move (the SANs agree
    after [normalizeSan]), the tag is Best or Brilliant, whatever the two
    evaluations say about the loss. *)
Theorem best_move_is_best_or_brilliant
    (fen : string) (best after : Eval) (playedSanRaw : option string) :
  isBestMove fen best playedSanRaw = true ->
  tagOf fen best after playedSanRaw = Best
  \/ tagOf fen best after playedSanRaw = Brilliant.
Proof.
  intros Hsame.
  destruct (moveTag_shape fen best after playedSanRaw)
    as [H | [[_ H] | [Hno _]]]; [right; exact H | left; exact H | congruence].
Qed.

(** X3. A move of a pawn or of the king, or one whose piece chess.js does
    not report, is never Brilliant: its tag is Best when it is the engine's
    first move and the classifier's tag otherwise. *)
Theorem pawn_or_king_move_never_brilliant
    (fen : string) (best after : Eval) (playedSanRaw : option string) (san : string) :
  Js.truthy (normalizeSan playedSanRaw) = Some san ->
  pieceOf fen san = None ->
  tagOf fen best after playedSanRaw
  = (if isBestMove fen best playedSanRaw then Best
     else annotBaseTag (score best) (score after))
  /\ tagOf fen best after playedSanRaw <> Brilliant.
Proof.
  intros Hsan Hpiece.
  assert (Hn : bool_decide (getMovedPieceType fen san = Some "n"%string) = false).
  { apply bool_decide_eq_false. intros Hn. unfold pieceMoved in Hpiece.
    rewrite Hn in Hpiece. cbn in Hpiece. discriminate. }
  assert (Heq : tagOf fen best after playedSanRaw
                = (if isBestMove fen best playedSanRaw then Best
                   else annotBaseTag (score best) (score after))).
  { unfold moveTag, playedIsBest. cbv zeta. rewrite Hsan, Hpiece, Hn.
    destruct (classify_tags (Some (annotBestCp (score best)))
                (Some (annotPlayedCp (score after)))
                (mkFlags (annotBestIsMate (score best))
                   (annotDeltaMate (score best) (score after)))) as [HnB _].
    fold (annotBaseTag (score best) (score after)) in HnB.
    set (tag0 := annotBaseTag (score best) (score after)) in *.
    destruct (sameAsBest _ _).
    - cbn [isBrilliant isBest negb andb]. rewrite ?andb_false_r.
      repeat chain_step; reflexivity.
    - rewrite onlyMove_needs_same. rewrite ?andb_false_r. cbn [andb].
      repeat chain_step.
      repeat match goal with
             | |- context [ if ?c then _ else _ ] => destruct c
             end; reflexivity. }
  split; [exact Heq |].
  rewrite Heq.
  destruct (classify_tags (Some (annotBestCp (score best)))
              (Some (annotPlayedCp (score after)))
              (mkFlags (annotBestIsMate (score best))
                 (annotDeltaMate (score best) (score after)))) as [HnB _].
  destruct (isBestMove fen best playedSanRaw); [discriminate | exact HnB].
Qed.

Local Abbreviation entryAt :=
  (annotationAt uciToSan getMovedPieceType offeredSacrificeLossMagnitude
     hasOpponentCaptureOnTarget moverHasImmediateCheckAfterTargetCapture
     worstImmediateCaptureLoss).
Local Abbreviation loopBody :=
  (annotateBody uciToSan getMovedPieceType offeredSacrificeLossMagnitude
     hasOpponentCaptureOnTarget moverHasImmediateCheckAfterTargetCapture
     worstImmediateCaptureLoss).
Local Abbreviation annotationsOf :=
  (annotations uciToSan getMovedPieceType offeredSacrificeLossMagnitude
     hasOpponentCaptureOnTarget moverHasImmediateCheckAfterTargetCapture
     worstImmediateCaptureLoss).

Lemma annotateBody_lookup (evals : gmap nat (option Eval)) (sans : list string)
    (i : nat) (fen : string) (ann : gmap nat Annotation) (k : nat) :
  loopBody evals sans i fen ann !! k
  = if decide (k = S i)
    then match entryAt evals sans i fen with
         | Some a => Some a
         | None => ann !! k
         end
    else ann !! k.
Proof.
  unfold annotateBody.
  destruct (entryAt evals sans i fen) as [a |]; case_decide; subst;
    rewrite ?lookup_insert_eq, ?lookup_insert_ne by congruence; reflexivity.
Qed.

(** What the loop leaves under a key, started at index [i0] on the map
    [ann]. *)
Lemma annotate_loop_lookup (evals : gmap nat (option Eval)) (sans : list string)
    (l : list string) :
  forall (i0 : nat) (ann : gmap nat Annotation) (k : nat),
    Channel.forEachFrom (loopBody evals sans) i0 l ann !! k
    = match k with
      | O => ann !! O
      | S j =>
          if decide (i0 <= j < i0 + length l)%nat
          then match l !! (j - i0)%nat ≫= entryAt evals sans j with
               | Some a => Some a
               | None => ann !! k
               end
          else ann !! k
      end.
Proof.
  induction l as [| x l IH]; intros i0 ann k.
  - cbn. destruct k as [| j]; [reflexivity |].
    case_decide; [lia | reflexivity].
  - cbn [Channel.forEachFrom]. rewrite IH. destruct k as [| j].
    + rewrite annotateBody_lookup. case_decide; [lia | reflexivity].
    + rewrite annotateBody_lookup. cbn [length].
      destruct (decide (j = i0)) as [-> | Hne].
      * rewrite Nat.sub_diag. cbn.
        repeat case_decide; try lia; try congruence;
          destruct (entryAt evals sans i0 x); reflexivity.
      * repeat case_decide; try lia; try congruence; try reflexivity.
        replace (j - i0)%nat with (S (j - S i0)) by lia. reflexivity.
Qed.

(** X4. A move has an annotation exactly when both adjacent evaluations are
    present: the entry for move [j + 1] exists if and only if position
    [j + 1] is a position of the game and the evaluations of positions [j]
    and [j + 1] are there (not missing, not null); it is then the entry
    computed for position [j], and there is never an entry under key 0. *)
Theorem annotation_iff_both_evaluations
    (fens : list string) (evals : gmap nat (option Eval)) (sans : list string)
    (j : nat) :
  let ann := annotationsOf fens evals sans in
  ann !! 0%nat = None
  /\ (is_Some (ann !! S j)
      <-> (S j < length fens)%nat
          /\ is_Some (present (evals !! j))
          /\ is_Some (present (evals !! S j)))
  /\ (forall fen : string,
        fens !! j = Some fen -> (S j < length fens)%nat ->
        ann !! S j = entryAt evals sans j fen).
Proof.
  intros ann. subst ann. unfold annotations.
  split; [| split].
  - rewrite annotate_loop_lookup. apply lookup_empty.
  - rewrite annotate_loop_lookup, lookup_empty, Nat.sub_0_r.
    rewrite length_take. cbn [Nat.add].
    case_decide as Hin.
    + assert (Hlt : (S j < length fens)%nat) by lia.
      destruct (lookup_lt_is_Some_2 fens j ltac:(lia)) as [fen Hfen].
      rewrite lookup_take_lt by lia. rewrite Hfen. cbn.
      unfold annotationAt.
      destruct (present (evals !! j)) as [b |], (present (evals !! S j)) as [a |];
        cbn; split; intros H; try (destruct H as (_ & H1 & H2));
        try (by apply is_Some_None in H); try (by apply is_Some_None in H1);
        try (by apply is_Some_None in H2); eauto.
    + split; [intros H; by apply is_Some_None in H |].
      intros (Hlt & _). lia.
  - intros fen Hfen Hlt.
    rewrite annotate_loop_lookup, lookup_empty, Nat.sub_0_r.
    rewrite length_take. cbn [Nat.add].
    case_decide as Hin; [| lia].
    rewrite lookup_take_lt by lia. rewrite Hfen. cbn.
    destruct (entryAt evals sans j fen); reflexivity.
Qed.

End AnnotationFacts.

Lemma best_move_is_best_or_brilliant_witness :
  Cases.tagOf Cases.beforeMateFen Cases.mateInOne Cases.mated (Some "Qh4#"%string) = Best
  \/ Cases.tagOf Cases.beforeMateFen Cases.mateInOne Cases.mated (Some "Qh4#"%string)
     = Brilliant.
Proof.
  apply (best_move_is_best_or_brilliant Scenario.uciToSan Cases.getMovedPieceType
           Cases.offeredSacrificeLossMagnitude Cases.hasOpponentCaptureOnTarget
           Cases.moverHasImmediateCheckAfterTargetCapture
           Cases.worstImmediateCaptureLoss).
  reflexivity.
Defined.

Lemma pawn_or_king_move_never_brilliant_witness :
  Cases.tagOf Scenario.losingFen Scenario.matedIn3 Scenario.mateIn2 (Some "Kg1"%string)
  = Best
  /\ Cases.tagOf Scenario.losingFen Scenario.matedIn3 Scenario.mateIn2
       (Some "Kg1"%string) <> Brilliant.
Proof.
  apply (pawn_or_king_move_never_brilliant Scenario.uciToSan Cases.getMovedPieceType
           Cases.offeredSacrificeLossMagnitude Cases.hasOpponentCaptureOnTarget
           Cases.moverHasImmediateCheckAfterTargetCapture
           Cases.worstImmediateCaptureLoss
           Scenario.losingFen Scenario.matedIn3 Scenario.mateIn2
           (Some "Kg1"%string) "Kg1"%string); reflexivity.
Defined.

Lemma annotation_iff_both_evaluations_witness :
  Cases.annotate Scenario.italianGame (Cases.italianEvals "d2d3") Scenario.italianSans
    !! 1%nat
  = Some (Annotations.mkAnn "White" Mistake (Qmake 275 100)).
Proof.
  destruct (annotation_iff_both_evaluations Scenario.uciToSan Cases.getMovedPieceType
              Cases.offeredSacrificeLossMagnitude Cases.hasOpponentCaptureOnTarget
              Cases.moverHasImmediateCheckAfterTargetCapture
              Cases.worstImmediateCaptureLoss
              Scenario.italianGame (Cases.italianEvals "d2d3") Scenario.italianSans
              0%nat) as (_ & _ & H).
  unfold Cases.annotate.
  rewrite (H Scenario.italianFen eq_refl ltac:(cbn; lia)).
  vm_compute. reflexivity.
Defined.

(** ** Player statistics *)

Section LoopInvariant.

Import Channel.

Context {S : Type}.
Variable body : nat -> string -> S -> S.
Variable P : S -> Prop.

Hypothesis body_keeps : forall (i : nat) (x : string) (s : S), P s -> P (body i x s).

Lemma forEachFrom_invariant (l : list string) :
  forall (i : nat) (s : S), P s -> P (forEachFrom body i l s).
Proof.
  induction l as [| x l IH]; intros i s Hs; cbn; [exact Hs |].
  apply IH, body_keeps, Hs.
Qed.

End LoopInvariant.

Section StatsFacts.

Import Classifier Accuracy Stats.
Local Open Scope R_scope.

Variable uciToSan : string -> string -> option string.
Variable captureKeepsMaterial : string -> option string -> option string -> bool.

Local Abbreviation accuracyOf := (moveAccuracy uciToSan captureKeepsMaterial).
Local Abbreviation count := (countMove uciToSan captureKeepsMaterial).
Local Abbreviation statsOf := (playerStats uciToSan captureKeepsMaterial).
Local Abbreviation statsLoop := (statsBody uciToSan captureKeepsMaterial).

Lemma moveAccuracy_bounds (fen : string) (best after : Eval) (playedSan : option string) :
  0 <= accuracyOf fen best after playedSan <= 100.
Proof.
  unfold moveAccuracy. cbv zeta. split.
  - apply Rmax_l.
  - apply Rmax_lub; [lra | apply Rmin_l].
Qed.

Lemma clamp_30 : Rmax 0 (Rmin 100 30) = 30.
Proof. rewrite Rmin_right by lra. apply Rmax_right. lra. Qed.

Lemma forcedPerfect_small_loss (fen : string) (best after : Eval)
    (playedSan : option string) :
  (cpLoss (score best) (score after) <= 10)%Z ->
  forcedPerfect uciToSan fen best after playedSan = true.
Proof.
  intros Hl. unfold forcedPerfect. cbv zeta.
  destruct (Z.leb_spec (cpLoss (score best) (score after)) 10); [| lia].
  rewrite andb_true_r.
  match goal with |- (if negb ?c then true else ?c) = true => destruct c end;
    reflexivity.
Qed.

(** X5. The fixed points of the per-move accuracy. It is exactly 100 when
    the loss is at most 10 centipawns and when the move delivers mate (the
    next position is mate 0); and when the engine saw a forced mate for the
    mover before the move, it is either 100 or exactly 30. *)
Theorem accuracy_fixed_points
    (fen : string) (best after : Eval) (playedSan : option string) :
  ((cpLoss (score best) (score after) <= 10)%Z ->
   accuracyOf fen best after playedSan = 100)
  /\ (score after = Mate 0 -> accuracyOf fen best after playedSan = 100)
  /\ (annotBestIsMate (score best) = true ->
      accuracyOf fen best after playedSan = 100
      \/ accuracyOf fen best after playedSan = 30).
Proof.
  split; [| split].
  - intros Hl. unfold moveAccuracy.
    rewrite forcedPerfect_small_loss by exact Hl. apply clamp_100.
  - intros Hm. unfold moveAccuracy. rewrite Hm.
    destruct (forcedPerfect _ _ _ _ _); apply clamp_100.
  - intros Hb. unfold moveAccuracy. rewrite Hb.
    destruct (forcedPerfect _ _ _ _ _); [left; apply clamp_100 |].
    destruct (score after) as [c | m]; [right; apply clamp_30 |].
    destruct m as [| p | p]; [left; apply clamp_100 | |]; right; apply clamp_30.
Qed.

Lemma bucket_classified (best after : Score) (c : Counts) :
  classified (bump (bucket best after) c) = Datatypes.S (classified c).
Proof.
  unfold bucket, lossBucket. cbv zeta.
  repeat match goal with
         | |- context [ match ?x with Some _ => _ | None => _ end ] => destruct x
         | |- context [ if ?x then _ else _ ] => destruct x
         end; unfold classified; cbn; lia.
Qed.

Lemma countMove_wellCounted (fen : string) (best after : Eval)
    (playedSan : option string) (st : PlayerStat) :
  wellCounted st -> wellCounted (count fen best after playedSan st).
Proof.
  intros (Hc & Hg & Hm & Hp & Ha).
  pose proof (moveAccuracy_bounds fen best after playedSan) as Hacc.
  unfold wellCounted, countMove. cbv zeta.
  cbn [counts totalMoves goodMoves extraPenalty accuracy].
  rewrite S_INR.
  repeat split.
  - destruct (statsIsMiss _ _).
    + transitivity (classified (bump (bucket (score best) (score after)) (counts st))).
      * unfold classified, bump. destruct (bucket _ _); cbn; lia.
      * rewrite bucket_classified. lia.
    + rewrite bucket_classified. lia.
  - destruct (Rle_dec _ _); lia.
  - assert (Hb : c_miss (bump (bucket (score best) (score after)) (counts st))
                 = c_miss (counts st)).
    { unfold bucket, lossBucket. cbv zeta.
      repeat match goal with
             | |- context [ match ?x with Some _ => _ | None => _ end ] => destruct x
             | |- context [ if ?x then _ else _ ] => destruct x
             end; reflexivity. }
    destruct (statsIsMiss _ _); [| lia].
    match goal with |- (c_miss (bump Miss ?c) <= _)%nat =>
      change (c_miss (bump Miss c)) with (Datatypes.S (c_miss c)) end.
    lia.
  - destruct (score after) as [c | [| [p | p |] | p]]; lia.
  - destruct (score after) as [c | [| [p | p |] | p]]; lia.
  - lra.
  - lra.
Qed.

Lemma emptyStat_wellCounted : wellCounted emptyStat.
Proof.
  unfold wellCounted, emptyStat, classified. cbn. repeat split; try lia; lra.
Qed.

Lemma statsLoop_wellCounted (fens : list string) (evals : gmap nat (option Eval))
    (sans : list string) :
  let s := Channel.forEachFrom (statsLoop evals sans) 0 fens (emptyStat, emptyStat) in
  wellCounted (fst s) /\ wellCounted (snd s).
Proof.
  apply (forEachFrom_invariant (statsLoop evals sans)
           (fun s => wellCounted (fst s) /\ wellCounted (snd s))).
  - intros i x s [Hw Hb]. unfold statsBody.
    destruct (Annotations.present (evals !! i)) as [best |]; [| auto].
    destruct (Annotations.present (evals !! Datatypes.S i)) as [after |]; [| auto].
    case_bool_decide; cbn [fst snd]; split; auto using countMove_wellCounted.
  - split; apply emptyStat_wellCounted.
Qed.

(** X6. For each player, after [playerStats]: the six quality counters
    (best, excellent, good, inaccuracy, mistake, blunder) add up to the
    number of moves counted, so every counted move is in exactly one of
    them; the high-accuracy moves and the misses are at most that number;
    the extra penalty is between 0 and 200 per move; and the accuracy, the
    mean of the per-move accuracies, lies between 0 and 100. *)
Theorem playerStats_counts_and_accuracy
    (fens : list string) (evals : gmap nat (option Eval)) (sans : list string) :
  let stats := statsOf fens evals sans in
  forall st : PlayerStat, st = fst stats \/ st = snd stats ->
    classified (counts st) = totalMoves st
    /\ (goodMoves st <= totalMoves st)%nat
    /\ (c_miss (counts st) <= totalMoves st)%nat
    /\ (0 <= extraPenalty st <= 200 * Z.of_nat (totalMoves st))%Z
    /\ 0 <= accuracy st <= 100.
Proof.
  intros stats st Hst.
  assert (Hfin : forall s0 : PlayerStat, wellCounted s0 ->
            classified (counts (finalize s0)) = totalMoves (finalize s0)
            /\ (goodMoves (finalize s0) <= totalMoves (finalize s0))%nat
            /\ (c_miss (counts (finalize s0)) <= totalMoves (finalize s0))%nat
            /\ (0 <= extraPenalty (finalize s0)
                <= 200 * Z.of_nat (totalMoves (finalize s0)))%Z
            /\ 0 <= accuracy (finalize s0) <= 100).
  { intros s0 (Hc & Hg & Hm & Hp & Ha). unfold finalize.
    destruct (Nat.eqb_spec (totalMoves s0) 0) as [Hz | Hnz].
    - rewrite Hz in *. cbn in Ha. repeat split; try assumption; try lia; lra.
    - cbn [counts totalMoves goodMoves extraPenalty accuracy].
      assert (Hn : 0 < INR (totalMoves s0)) by (apply lt_0_INR; lia).
      repeat split; try assumption; try lia.
      + apply Rmult_le_reg_r with (INR (totalMoves s0)); [exact Hn |].
        unfold Rdiv. rewrite Rmult_assoc, Rinv_l by lra. lra.
      + apply Rmult_le_reg_r with (INR (totalMoves s0)); [exact Hn |].
        unfold Rdiv. rewrite Rmult_assoc, Rinv_l by lra. lra. }
  destruct (statsLoop_wellCounted (take (length fens - 1) fens) evals sans) as [Hw Hb].
  subst stats. unfold playerStats in Hst. cbn [fst snd] in Hst.
  destruct Hst as [-> | ->]; apply Hfin; assumption.
Qed.

End StatsFacts.

Section StatsAndAnnotations.

Import Classifier Annotations Stats.

Variable uciToSan : string -> string -> option string.
Variable captureKeepsMaterial : string -> option string -> option string -> bool.
Variable getMovedPieceType : string -> string -> option string.
Variable offeredSacrificeLossMagnitude : string -> string -> option string -> option Z.
Variable hasOpponentCaptureOnTarget : string -> string -> bool.
Variable moverHasImmediateCheckAfterTargetCapture : string -> string -> option string -> bool.
Variable worstImmediateCaptureLoss : string -> string -> option string -> option Z.

Local Abbreviation statsLoop := (statsBody uciToSan captureKeepsMaterial).
Local Abbreviation annotLoop :=
  (annotateBody uciToSan getMovedPieceType offeredSacrificeLossMagnitude
     hasOpponentCaptureOnTarget moverHasImmediateCheckAfterTargetCapture
     worstImmediateCaptureLoss).

Lemma finalize_totalMoves (st : PlayerStat) : totalMoves (finalize st) = totalMoves st.
Proof. unfold finalize. destruct (totalMoves st =? 0)%nat; reflexivity. Qed.

(** The two loops count the same moves. *)
Lemma stats_and_annotations_loop (evals : gmap nat (option Eval)) (sans : list string)
    (l : list string) :
  forall (i0 : nat) (s : PlayerStat * PlayerStat) (ann : gmap nat Annotation),
    (forall k : nat, is_Some (ann !! k) -> (k <= i0)%nat) ->
    (totalMoves (fst (Channel.forEachFrom (statsLoop evals sans) i0 l s))
     + totalMoves (snd (Channel.forEachFrom (statsLoop evals sans) i0 l s))
     + size ann
     = totalMoves (fst s) + totalMoves (snd s)
       + size (Channel.forEachFrom (annotLoop evals sans) i0 l ann))%nat.
Proof.
  induction l as [| x l IH]; intros i0 s ann Hkeys; cbn [Channel.forEachFrom];
    [lia |].
  assert (Hfresh : ann !! Datatypes.S i0 = None).
    { destruct (ann !! Datatypes.S i0) eqn:Hl; [| reflexivity].
      specialize (Hkeys (Datatypes.S i0) ltac:(rewrite Hl; eauto)). lia. }
    assert (Hkeys' : forall (a : Annotation) (k : nat),
               is_Some (<[Datatypes.S i0 := a]> ann !! k) -> (k <= Datatypes.S i0)%nat).
    { intros a k Hk. destruct (decide (k = Datatypes.S i0)) as [-> | Hne]; [lia |].
      rewrite lookup_insert_ne in Hk by congruence.
      specialize (Hkeys k Hk). lia. }
    assert (Hkeys0 : forall k : nat, is_Some (ann !! k) -> (k <= Datatypes.S i0)%nat).
    { intros k Hk. specialize (Hkeys k Hk). lia. }
    destruct (present (evals !! i0)) as [best |] eqn:Hb;
      [destruct (present (evals !! Datatypes.S i0)) as [after |] eqn:Ha |].
    - assert (Hann : exists a : Annotation,
                 annotLoop evals sans i0 x ann = <[Datatypes.S i0 := a]> ann).
      { unfold annotateBody, annotationAt. rewrite Hb, Ha. eauto. }
      destruct Hann as [a ->].
      pose proof (fun s' => IH (Datatypes.S i0) s' _ (Hkeys' a)) as H.
      rewrite map_size_insert_None in H by exact Hfresh.
      assert (Hst : statsLoop evals sans i0 x s
                    = if bool_decide (Js.field1 x = Some "w"%string)
                      then (countMove uciToSan captureKeepsMaterial x best after
                              (sans !! i0) (fst s), snd s)
                      else (fst s, countMove uciToSan captureKeepsMaterial x best
                                     after (sans !! i0) (snd s)))
        by (unfold statsBody; rewrite Hb, Ha; reflexivity).
      rewrite Hst. clear Hst.
      case_bool_decide.
      + specialize (H (countMove uciToSan captureKeepsMaterial x best after
                         (sans !! i0) (fst s), snd s)).
        cbn [fst snd countMove totalMoves] in H. lia.
      + specialize (H (fst s, countMove uciToSan captureKeepsMaterial x best after
                                 (sans !! i0) (snd s))).
        cbn [fst snd countMove totalMoves] in H. lia.
    - assert (Hann : annotLoop evals sans i0 x ann = ann)
        by (unfold annotateBody, annotationAt; rewrite Hb, Ha; reflexivity).
      assert (Hst : statsLoop evals sans i0 x s = s)
        by (unfold statsBody; rewrite Hb, Ha; reflexivity).
      rewrite Hann, Hst. apply IH, Hkeys0.
    - assert (Hann : annotLoop evals sans i0 x ann = ann)
        by (unfold annotateBody, annotationAt; rewrite Hb; reflexivity).
      assert (Hst : statsLoop evals sans i0 x s = s)
        by (unfold statsBody; rewrite Hb; reflexivity).
      rewrite Hann, Hst. apply IH, Hkeys0.
Qed.

(** X7. The statistics and the annotations cover the same moves: the moves
    counted for White plus the moves counted for Black are as many as there
    are annotations. *)
Theorem stats_count_the_annotated_moves
    (fens : list string) (evals : gmap nat (option Eval)) (sans : list string) :
  let stats := playerStats uciToSan captureKeepsMaterial fens evals sans in
  let ann := annotations uciToSan getMovedPieceType offeredSacrificeLossMagnitude
               hasOpponentCaptureOnTarget moverHasImmediateCheckAfterTargetCapture
               worstImmediateCaptureLoss fens evals sans in
  (totalMoves (fst stats) + totalMoves (snd stats))%nat = size ann.
Proof.
  intros stats ann. subst stats ann. unfold playerStats, annotations.
  cbn [fst snd]. rewrite !finalize_totalMoves.
  pose proof (stats_and_annotations_loop evals sans (take (length fens - 1) fens)
                0%nat (emptyStat, emptyStat) ∅) as H.
  rewrite map_size_empty in H. cbn [fst snd emptyStat totalMoves] in H.
  rewrite Nat.add_0_r in H. apply H.
  intros k Hk. rewrite lookup_empty in Hk. by apply is_Some_None in Hk.
Qed.

End StatsAndAnnotations.

Lemma playerStats_counts_and_accuracy_witness :
  let white := fst (Stats.playerStats Scenario.uciToSan Scenario.noCapture
                      Scenario.italianGame (Cases.italianEvals "d2d3")
                      Scenario.italianSans) in
  Stats.classified (Stats.counts white) = Stats.totalMoves white
  /\ (0 <= Stats.accuracy white <= 100)%R.
Proof.
  intros white.
  destruct (playerStats_counts_and_accuracy Scenario.uciToSan Scenario.noCapture
              Scenario.italianGame (Cases.italianEvals "d2d3") Scenario.italianSans
              white (or_introl eq_refl)) as (H1 & _ & _ & _ & H5).
  split; [exact H1 | exact H5].
Defined.

Lemma accuracy_fixed_points_witness :
  Accuracy.moveAccuracy Scenario.uciToSan Scenario.noCapture Cases.beforeMateFen
    Cases.mateInOne Cases.mated (Some "Qh4#"%string) = 100%R
  /\ Accuracy.moveAccuracy Scenario.uciToSan Scenario.noCapture Cases.beforeMateFen
       Cases.mateInOne Cases.mated (Some "Qh4#"%string) = 100%R
  /\ (Accuracy.moveAccuracy Scenario.uciToSan Scenario.noCapture Cases.beforeMateFen
        Cases.mateInOne Cases.mated (Some "Qh4#"%string) = 100%R
      \/ Accuracy.moveAccuracy Scenario.uciToSan Scenario.noCapture Cases.beforeMateFen
           Cases.mateInOne Cases.mated (Some "Qh4#"%string) = 30%R).
Proof.
  destruct (accuracy_fixed_points Scenario.uciToSan Scenario.noCapture
              Cases.beforeMateFen Cases.mateInOne Cases.mated (Some "Qh4#"%string))
    as (H1 & H2 & H3).
  split; [| split].
  - apply H1. vm_compute. intros H. discriminate H.
  - apply H2. reflexivity.
  - apply H3. reflexivity.
Defined.

(** ** The message handler of one search *)

Section HandlerFacts.

Import Handler.

#[local] Instance rankLe_total : Total rankLe.
Proof. intros a b. unfold rankLe. lia. Qed.

#[local] Instance rankLe_trans : Transitive rankLe.
Proof. intros a b c. unfold rankLe. lia. Qed.

Local Abbreviation itemOf :=
  (fun e : nat * (Score * string) =>
     mkPv (Z.of_nat (fst e)) (snd (snd e)) (fst (snd e))).

Lemma multipvOf_elem (m : gmap nat (Score * string)) (x : PvItem) :
  x ∈ multipvOf m <->
  exists k sc u, m !! k = Some (sc, u) /\ x = mkPv (Z.of_nat k) u sc.
Proof.
  unfold multipvOf. rewrite merge_sort_Permutation.
  rewrite list_elem_of_In, in_map_iff. split.
  - intros ([k [sc u]] & <- & Hin). exists k, sc, u. split; [|reflexivity].
    apply elem_of_map_to_list. by apply list_elem_of_In.
  - intros (k & sc & u & Hk & ->). exists (k, (sc, u)). split; [reflexivity|].
    apply list_elem_of_In. by apply elem_of_map_to_list.
Qed.

Lemma multipvOf_ranks_NoDup (m : gmap nat (Score * string)) :
  NoDup (rank <$> multipvOf m).
Proof.
  unfold multipvOf. rewrite merge_sort_Permutation.
  change (NoDup (rank <$> (itemOf <$> map_to_list m))).
  rewrite <- list_fmap_compose.
  change (NoDup ((Z.of_nat ∘ fst) <$> map_to_list m)).
  rewrite list_fmap_compose. apply NoDup_fmap_2; [apply _|].
  apply NoDup_fst_map_to_list.
Qed.

Lemma sorted_nodup_strict (l : list PvItem) :
  StronglySorted rankLe l -> NoDup (rank <$> l) ->
  StronglySorted (fun a b => (rank a < rank b)%Z) l.
Proof.
  induction 1 as [|x l Hl IH Hx]; intros Hnd; [constructor|].
  rewrite fmap_cons in Hnd. apply NoDup_cons in Hnd as [Hnotin Hnd].
  constructor; [by apply IH|].
  apply Forall_forall. intros y Hy.
  rewrite Forall_forall in Hx. specialize (Hx y Hy). unfold rankLe in Hx.
  assert (rank x <> rank y).
  { intros Heq. apply Hnotin. rewrite Heq. by apply list_elem_of_fmap_2. }
  lia.
Qed.

Local Abbreviation runFrom :=
  (fold_left (fun (st : State) (m : Msg) => handle m st)).

Lemma handle_resolved (m : Msg) (st : State) (r : option Eval) :
  resolved st = Some r -> handle m st = st.
Proof. intros H. unfold handle. rewrite H. reflexivity. Qed.

Lemma runFrom_resolved (msgs : list Msg) (st : State) (r : option Eval) :
  resolved st = Some r -> runFrom msgs st = st.
Proof.
  induction msgs as [|m msgs IH]; intros H; [reflexivity|].
  cbn [fold_left]. rewrite (handle_resolved m st r H). by apply IH.
Qed.

Lemma handleLine_fields (l : Line) (st : State) :
  currentEval (handleLine l st) =
    match lineScore l with Some sc => Some sc | None => currentEval st end
  /\ mpv (handleLine l st) =
       match l_multipv l, l_pv l, lineScore l with
       | Some k, Some u, Some sc => <[k := (sc, u)]> (mpv st)
       | _, _, _ => mpv st
       end
  /\ (l_bestmove l = None -> resolved (handleLine l st) = resolved st).
Proof.
  unfold handleLine, lineScore.
  destruct (l_multipv l), (l_pv l), (l_cp l), (l_mate l), (l_bestmove l);
    cbn; repeat split; intros; congruence.
Qed.

Lemma handleLine_best (l : Line) (st : State) (b : string) :
  l_bestmove l = Some b ->
  exists st', resolved (handleLine l st) = Some (buildResult st' (Some b))
    /\ currentEval st' = currentEval (handleLine l st)
    /\ mpv st' = mpv (handleLine l st).
Proof.
  intros Hb. unfold handleLine. rewrite Hb.
  eexists. cbn [resolved currentEval mpv]. split; [reflexivity|]. split; reflexivity.
Qed.

Lemma handle_not_best (m : Msg) (st : State) :
  isBestmove m = false -> resolved (handle m st) = resolved st.
Proof.
  intros H. unfold handle. destruct (resolved st) eqn:Hr; [exact Hr|].
  destruct m as [l| | |]; cbn in H; try discriminate; try reflexivity;
    try exact Hr.
  destruct (l_bestmove l) eqn:Hb; [discriminate|].
  destruct (handleLine_fields l st) as (_ & _ & H3). rewrite (H3 Hb). exact Hr.
Qed.

Lemma handle_best (m : Msg) (st : State) :
  resolved st = None -> isBestmove m = true ->
  exists st' b, resolved (handle m st) = Some (buildResult st' b)
    /\ currentEval st' = currentEval (handle m st)
    /\ mpv st' = mpv (handle m st).
Proof.
  intros Hr H. unfold handle. rewrite Hr.
  destruct m as [l| |b|]; cbn in H; try discriminate.
  - destruct (l_bestmove l) as [b|] eqn:Hb; [|discriminate].
    destruct (handleLine_best l st b Hb) as (st' & H1 & H2 & H3).
    exists st', (Some b). auto.
  - exists st, b. cbn [resolved currentEval mpv]. auto.
Qed.

Lemma runFrom_not_best (msgs : list Msg) (st : State) :
  Forall (fun m => isBestmove m = false) msgs ->
  resolved (runFrom msgs st) = resolved st.
Proof.
  intros H. revert st. induction H as [|m msgs Hm _ IH]; intros st; [reflexivity|].
  cbn [fold_left]. rewrite IH. by apply handle_not_best.
Qed.

(** The value built at [bestmove]: its lines are the entries of [mpv] in
    increasing rank, and its score is the score of its own line of rank 1
    when it has one. *)
Lemma buildResult_shape (st : State) (b : option string) (e : Eval) :
  buildResult st b = Some e ->
  multipv e = multipvOf (mpv st)
  /\ bestmoveUci e = b
  /\ (forall x, x ∈ multipv e -> rank x = 1%Z -> score e = pv_score x)
  /\ ((forall x, x ∈ multipv e -> rank x <> 1%Z) -> currentEval st = Some (score e)).
Proof.
  unfold buildResult.
  destruct (List.find _ (multipvOf (mpv st))) as [top|] eqn:Hfind.
  - intros [= <-]. cbn [multipv bestmoveUci score].
    apply find_some in Hfind as [Hin Hrank].
    apply Z.eqb_eq in Hrank. apply list_elem_of_In in Hin.
    split; [reflexivity|]. split; [reflexivity|]. split.
    + intros x Hx Hrx.
      apply multipvOf_elem in Hx as (k & sc & u & Hk & ->).
      apply multipvOf_elem in Hin as (k' & sc' & u' & Hk' & ->).
      cbn [rank] in Hrank, Hrx. assert (k = k') as -> by lia.
      rewrite Hk in Hk'. by injection Hk' as <- <-.
    + intros Hno. by destruct (Hno top Hin Hrank).
  - destruct (currentEval st) as [sc|] eqn:Hc; [|discriminate].
    intros [= <-]. cbn [multipv bestmoveUci score].
    split; [reflexivity|]. split; [reflexivity|]. split; [|reflexivity].
    intros x Hx Hrx. apply list_elem_of_In in Hx.
    pose proof (find_none _ _ Hfind x Hx) as Hn. cbn in Hn.
    apply Z.eqb_neq in Hn. contradiction.
Qed.

Lemma resolved_is_built (msgs : list Msg) (r : option Eval) :
  resolveWith msgs = Some r -> exists st b, r = buildResult st b.
Proof.
  unfold resolveWith, run.
  assert (forall st, resolved st = None ->
            resolved (runFrom msgs st) = Some r -> exists st' b, r = buildResult st' b)
    as H; [|apply H; reflexivity].
  induction msgs as [|m msgs IH]; intros st Hst; cbn [fold_left].
  - rewrite Hst. discriminate.
  - destruct (isBestmove m) eqn:Hm.
    + destruct (handle_best m st Hst Hm) as (st' & b & Hr & _).
      rewrite (runFrom_resolved msgs _ _ Hr), Hr. intros [= <-]. eauto.
    + apply IH. by rewrite handle_not_best.
Qed.

(** X8. Whatever the worker sends, a search that resolves with a value
    resolves with lines in strictly increasing rank (so no rank occurs
    twice), and the top-level score of the value is the score of its own
    line of rank 1 whenever it has such a line. *)
Theorem resolved_lines_sorted_and_scored (msgs : list Msg) (e : Eval) :
  resolveWith msgs = Some (Some e) ->
  StronglySorted (fun a b => (rank a < rank b)%Z) (multipv e)
  /\ (forall x, x ∈ multipv e -> rank x = 1%Z -> score e = pv_score x).
Proof.
  intros H. apply resolved_is_built in H as (st & b & Hb). symmetry in Hb.
  apply buildResult_shape in Hb as (Hm & _ & Hs & _). split; [|exact Hs].
  rewrite Hm. apply sorted_nodup_strict; [|apply multipvOf_ranks_NoDup].
  unfold multipvOf. apply StronglySorted_merge_sort; apply _.
Qed.

(** X9. The promise is pending as long as no [bestmove] has arrived, it is
    resolved by the first one, and nothing that arrives later changes what
    it was resolved with. *)
Theorem first_bestmove_resolves (pre post : list Msg) (b : Msg) :
  Forall (fun m => isBestmove m = false) pre ->
  isBestmove b = true ->
  resolveWith pre = None
  /\ exists r, resolveWith (pre ++ [b]) = Some r
       /\ resolveWith (pre ++ b :: post) = Some r.
Proof.
  intros Hpre Hb. unfold resolveWith, run.
  pose proof (runFrom_not_best pre init Hpre) as Hp. cbn [init resolved] in Hp.
  split; [exact Hp|].
  rewrite !fold_left_app. cbn [fold_left].
  destruct (handle_best b _ Hp Hb) as (st' & u & Hr & _).
  exists (buildResult st' u). split; [exact Hr|].
  by rewrite (runFrom_resolved post _ _ Hr).
Qed.

Lemma handle_fields (m : Msg) (st : State) :
  resolved st = None ->
  (currentEval (handle m st) = None <-> currentEval st = None /\ hasScore m = false)
  /\ (hasScore m = false -> mpv (handle m st) = mpv st)
  /\ (writesRank1 m = false -> mpv (handle m st) !! 1%nat = mpv st !! 1%nat).
Proof.
  intros Hr. unfold handle. rewrite Hr. destruct m as [l|cp mate|b|].
  - assert (currentEval (handleLine l st) =
              match lineScore l with Some sc => Some sc | None => currentEval st end
            /\ mpv (handleLine l st) =
                 match l_multipv l, l_pv l, lineScore l with
                 | Some k, Some u, Some sc => <[k := (sc, u)]> (mpv st)
                 | _, _, _ => mpv st
                 end) as [-> ->].
    { unfold handleLine, lineScore.
      destruct (l_multipv l), (l_pv l), (l_cp l), (l_mate l), (l_bestmove l);
        cbn; split; reflexivity. }
    cbn [hasScore writesRank1].
    destruct (lineScore l) as [sc|]; (split; [|split]).
    + split; [discriminate|]. intros [_ H]. discriminate.
    + discriminate.
    + destruct (l_multipv l) as [k|]; [|reflexivity].
      destruct (l_pv l) as [u|]; [|reflexivity].
      destruct k as [|[|k]]; [|discriminate|]; intros _; by rewrite lookup_insert_ne.
    + tauto.
    + intros _. by destruct (l_multipv l), (l_pv l).
    + intros _. by destruct (l_multipv l), (l_pv l).
  - cbn. split; [|split]; try reflexivity; try discriminate.
    split; [discriminate|]. intros [_ H]. discriminate.
  - cbn. split; [tauto|]. split; reflexivity.
  - cbn. split; [tauto|]. split; reflexivity.
Qed.

Lemma run_snoc (msgs : list Msg) (m : Msg) :
  run (msgs ++ [m]) = handle m (run msgs).
Proof. unfold run. by rewrite fold_left_app. Qed.

Lemma run_scores (msgs : list Msg) :
  Forall (fun m => isBestmove m = false) msgs ->
  resolved (run msgs) = None
  /\ (currentEval (run msgs) = None -> mpv (run msgs) = ∅)
  /\ (currentEval (run msgs) = None <-> Forall (fun m => hasScore m = false) msgs).
Proof.
  induction msgs as [|m msgs IH] using rev_ind; intros H.
  - cbn. split; [reflexivity|]. split; [reflexivity|]. split; [constructor|reflexivity].
  - apply Forall_app in H as [Hmsgs Hm]. apply Forall_cons in Hm as [Hm _].
    destruct (IH Hmsgs) as (Hr & Hempty & Hnone).
    rewrite run_snoc. destruct (handle_fields m (run msgs) Hr) as (H1 & H2 & _).
    split; [by rewrite handle_not_best|]. split.
    + intros Hc. apply H1 in Hc as [Hc Hs]. rewrite (H2 Hs). by apply Hempty.
    + rewrite H1, Hnone, Forall_app, Forall_singleton. tauto.
Qed.

Lemma buildResult_rank1 (st : State) (b : option string) (sc : Score) (u : string) :
  mpv st !! 1%nat = Some (sc, u) ->
  exists e, buildResult st b = Some e /\ score e = sc /\ mkPv 1 u sc ∈ multipv e.
Proof.
  intros H1.
  assert (mkPv 1 u sc ∈ multipvOf (mpv st)) as Hin.
  { apply multipvOf_elem. exists 1%nat, sc, u. split; [exact H1|reflexivity]. }
  destruct (buildResult st b) as [e|] eqn:He.
  - destruct (buildResult_shape st b e He) as (Hm & _ & Hs & _).
    exists e. rewrite Hm. split; [reflexivity|]. split; [|exact Hin].
    rewrite (Hs (mkPv 1 u sc)); [reflexivity| by rewrite Hm |reflexivity].
  - exfalso. unfold buildResult in He.
    destruct (List.find _ (multipvOf (mpv st))) eqn:Hfind; [discriminate|].
    apply list_elem_of_In in Hin.
    pose proof (find_none _ _ Hfind _ Hin) as Hn. discriminate Hn.
Qed.

Lemma buildResult_null (st : State) (b : option string) :
  (currentEval st = None -> mpv st = ∅) ->
  buildResult st b = None <-> currentEval st = None.
Proof.
  intros Hempty. unfold buildResult. split.
  - destruct (List.find _ (multipvOf (mpv st))); [discriminate|].
    by destruct (currentEval st).
  - intros Hc. rewrite (Hempty Hc), Hc. unfold multipvOf.
    rewrite map_to_list_empty. reflexivity.
Qed.

(** X10. Every line with a score overwrites [currentEval], whatever its
    rank, but the value resolved at [bestmove] takes its score from the last
    line of rank 1 that carried a move and a score: lines of other ranks that
    arrive after it do not change the score of the result. *)
Theorem rank1_line_gives_the_score
    (pre rest : list Msg) (l : Line) (b : Msg) (sc : Score) (u : string) :
  Forall (fun m => isBestmove m = false) (pre ++ Str l :: rest) ->
  l_multipv l = Some 1%nat -> l_pv l = Some u -> lineScore l = Some sc ->
  Forall (fun m => writesRank1 m = false) rest ->
  isBestmove b = true -> writesRank1 b = false ->
  exists e, resolveWith (pre ++ Str l :: rest ++ [b]) = Some (Some e)
    /\ score e = sc /\ mkPv 1 u sc ∈ multipv e.
Proof.
  intros Hnb Hk Hu Hsc Hrest Hb Hb1.
  assert (resolved (run (pre ++ Str l :: rest)) = None
          /\ mpv (run (pre ++ Str l :: rest)) !! 1%nat = Some (sc, u)) as [Hr H1].
  { split; [by apply run_scores|].
    apply Forall_app in Hnb as [Hpre Hnb]. apply Forall_cons in Hnb as [Hl Hnb].
    induction rest as [|m rest IH] using rev_ind.
    - rewrite run_snoc. unfold handle.
      destruct (run_scores pre Hpre) as (-> & _).
      destruct (handleLine_fields l (run pre)) as (_ & -> & _).
      rewrite Hk, Hu, Hsc. apply lookup_insert_eq.
    - apply Forall_app in Hrest as [Hrest Hm]. apply Forall_cons in Hm as [Hm _].
      apply Forall_app in Hnb as [Hnb Hm']. 
      replace (pre ++ Str l :: rest ++ [m]) with ((pre ++ Str l :: rest) ++ [m])
        by (by rewrite <- app_assoc).
      rewrite run_snoc.
      assert (resolved (run (pre ++ Str l :: rest)) = None) as Hr.
      { apply run_scores, Forall_app. split; [exact Hpre|]. by constructor. }
      destruct (handle_fields m _ Hr) as (_ & _ & Hkeep).
      rewrite (Hkeep Hm). by apply IH. }
  replace (pre ++ Str l :: rest ++ [b]) with ((pre ++ Str l :: rest) ++ [b])
    by (by rewrite <- app_assoc).
  unfold resolveWith. rewrite run_snoc.
  destruct (handle_best b _ Hr Hb) as (st' & ub & -> & _ & Hmpv).
  destruct (handle_fields b _ Hr) as (_ & _ & Hkeep).
  destruct (buildResult_rank1 st' ub sc u) as (e & He & Hs & Hin).
  { rewrite Hmpv, Hkeep; [exact H1|exact Hb1]. }
  exists e. rewrite He. auto.
Qed.

(** X11. A search resolves with [null] exactly when nothing the worker sent
    up to and including [bestmove] carried a score. *)
Theorem resolves_null_iff_no_score (msgs : list Msg) (b : Msg) :
  Forall (fun m => isBestmove m = false) msgs ->
  isBestmove b = true ->
  resolveWith (msgs ++ [b]) = Some None
  <-> Forall (fun m => hasScore m = false) (msgs ++ [b]).
Proof.
  intros Hmsgs Hb. unfold resolveWith. rewrite run_snoc.
  destruct (run_scores msgs Hmsgs) as (Hr & Hempty & Hnone).
  destruct (handle_best b _ Hr Hb) as (st' & ub & -> & Hc & Hmpv).
  destruct (handle_fields b _ Hr) as (H1 & H2 & _).
  assert (currentEval st' = None -> mpv st' = ∅) as Hempty'.
  { rewrite Hc, Hmpv. intros Hn. apply H1 in Hn as [Hn Hs].
    rewrite (H2 Hs). by apply Hempty. }
  rewrite Forall_app, Forall_singleton, <- Hnone, <- H1, <- Hc.
  rewrite <- (buildResult_null st' ub Hempty').
  split; [by intros [= ->]|by intros ->].
Qed.

End HandlerFacts.

Lemma resolved_lines_sorted_and_scored_witness :
  StronglySorted (fun a b => (rank a < rank b)%Z) (multipv Cases.twoLinesEval)
  /\ (forall x, x ∈ multipv Cases.twoLinesEval -> rank x = 1%Z ->
        score Cases.twoLinesEval = pv_score x).
Proof.
  apply (resolved_lines_sorted_and_scored (Cases.twoLines ++ [Cases.bestLine "e2e4"])).
  vm_compute. reflexivity.
Defined.

Lemma first_bestmove_resolves_witness :
  Handler.resolveWith Cases.twoLines = None
  /\ exists r, Handler.resolveWith (Cases.twoLines ++ [Cases.bestLine "e2e4"]) = Some r
       /\ Handler.resolveWith
            (Cases.twoLines ++ Cases.bestLine "e2e4" :: [Cases.infoLine 1 500 "a2a3"])
          = Some r.
Proof.
  apply (first_bestmove_resolves Cases.twoLines [Cases.infoLine 1 500 "a2a3"]
           (Cases.bestLine "e2e4")).
  - repeat constructor.
  - reflexivity.
Defined.

Lemma rank1_line_gives_the_score_witness :
  exists e,
    Handler.resolveWith
      ([] ++ Cases.infoLine 1 30 "e2e4" :: [Cases.infoLine 2 (-12) "d2d4"]
          ++ [Cases.bestLine "e2e4"]) = Some (Some e)
    /\ score e = Cp 30 /\ mkPv 1 "e2e4" (Cp 30) ∈ multipv e.
Proof.
  apply (rank1_line_gives_the_score [] [Cases.infoLine 2 (-12) "d2d4"]
           (Handler.mkLine (Some 1%nat) (Some 30%Z) None (Some "e2e4") None)
           (Cases.bestLine "e2e4") (Cp 30) "e2e4").
  - repeat constructor.
  - reflexivity.
  - reflexivity.
  - reflexivity.
  - repeat constructor.
  - reflexivity.
  - reflexivity.
Defined.

Lemma resolves_null_iff_no_score_witness :
  Handler.resolveWith ([Handler.ObjOther; Cases.readyLine] ++ [Handler.ObjBest (Some "e2e4")])
    = Some None
  <-> Forall (fun m => Handler.hasScore m = false)
        ([Handler.ObjOther; Cases.readyLine] ++ [Handler.ObjBest (Some "e2e4")]).
Proof.
  apply (resolves_null_iff_no_score [Handler.ObjOther; Cases.readyLine]
           (Handler.ObjBest (Some "e2e4"))).
  - repeat constructor.
  - reflexivity.
Defined.

(** ** What holds of a session after any events *)

Section StartupFacts.

Import Session Startup.

Variable cands : list string.
Variable spawns : string -> bool.

Local Open Scope nat_scope.

Local Abbreviation Inv :=
  (fun s : State => oneWatchdog s /\ onCandidate cands spawns s /\ deadIsFinal s).

Lemma clear_timers (s : State) :
  oneWatchdog s -> timers (clearLoadingTimeout s) = [].
Proof.
  unfold oneWatchdog, clearLoadingTimeout. intros [H | [H1 H2]].
  - destruct (loadingTimeout s); cbn [timers]; rewrite H; reflexivity.
  - rewrite H2. cbn [timers]. rewrite H1. cbn. by rewrite Nat.eqb_refl.
Qed.

Lemma clear_other_fields (s : State) :
  loadingTimeout (clearLoadingTimeout s) = loadingTimeout s
  /\ posted (clearLoadingTimeout s) = posted s.
Proof. unfold clearLoadingTimeout. destruct (loadingTimeout s) eqn:H; cbn; auto. Qed.

Lemma last_snoc (l : list bool) (b d : bool) : List.last (l ++ [b]) d = b.
Proof. apply last_last. Qed.

Lemma setupWorker_inv (url : string) (s : State) :
  oneWatchdog s -> url = candidateUrl cands (candidateIndex s) -> spawns url = true ->
  Inv (setupWorker url s).
Proof.
  intros Hw Hurl Hsp.
  destruct (clearLoadingTimeout_fields s) as (Hi & Ht & _ & _ & _).
  pose proof (clear_timers s Hw) as Htm.
  unfold setupWorker. split; [|split].
  - right. cbn [timers timeoutToken loadingTimeout]. by rewrite Htm.
  - intros _. cbn [workerRef candidateIndex posted]. rewrite Hi, <- Hurl. auto.
  - intros H. discriminate H.
Qed.

Lemma ready_inv (s : State) :
  Inv s -> alive s = true -> Inv (setEngineReady true (clearLoadingTimeout s)).
Proof.
  intros (Hw & Hc & Hd) Ha.
  destruct (clearLoadingTimeout_fields s) as (Hi & Ht & Hwr & Hal & Hr).
  destruct (clear_other_fields s) as (_ & Hp).
  pose proof (clear_timers s Hw) as Htm.
  unfold setEngineReady. split; [|split].
  - left. exact Htm.
  - intros _. cbn [workerRef candidateIndex posted alive]. rewrite Hi, Hwr, Hp. by apply Hc.
  - cbn [alive]. rewrite Hal, Ha. discriminate.
Qed.

Lemma tryNextCandidate_inv (s : State) :
  oneWatchdog s -> Inv (snd (tryNextCandidate cands spawns s)).
Proof.
  intros Hw. unfold tryNextCandidate.
  assert (oneWatchdog (terminateCurrent s)) as Hw1 by exact Hw.
  pose proof (clear_timers _ Hw1) as Htm.
  destruct (clearLoadingTimeout_fields (terminateCurrent s)) as (Hi & Ht & Hwr & Hal & Hr).
  set (s1 := clearLoadingTimeout (terminateCurrent s)) in *.
  set (s2 := mkState (S (candidateIndex s1)) (timeoutToken s1) (loadingTimeout s1)
               (timers s1) (workerRef s1) (alive s1) (readyCalls s1) (posted s1)).
  assert (oneWatchdog s2) as Hw2 by (left; exact Htm).
  assert (Inv (setEngineReady false (clearLoadingTimeout s2))) as Hfail.
  { destruct (clearLoadingTimeout_fields s2) as (_ & _ & _ & Hal2 & _).
    pose proof (clear_timers _ Hw2) as Htm2.
    assert (alive (clearLoadingTimeout s2) = false) as Hdead
      by (rewrite Hal2; cbn [alive s2]; exact Hal).
    unfold setEngineReady. split; [|split].
    - left. exact Htm2.
    - intros H. cbn [alive] in H. congruence.
    - intros _. split; [exact Htm2|]. unfold engineReady. cbn [readyCalls].
      apply last_snoc. }
  destruct (candidateIndex s2 <? length cands); [|exact Hfail].
  destruct (cands !! candidateIndex s2) as [nextUrl|] eqn:Hnext; [|exact Hfail].
  destruct (spawns nextUrl) eqn:Hsp; [|exact Hfail].
  cbn [snd]. apply setupWorker_inv; [exact Hw2| |exact Hsp].
  unfold candidateUrl. by rewrite Hnext.
Qed.

Lemma start_inv : Inv (start cands spawns).
Proof.
  unfold start.
  assert (oneWatchdog init) as H0 by (by left).
  change (default defaultUrl (cands !! 0)) with (candidateUrl cands 0).
  destruct (spawns (candidateUrl cands 0)) eqn:Hsp.
  - by apply setupWorker_inv.
  - by apply tryNextCandidate_inv.
Qed.

Lemma onmessage_inv (m : WorkerMsg) (s : State) :
  Inv s -> alive s = true -> Inv (onmessage cands spawns m s).
Proof.
  intros HI Ha. unfold onmessage. destruct m as [line|type message].
  - destruct (isReadyText line); [by apply ready_inv|exact HI].
  - assert (Inv (if String.eqb type "ready"
                 then setEngineReady true (clearLoadingTimeout s) else s)
            /\ alive (if String.eqb type "ready"
                      then setEngineReady true (clearLoadingTimeout s) else s) = true)
      as [HI1 Ha1].
    { destruct (String.eqb type "ready"); [|by split].
      split; [by apply ready_inv|].
      destruct (clearLoadingTimeout_fields s) as (_ & _ & _ & Hal & _).
      cbn [setEngineReady alive]. by rewrite Hal. }
    set (s1 := if String.eqb type "ready"
               then setEngineReady true (clearLoadingTimeout s) else s) in *.
    destruct (String.eqb type "error"); [apply tryNextCandidate_inv, HI1|].
    destruct (String.eqb type "log"); [|exact HI1].
    destruct (Js.truthy message) as [msg|]; [|exact HI1].
    destruct (isReadyText msg); [by apply ready_inv|exact HI1].
Qed.

Lemma step_inv (e : Event) (s : State) : Inv s -> Inv (step cands spawns e s).
Proof.
  intros HI. pose proof HI as (Hw & Hc & Hd). destruct e as [m| | |h]; cbn [step].
  - destruct (alive s) eqn:Ha; [by apply onmessage_inv|exact HI].
  - destruct (alive s) eqn:Ha; [by apply tryNextCandidate_inv|exact HI].
  - exact HI.
  - destruct (existsb (Nat.eqb h) (timers s)) eqn:Hex; [|exact HI].
    destruct Hw as [Hnil | [Hone Hlt]]; [rewrite Hnil in Hex; discriminate|].
    rewrite Hone in Hex |- *. cbn in Hex. rewrite orb_false_r in Hex.
    apply Nat.eqb_eq in Hex. subst h.
    unfold watchdog. cbn [timeoutToken List.filter]. rewrite Nat.eqb_refl. cbn [negb].
    unfold setEngineReady. split; [|split].
    + by left.
    + exact Hc.
    + intros Hal. cbn [alive] in Hal. split; [reflexivity|].
      unfold engineReady. cbn [readyCalls]. apply last_snoc.
Qed.

Lemma run_inv (es : list Event) : Inv (run cands spawns es).
Proof.
  unfold run. induction es as [|e es IH] using rev_ind.
  - apply start_inv.
  - rewrite fold_left_app. cbn [fold_left]. by apply step_inv.
Qed.

(** X12. After any events at most one watchdog is pending, and a pending
    watchdog carries the current token: the callback never finds its token
    stale. *)
Theorem pending_watchdog_is_current (es : list Event) :
  let s := run cands spawns es in
  (length (timers s) <= 1)
  /\ (forall h, h ∈ timers s -> h = timeoutToken s /\ loadingTimeout s = Some h).
Proof.
  intros s. subst s. destruct (run_inv es) as ([Hnil | [Hone Hlt]] & _).
  - rewrite Hnil. split; [cbn; lia|]. intros h Hh. by apply elem_of_nil in Hh.
  - rewrite Hone. split; [cbn; lia|]. intros h Hh.
    apply list_elem_of_singleton in Hh. by subst h.
Qed.

(** X13. After any events a live worker is the worker created from the
    current candidate (from the default URL when the list has no such
    entry), and all it was sent by the session is [uci]. *)
Theorem live_worker_is_current_candidate (es : list Event) :
  let s := run cands spawns es in
  alive s = true ->
  workerRef s = Some (candidateUrl cands (candidateIndex s))
  /\ spawns (candidateUrl cands (candidateIndex s)) = true
  /\ posted s = ["uci"%string].
Proof. intros s. destruct (run_inv es) as (_ & Hc & _). exact Hc. Qed.

(** X14. Once no worker is alive (no candidate was left, or the next one
    could not be created) the session is final: the engine is reported as
    not ready, no watchdog is pending, and no event changes the state. *)
Theorem exhausted_session_is_final (es : list Event) :
  let s := run cands spawns es in
  alive s = false ->
  engineReady s = false /\ timers s = []
  /\ forall es', run cands spawns (es ++ es') = s.
Proof.
  intros s Ha. destruct (run_inv es) as (_ & _ & Hd).
  destruct (Hd Ha) as [Htm Hr]. fold s in Htm, Hr.
  split; [exact Hr|]. split; [exact Htm|].
  intros es'. unfold run. rewrite fold_left_app. fold (run cands spawns es). fold s.
  induction es' as [|e es' IH]; [reflexivity|]. cbn [fold_left].
  assert (step cands spawns e s = s) as ->; [|exact IH].
  destruct e as [m| | |h]; cbn [step]; rewrite ?Ha, ?Htm; reflexivity.
Qed.

Lemma tryNextCandidate_ready (s0 : State) :
  engineReady (snd (tryNextCandidate cands spawns s0)) = true -> engineReady s0 = true.
Proof.
  unfold tryNextCandidate.
  destruct (clearLoadingTimeout_fields (terminateCurrent s0)) as (_ & _ & _ & _ & Hr).
  set (s1 := clearLoadingTimeout (terminateCurrent s0)) in *.
  set (s2 := mkState (S (candidateIndex s1)) (timeoutToken s1) (loadingTimeout s1)
               (timers s1) (workerRef s1) (alive s1) (readyCalls s1) (posted s1)).
  assert (engineReady (setEngineReady false (clearLoadingTimeout s2)) = true ->
          engineReady s0 = true) as Hfail.
  { unfold engineReady, setEngineReady. cbn [readyCalls]. rewrite last_snoc. discriminate. }
  destruct (candidateIndex s2 <? length cands); [|exact Hfail].
  destruct (cands !! candidateIndex s2) as [nextUrl|]; [|exact Hfail].
  destruct (spawns nextUrl); [|exact Hfail].
  cbn [snd]. destruct (setupWorker_fields nextUrl s2) as (_ & _ & _ & Hrc & _).
  unfold engineReady. rewrite Hrc. cbn [readyCalls s2]. rewrite Hr. tauto.
Qed.

Lemma step_ready (e : Event) (s : State) :
  engineReady (step cands spawns e s) = true ->
  engineReady s = true \/ exists m, e = OnMessage m /\ isHandshake m = true.
Proof.
  pose proof tryNextCandidate_ready as Htry.
  destruct e as [m| | |h]; cbn [step].
  - destruct (alive s); [|tauto]. unfold onmessage.
    destruct m as [line|type message].
    + destruct (isReadyText line) eqn:Hl; [|tauto]. intros _. right.
      exists (Line line). by split.
    + destruct (String.eqb type "ready") eqn:Hready.
      { intros _. right. exists (Obj type message). split; [reflexivity|].
        cbn [isHandshake]. by rewrite Hready. }
      destruct (String.eqb type "error").
      { intros H. left. by apply Htry. }
      destruct (String.eqb type "log") eqn:Hlog; [|tauto].
      destruct (Js.truthy message) as [msg|] eqn:Hmsg; [|tauto].
      destruct (isReadyText msg) eqn:Hl; [|tauto]. intros _. right.
      exists (Obj type message). split; [reflexivity|].
      cbn [isHandshake]. by rewrite Hready, Hlog, Hmsg, Hl.
  - destruct (alive s); [|tauto]. intros H. left. by apply Htry.
  - tauto.
  - destruct (existsb (Nat.eqb h) (timers s)); [|tauto].
    unfold watchdog. cbn [timeoutToken].
    destruct (negb (h =? timeoutToken s)); [tauto|].
    unfold engineReady, setEngineReady. cbn [readyCalls]. rewrite last_snoc. discriminate.
Qed.

(** X15. The engine is reported ready only on a handshake message of the
    worker: a line or a log message containing [uciok] or [readyok], or an
    object of type [ready]. *)
Theorem ready_needs_handshake (es : list Event) :
  engineReady (run cands spawns es) = true ->
  exists m, In (OnMessage m) es /\ isHandshake m = true.
Proof.
  unfold run. induction es as [|e es IH] using rev_ind.
  - cbn [fold_left]. unfold start. intros H. exfalso.
    destruct (spawns (default defaultUrl (cands !! 0))).
    + destruct (setupWorker_fields (default defaultUrl (cands !! 0)) init)
        as (_ & _ & _ & Hrc & _).
      unfold engineReady in H. rewrite Hrc in H. discriminate H.
    + apply tryNextCandidate_ready in H. discriminate H.
  - rewrite fold_left_app. cbn [fold_left]. intros H.
    apply step_ready in H as [H | (m & -> & Hm)].
    + destruct (IH H) as (m & Hin & Hm). exists m. split; [|exact Hm].
      apply in_or_app. by left.
    + exists m. split; [|exact Hm]. apply in_or_app. right. by left.
Qed.

Lemma tryNextCandidate_index (s : State) :
  candidateIndex (snd (tryNextCandidate cands spawns s)) = S (candidateIndex s)
  /\ (alive (snd (tryNextCandidate cands spawns s)) = true ->
      S (candidateIndex s) < length cands).
Proof.
  unfold tryNextCandidate.
  destruct (clearLoadingTimeout_fields (terminateCurrent s)) as (Hi & _ & _ & Hal & _).
  cbn [candidateIndex alive terminateCurrent] in Hi, Hal.
  set (s1 := clearLoadingTimeout (terminateCurrent s)) in *.
  set (s2 := mkState (S (candidateIndex s1)) (timeoutToken s1) (loadingTimeout s1)
               (timers s1) (workerRef s1) (alive s1) (readyCalls s1) (posted s1)).
  destruct (reportFailed_fields s2) as (Fi & Fa & _).
  cbn [candidateIndex alive s2] in Fi, Fa. rewrite Hi in Fi. rewrite Hal in Fa.
  assert (candidateIndex (setEngineReady false (clearLoadingTimeout s2)) = S (candidateIndex s)
          /\ (alive (setEngineReady false (clearLoadingTimeout s2)) = true ->
              S (candidateIndex s) < length cands)) as Hfail.
  { split; [exact Fi|]. rewrite Fa. discriminate. }
  cbn [candidateIndex s2]. rewrite Hi.
  destruct (S (candidateIndex s) <? length cands) eqn:Hlt; [|exact Hfail].
  destruct (cands !! S (candidateIndex s)) as [nextUrl|]; [|exact Hfail].
  destruct (spawns nextUrl); [|exact Hfail].
  cbn [snd]. destruct (setupWorker_fields nextUrl s2) as (Si & _).
  cbn [candidateIndex s2] in Si. rewrite Hi in Si. split; [exact Si|].
  intros _. by apply Nat.ltb_lt.
Qed.

Lemma ready_fields (s : State) :
  candidateIndex (setEngineReady true (clearLoadingTimeout s)) = candidateIndex s
  /\ alive (setEngineReady true (clearLoadingTimeout s)) = alive s.
Proof.
  destruct (clearLoadingTimeout_fields s) as (Hi & _ & _ & Hal & _).
  unfold setEngineReady. cbn [candidateIndex alive]. auto.
Qed.

(** What one event does to the candidate index. *)
Lemma step_index (e : Event) (s : State) :
  let s' := step cands spawns e s in
  (candidateIndex s' = candidateIndex s /\ alive s' = alive s)
  \/ (alive s = true /\ candidateIndex s' = S (candidateIndex s)
      /\ (alive s' = true -> S (candidateIndex s) < length cands)).
Proof.
  intros s'. subst s'.
  assert (alive s = true ->
          alive s = true
          /\ candidateIndex (snd (tryNextCandidate cands spawns s)) = S (candidateIndex s)
          /\ (alive (snd (tryNextCandidate cands spawns s)) = true ->
              S (candidateIndex s) < length cands)) as Htry.
  { intros Ha. split; [exact Ha|]. apply tryNextCandidate_index. }
  destruct e as [m| | |h]; cbn [step].
  - destruct (alive s) eqn:Ha; [|by left]. unfold onmessage.
    destruct (ready_fields s) as [Ri Ra]. rewrite Ha in Ra.
    destruct m as [line|type message].
    + destruct (isReadyText line); [|by left]. left. by rewrite Ri, Ra.
    + destruct (String.eqb type "error").
      * right. split; [reflexivity|].
        destruct (String.eqb type "ready").
        -- destruct (tryNextCandidate_index (setEngineReady true (clearLoadingTimeout s)))
             as [Ti Tl].
           rewrite Ri in Ti, Tl. auto.
        -- apply tryNextCandidate_index.
      * assert (candidateIndex (if String.eqb type "ready"
                                then setEngineReady true (clearLoadingTimeout s) else s)
                = candidateIndex s
                /\ alive (if String.eqb type "ready"
                          then setEngineReady true (clearLoadingTimeout s) else s)
                   = true) as [Hi1 Ha1].
        { destruct (String.eqb type "ready"); [by rewrite Ri, Ra|by rewrite Ha]. }
        set (s1 := if String.eqb type "ready"
                   then setEngineReady true (clearLoadingTimeout s) else s) in *.
        destruct (ready_fields s1) as [Ri1 Ra1].
        left. destruct (String.eqb type "log"); [|by rewrite Hi1, Ha1].
        destruct (Js.truthy message) as [msg|]; [|by rewrite Hi1, Ha1].
        destruct (isReadyText msg); [|by rewrite Hi1, Ha1].
        by rewrite Ri1, Ra1, Hi1, Ha1.
  - destruct (alive s) eqn:Ha; [|by left]. right. by apply Htry.
  - by left.
  - destruct (existsb (Nat.eqb h) (timers s)); [|by left]. left.
    unfold watchdog. cbn [timeoutToken].
    destruct (negb (h =? timeoutToken s)); by cbn.
Qed.

Lemma run_index (es : list Event) :
  let s := run cands spawns es in
  candidateIndex s <= Nat.max 1 (length cands)
  /\ (alive s = true -> candidateIndex s < Nat.max 1 (length cands)).
Proof.
  intros s. subst s. unfold run. induction es as [|e es IH] using rev_ind.
  - cbn [fold_left]. unfold start.
    destruct (spawns (default defaultUrl (cands !! 0))).
    + destruct (setupWorker_fields (default defaultUrl (cands !! 0)) init) as (-> & _).
      cbn [candidateIndex init]. lia.
    + destruct (tryNextCandidate_index init) as [-> Hl]. cbn [candidateIndex init] in *.
      split; [lia|]. intros Ha. specialize (Hl Ha). lia.
  - rewrite fold_left_app. cbn [fold_left].
    destruct IH as [IH1 IH2].
    destruct (step_index e (fold_left (fun s e0 => step cands spawns e0 s) es
                              (start cands spawns)))
      as [[-> Ha] | (Ha & -> & Hl)].
    + rewrite Ha. auto.
    + specialize (IH2 Ha). split; [lia|]. intros Ha'. specialize (Hl Ha'). lia.
Qed.

(** X16. The session only moves forward through the candidate list, by at
    most one candidate per event, and never past its end: the chain of
    fallbacks cannot go round. *)
Theorem candidate_index_monotone_bounded (es es' : list Event) :
  candidateIndex (run cands spawns es) <= candidateIndex (run cands spawns (es ++ es'))
  /\ candidateIndex (run cands spawns (es ++ es'))
     <= candidateIndex (run cands spawns es) + length es'
  /\ candidateIndex (run cands spawns (es ++ es')) <= Nat.max 1 (length cands).
Proof.
  split; [|split]; [| |apply run_index].
  - unfold run. rewrite fold_left_app.
    generalize (fold_left (fun s e => step cands spawns e s) es (start cands spawns)).
    induction es' as [|e es' IH]; intros s; [reflexivity|]. cbn [fold_left].
    etransitivity; [|apply IH].
    destruct (step_index e s) as [[-> _] | (_ & -> & _)]; lia.
  - unfold run. rewrite fold_left_app.
    generalize (fold_left (fun s e => step cands spawns e s) es (start cands spawns)).
    induction es' as [|e es' IH]; intros s; [cbn; lia|]. cbn [fold_left length].
    etransitivity; [apply IH|].
    destruct (step_index e s) as [[-> _] | (_ & -> & _)]; lia.
Qed.

End StartupFacts.

Lemma live_worker_is_current_candidate_witness :
  let s := Session.run Scenario.twoCandidates Scenario.allSpawn [Session.OnError] in
  Session.workerRef s
    = Some (Startup.candidateUrl Scenario.twoCandidates (Session.candidateIndex s))
  /\ Scenario.allSpawn
       (Startup.candidateUrl Scenario.twoCandidates (Session.candidateIndex s)) = true
  /\ Session.posted s = ["uci"%string].
Proof.
  apply (live_worker_is_current_candidate Scenario.twoCandidates Scenario.allSpawn
           [Session.OnError]).
  reflexivity.
Defined.

Lemma exhausted_session_is_final_witness :
  let s := Session.run Session.candidates Scenario.allSpawn [Session.OnError] in
  Session.engineReady s = false /\ Session.timers s = []
  /\ forall es', Session.run Session.candidates Scenario.allSpawn ([Session.OnError] ++ es') = s.
Proof.
  apply (exhausted_session_is_final Session.candidates Scenario.allSpawn [Session.OnError]).
  reflexivity.
Defined.

Lemma ready_needs_handshake_witness :
  exists m, In (Session.OnMessage m) [Session.OnMessage (Session.Line "info uciok")]
    /\ Startup.isHandshake m = true.
Proof.
  apply (ready_needs_handshake Session.candidates Scenario.allSpawn
           [Session.OnMessage (Session.Line "info uciok")]).
  reflexivity.
Defined.

(** ** Order of the classifier and suffixes of a move *)

Section GradingFacts.

Import Classifier Grading.

Local Open Scope Z_scope.

Ltac split_tests :=
  repeat match goal with
         | |- context [ (?a <? ?b)%Z ] => destruct (Z.ltb_spec a b); try lia
         | |- context [ (?a <=? ?b)%Z ] => destruct (Z.leb_spec a b); try lia
         | |- context [ (?a =? ?b)%Z ] => destruct (Z.eqb_spec a b); try lia
         | |- context [ bestIsMate ?f ] => destruct (bestIsMate f)
         end;
  cbn; try lia.

(** X17. The classifier is monotone: with the same flags and no mate
    distances, a move that starts from no more and ends with no less than
    another is never given a worse tag; and among moves that keep a forced
    mate, a smaller delay is never given a worse tag. *)
Theorem classifier_is_monotone (b1 b2 p1 p2 d1 d2 : Z) (isMate : bool) :
  (b1 <= b2 -> p2 <= p1 ->
   (severity (classifyMoveByDelta (Some b1) (Some p1) (mkFlags isMate None))
    <= severity (classifyMoveByDelta (Some b2) (Some p2) (mkFlags isMate None)))%nat)
  /\ (d1 <= d2 ->
      (severity (classifyMoveByDelta (Some b1) (Some p1) (mkFlags isMate (Some d1)))
       <= severity (classifyMoveByDelta (Some b2) (Some p2) (mkFlags isMate (Some d2))))%nat).
Proof.
  split.
  - intros Hb Hp. unfold classifyMoveByDelta. cbn [deltaMateForMover bestIsMate orZero].
    destruct isMate; cbn [orb andb]; split_tests.
  - intros Hd. unfold classifyMoveByDelta. cbn [deltaMateForMover]. split_tests.
Qed.

End GradingFacts.

Lemma classifier_is_monotone_witness :
  Nat.le
    (Grading.severity
       (Classifier.classifyMoveByDelta (Some 120%Z) (Some 100%Z)
          (Classifier.mkFlags false None)))
    (Grading.severity
       (Classifier.classifyMoveByDelta (Some 320%Z) (Some (-10)%Z)
          (Classifier.mkFlags false None)))
  /\ Nat.le
       (Grading.severity
          (Classifier.classifyMoveByDelta (Some 120%Z) (Some 100%Z)
             (Classifier.mkFlags false (Some 1%Z))))
       (Grading.severity
          (Classifier.classifyMoveByDelta (Some 320%Z) (Some (-10)%Z)
             (Classifier.mkFlags false (Some 4%Z)))).
Proof.
  destruct (classifier_is_monotone 120 320 100 (-10) 1 4 false) as [H1 H2].
  split; [apply H1; lia | apply H2; lia].
Defined.

Section SuffixFacts.

Import Js Chars.

Lemma append_assoc (a b c : string) : ((a ++ b) ++ c = a ++ (b ++ c))%string.
Proof.
  induction a as [|x a IH]; [reflexivity|].
  change (String x ((a ++ b) ++ c) = String x (a ++ (b ++ c)))%string.
  f_equal. exact IH.
Qed.

Lemma append_nil_r (a : string) : (a ++ "")%string = a.
Proof.
  induction a as [|x a IH]; [reflexivity|].
  change (String x (a ++ "") = String x a)%string. f_equal. exact IH.
Qed.

Lemma rev_acc (s acc : string) : rev acc s = (rev "" s ++ acc)%string.
Proof.
  revert acc. induction s as [|c s IH]; intros acc; [reflexivity|].
  cbn [rev]. rewrite (IH (String c acc)), (IH (String c "")).
  rewrite append_assoc. reflexivity.
Qed.

Lemma rev_append (s t : string) : rev "" (s ++ t) = (rev "" t ++ rev "" s)%string.
Proof.
  induction s as [|c s IH].
  - change (rev "" t = rev "" t ++ "")%string. symmetry. apply append_nil_r.
  - change (rev (String c "") (s ++ t) = rev "" t ++ rev (String c "") s)%string.
    rewrite (rev_acc (s ++ t)), (rev_acc s), IH, append_assoc. reflexivity.
Qed.

Lemma allChars_append (p : ascii -> bool) (s t : string) :
  allChars p (s ++ t) = allChars p s && allChars p t.
Proof.
  induction s as [|c s IH]; [reflexivity|].
  change (p c && allChars p (s ++ t) = (p c && allChars p s) && allChars p t).
  by rewrite IH, andb_assoc.
Qed.

Lemma allChars_rev (p : ascii -> bool) (s : string) :
  allChars p (rev "" s) = allChars p s.
Proof.
  induction s as [|c s IH]; [reflexivity|].
  cbn [rev]. rewrite rev_acc, allChars_append, IH. cbn [allChars].
  rewrite andb_true_r. apply andb_comm.
Qed.

Lemma dropWhile_all (p : ascii -> bool) (m s : string) :
  allChars p m = true -> dropWhile p (m ++ s) = dropWhile p s.
Proof.
  induction m as [|c m IH]; intros H; [reflexivity|].
  cbn [allChars] in H. apply andb_true_iff in H as [Hc Hm].
  change (dropWhile p (String c (m ++ s)) = dropWhile p s).
  cbn [dropWhile]. rewrite Hc. by apply IH.
Qed.

Lemma dropWhileEnd_marks (p : ascii -> bool) (s m : string) :
  allChars p m = true -> dropWhileEnd p (s ++ m) = dropWhileEnd p s.
Proof.
  intros H. unfold dropWhileEnd. rewrite rev_append, dropWhile_all; [reflexivity|].
  by rewrite allChars_rev.
Qed.

(** X18. Check, mate and annotation marks at the end of a move do not count
    when moves are compared: a move with any run of [+], [#], [!] and [?]
    appended is normalised to the same text. *)
Theorem normalizeSan_ignores_marks (s m : string) :
  allChars isSuffixMark m = true ->
  normalizeSan (Some (s ++ m)%string) = normalizeSan (Some s).
Proof.
  intros Hm. unfold normalizeSan.
  destruct s as [|c s].
  - change ("" ++ m)%string with m. destruct m as [|c m]; [reflexivity|].
    cbn [truthy]. f_equal.
    change (String c m) with ("" ++ String c m)%string.
    rewrite (dropWhileEnd_marks isSuffixMark "" (String c m) Hm). reflexivity.
  - change (String c s ++ m)%string with (String c (s ++ m)). cbn [truthy].
    f_equal. f_equal.
    change (String c (s ++ m)) with (String c s ++ m)%string.
    by apply dropWhileEnd_marks.
Qed.

Lemma rev_involutive (s : string) : rev "" (rev "" s) = s.
Proof.
  induction s as [|c s IH]; [reflexivity|].
  cbn [rev]. rewrite (rev_acc s (String c "")), rev_append, IH. reflexivity.
Qed.

Lemma append_inv_head (s a b : string) : (s ++ a = s ++ b)%string -> a = b.
Proof.
  induction s as [|c s IH]; intros H; [exact H|].
  change (String c (s ++ a) = String c (s ++ b))%string in H.
  injection H as H. by apply IH.
Qed.

Lemma append_inv_tail (a b s : string) : (a ++ s = b ++ s)%string -> a = b.
Proof.
  intros H. apply (f_equal (rev "")) in H. rewrite !rev_append in H.
  apply append_inv_head in H. apply (f_equal (rev "")) in H.
  by rewrite !rev_involutive in H.
Qed.

(** X30. Two positions never share a cache key under the same search
    options: the key determines the FEN. *)
Theorem cacheKey_separates_positions (fen1 fen2 : string) (movetime : option Z)
    (depth multiPV : Z) :
  Channel.cacheKey fen1 movetime depth multiPV = Channel.cacheKey fen2 movetime depth multiPV ->
  fen1 = fen2.
Proof.
  unfold Channel.cacheKey. intros H. by apply append_inv_tail in H.
Qed.

End SuffixFacts.

Lemma normalizeSan_ignores_marks_witness :
  normalizeSan (Some ("Qxf7" ++ "#!!")%string) = normalizeSan (Some "Qxf7"%string).
Proof. apply (normalizeSan_ignores_marks "Qxf7" "#!!"). reflexivity. Defined.

Lemma cacheKey_separates_positions_witness : Scenario.startFen = Scenario.startFen.
Proof.
  apply (cacheKey_separates_positions Scenario.startFen Scenario.startFen (Some 80%Z) 12 3).
  reflexivity.
Defined.

(** ** What a run leaves behind *)

Section FootprintFacts.

Import Channel Footprint.

Variable Board : Type.
Variable chessLoad : string -> option Board.
Variable isCheckmate : Board -> bool.
Variable isStalemate : Board -> bool.
Variable engine : list string -> option Eval.
Variable getMovedPieceType : string -> string -> option string.
Variable offeredSacrificeLossMagnitude : string -> string -> option string -> option Z.
Variable uciToSan : string -> string -> option string.
Variable sans : list string.

Local Abbreviation analyzeOnce :=
  (analyzeFenOnce Board chessLoad isCheckmate isStalemate engine).
Local Abbreviation fastLoopBody :=
  (fastBody Board chessLoad isCheckmate isStalemate engine).
Local Abbreviation stableLoopBody :=
  (stableBody Board chessLoad isCheckmate isStalemate engine).
Local Abbreviation deepLoopBody :=
  (deepBody Board chessLoad isCheckmate isStalemate engine
     getMovedPieceType offeredSacrificeLossMagnitude uciToSan sans).
Local Abbreviation runAll :=
  (analyzeAll Board chessLoad isCheckmate isStalemate engine
     getMovedPieceType offeredSacrificeLossMagnitude uciToSan sans).

Local Open Scope nat_scope.

Lemma searchCount_app (a b : list string) :
  searchCount (a ++ b) = searchCount a + searchCount b.
Proof. unfold searchCount. by rewrite List.filter_app, length_app. Qed.

Lemma extendsBy_refl (n : nat) (w : World) : extendsBy n w w.
Proof.
  repeat split; auto. exists []. rewrite app_nil_r. split; [reflexivity|cbn; lia].
Qed.

Lemma extendsBy_trans (n m : nat) (a b c : World) :
  extendsBy n a b -> extendsBy m b c -> extendsBy (n + m) a c.
Proof.
  intros (H1 & H2 & H3 & e1 & H4 & H5) (G1 & G2 & G3 & e2 & G4 & G5).
  split; [congruence|]. split; [congruence|]. split; [auto|].
  exists (e1 ++ e2). rewrite G4, H4, app_assoc, searchCount_app. split; [reflexivity|lia].
Qed.

Lemma extendsBy_weaken (n m : nat) (a b : World) :
  n <= m -> extendsBy n a b -> extendsBy m a b.
Proof.
  intros Hnm (H1 & H2 & H3 & e1 & H4 & H5).
  repeat split; auto. exists e1. split; [exact H4|lia].
Qed.

Lemma setCache_insert_extends (k : string) (e : Eval) (w : World) :
  extendsBy 0 w (setCache (<[k := e]> (cache w)) w).
Proof.
  unfold setCache. split; [reflexivity|]. split; [reflexivity|]. split.
  - intros k' Hk'. cbn [cache]. destruct (decide (k = k')) as [->|Hne].
    + rewrite lookup_insert_eq. eauto.
    + by rewrite lookup_insert_ne.
  - exists []. cbn [sent]. rewrite app_nil_r. split; [reflexivity|cbn; lia].
Qed.

Lemma post_extends (cmds : list string) (w : World) :
  extendsBy (searchCount cmds) w (post cmds w).
Proof.
  unfold post. repeat split; auto. exists cmds. split; [reflexivity|lia].
Qed.

Lemma searchCommands_count (fen : string) (mt : option Z) (depth mpv : Z) :
  searchCount (searchCommands fen mt depth mpv) = 1.
Proof. destruct mt; reflexivity. Qed.

Lemma prepCommands_count (mpv : Z) : searchCount (prepCommands mpv) = 0.
Proof. reflexivity. Qed.

Lemma analyzeFenOnce_extends (fen : string) (a : OptsArg) (mpv : option Z) (w : World) :
  extendsBy 1 w (snd (analyzeOnce fen a mpv w)).
Proof.
  unfold analyzeFenOnce.
  destruct (negb (workerPresent w)); [apply extendsBy_refl|].
  destruct (resolveOpts a mpv) as [[depth multiPV] movetime].
  destruct (getTerminalEval Board chessLoad isCheckmate isStalemate fen).
  - cbn [snd]. apply (extendsBy_weaken 0); [lia|apply setCache_insert_extends].
  - destruct (cache w !! cacheKey fen movetime depth multiPV); cbn [snd].
    + apply extendsBy_refl.
    + rewrite <- (searchCommands_count fen movetime depth multiPV) at 1.
      apply post_extends.
Qed.

Lemma fastBody_extends (depth : Z) (o : AllOpts) (i : nat) (fen : string)
    (s : gmap nat Eval * World) :
  extendsBy 1 (snd s) (snd (fastLoopBody depth o i fen s)).
Proof.
  unfold fastBody. destruct s as [next w]. cbn [snd].
  match goal with
  | |- context [ analyzeOnce fen ?a None w ] =>
      pose proof (analyzeFenOnce_extends fen a None w) as H;
      destruct (analyzeOnce fen a None w) as [[e|] w1]
  end; cbn [snd] in *; [|exact H].
  match goal with
  | |- extendsBy 1 w (setCache (<[?k := e]> (cache w1)) w1) =>
      pose proof (extendsBy_trans 1 0 _ _ _ H (setCache_insert_extends k e w1)) as H'
  end.
  rewrite Nat.add_0_r in H'. exact H'.
Qed.

Lemma stableBody_extends (o : AllOpts) (next : gmap nat Eval) (i : nat) (fen : string)
    (s : gmap nat (option Eval) * World) :
  extendsBy 1 (snd s) (snd (stableLoopBody o next i fen s)).
Proof.
  unfold stableBody. destruct s as [fe w]. cbn [snd].
  pose proof (analyzeFenOnce_extends fen (stableOpts o) None w) as H.
  destruct (analyzeOnce fen (stableOpts o) None w) as [[e|] w1]; exact H.
Qed.

Lemma deepBody_extends (depth : Z) (o : AllOpts) (i : nat) (fen : string)
    (s : gmap nat (option Eval) * World) :
  extendsBy 1 (snd s) (snd (deepLoopBody depth o i fen s)).
Proof.
  unfold deepBody. destruct s as [fe w]. cbn [snd].
  destruct (Js.truthy (Some fen)); [|apply extendsBy_refl].
  destruct (fe !! i) as [[cur|]|]; try apply extendsBy_refl.
  destruct (Js.truthy (sans !! i)) as [playedSan|]; [|apply extendsBy_refl].
  destruct (negb _); [apply extendsBy_refl|].
  destruct (sameMove _ playedSan); [apply extendsBy_refl|].
  pose proof (analyzeFenOnce_extends fen (deepOpts depth o) None w) as H.
  destruct (analyzeOnce fen (deepOpts depth o) None w) as [[e|] w1]; cbn [snd] in *;
    [destruct (sameMove _ playedSan)|]; exact H.
Qed.

Lemma loop_extends {M : Type} (body : nat -> string -> M * World -> M * World) :
  (forall i x s, extendsBy 1 (snd s) (snd (body i x s))) ->
  forall (l : list string) (i : nat) (s : M * World),
    extendsBy (length l) (snd s) (snd (forEachFrom body i l s)).
Proof.
  intros Hbody l. induction l as [|x l IH]; intros i s; cbn [forEachFrom length].
  - apply extendsBy_refl.
  - change (S (length l)) with (1 + length l).
    eapply extendsBy_trans; [apply Hbody|apply IH].
Qed.

(** X19. What a run of [analyzeAll] leaves behind, whatever the engine
    answers: the worker and the readiness flag are untouched, no cache key
    is lost, the messages already posted are kept in front of the new ones,
    and the new ones ask for at most one search per position in the first
    pass, one per position in the stable pass when it runs, and one per move
    in the verification pass. *)
Theorem analyzeAll_footprint (depth : Z) (fenList : list string) (o : AllOpts) (w : World) :
  extendsBy (searchBudget fenList o) w (runAll depth fenList o w).
Proof.
  unfold analyzeAll.
  destruct (negb (engineReady w) || (length fenList =? 0)); [apply extendsBy_refl|].
  destruct (negb (workerPresent w)); [apply extendsBy_refl|].
  assert (extendsBy (length fenList) w
            (snd (fastPass Board chessLoad isCheckmate isStalemate engine
                    depth fenList o w))) as H1.
  { unfold fastPass.
    eapply (extendsBy_trans 0 (length fenList));
      [|apply (loop_extends (fastLoopBody depth o) (fastBody_extends depth o))].
    cbn [snd]. rewrite <- (prepCommands_count (if fastFirstPass o then multiPV o
                                              else stableMultiPV o)).
    apply post_extends. }
  destruct (fastPass Board chessLoad isCheckmate isStalemate engine depth fenList o w)
    as [next w1]. cbn [snd] in H1.
  assert (extendsBy (if stableFinalPass o then length fenList else 0) w1
            (snd (stablePass Board chessLoad isCheckmate isStalemate engine
                    fenList o (next, w1)))) as H2.
  { unfold stablePass. destruct (stableFinalPass o); [|apply extendsBy_refl].
    eapply (extendsBy_trans 0 (length fenList));
      [|apply (loop_extends (stableLoopBody o next) (stableBody_extends o next))].
    cbn [snd]. rewrite <- (prepCommands_count (stableMultiPV o)). apply post_extends. }
  destruct (stablePass Board chessLoad isCheckmate isStalemate engine fenList o (next, w1))
    as [fe w2]. cbn [snd] in H2.
  assert (extendsBy (length fenList - 1) w2
            (snd (deepPass Board chessLoad isCheckmate isStalemate engine
                    getMovedPieceType offeredSacrificeLossMagnitude uciToSan sans
                    depth fenList o (fe, w2)))) as H3.
  { unfold deepPass.
    pose proof (loop_extends (deepLoopBody depth o) (deepBody_extends depth o)
                  (take (length fenList - 1) fenList) 0 (fe, w2)) as H.
    rewrite length_take in H. cbn [snd] in H.
    eapply extendsBy_weaken; [|exact H]. lia. }
  destruct (deepPass Board chessLoad isCheckmate isStalemate engine
              getMovedPieceType offeredSacrificeLossMagnitude uciToSan sans
              depth fenList o (fe, w2)) as [fin w3]. cbn [snd] in H3.
  pose proof (extendsBy_trans _ _ _ _ _ (extendsBy_trans _ _ _ _ _ H1 H2) H3) as H.
  unfold searchBudget. destruct H as (A1 & A2 & A3 & A4).
  unfold setEvals. repeat split; auto.
Qed.

Lemma fastBody_frame (depth : Z) (o : AllOpts) (k j : nat) (x : string)
    (s : gmap nat Eval * World) :
  j <> k -> fst (fastLoopBody depth o j x s) !! k = fst s !! k.
Proof.
  intros Hjk. unfold fastBody. destruct s as [next w].
  match goal with
  | |- context [ analyzeOnce x ?a None w ] =>
      destruct (analyzeOnce x a None w) as [[e|] w1]
  end; cbn [fst]; [by apply lookup_insert_ne|reflexivity].
Qed.

Lemma deepBody_keeps (depth : Z) (o : AllOpts) (i k : nat) (fen : string)
    (s : gmap nat (option Eval) * World) :
  is_Some (fst s !! k) -> is_Some (fst (deepLoopBody depth o i fen s) !! k).
Proof.
  intros Hk. unfold deepBody. destruct s as [fe w]. cbn [fst] in Hk.
  destruct (Js.truthy (Some fen)); [|exact Hk].
  destruct (fe !! i) as [[cur|]|] eqn:Hi; try exact Hk.
  destruct (Js.truthy (sans !! i)) as [playedSan|]; [|exact Hk].
  destruct (negb _); [exact Hk|].
  destruct (sameMove _ playedSan); [exact Hk|].
  destruct (analyzeOnce fen (deepOpts depth o) None w) as [[e|] w1]; cbn [fst];
    [destruct (sameMove _ playedSan); cbn [fst]|]; try exact Hk.
  destruct (decide (i = k)) as [->|Hne].
  - rewrite lookup_insert_eq. eauto.
  - by rewrite lookup_insert_ne.
Qed.

(** X20. A run of [analyzeAll] that starts (engine ready, worker present,
    at least one position) replaces the recorded evaluations: afterwards
    there is no entry at or beyond the number of positions, whatever was
    recorded before, and when the stable pass runs every position has an
    entry, an evaluation or null. *)
Theorem analyzeAll_replaces_evals
    (depth : Z) (fenList : list string) (o : AllOpts) (w : World) :
  engineReady w = true -> workerPresent w = true -> fenList <> [] ->
  let w' := runAll depth fenList o w in
  (forall i, length fenList <= i -> evals w' !! i = None)
  /\ (stableFinalPass o = true ->
      forall i, i < length fenList -> is_Some (evals w' !! i)).
Proof.
  intros Hready Hworker Hne w'. subst w'. unfold analyzeAll.
  rewrite Hready, Hworker. cbn [negb orb].
  destruct (Nat.eqb_spec (length fenList) 0) as [H0|_];
    [by destruct fenList|].
  set (s1 := fastPass Board chessLoad isCheckmate isStalemate engine depth fenList o w).
  set (s2 := stablePass Board chessLoad isCheckmate isStalemate engine fenList o s1).
  pose proof (deepPass_at Board chessLoad isCheckmate isStalemate engine
                getMovedPieceType offeredSacrificeLossMagnitude uciToSan sans
                depth fenList o s2) as Hat.
  pose proof (deepPass_last Board chessLoad isCheckmate isStalemate engine
                getMovedPieceType offeredSacrificeLossMagnitude uciToSan sans
                depth fenList o s2) as Hlast.
  destruct (deepPass Board chessLoad isCheckmate isStalemate engine
              getMovedPieceType offeredSacrificeLossMagnitude uciToSan sans
              depth fenList o s2) as [fin w3] eqn:Hdeep.
  cbn [fst] in Hat, Hlast. cbn [setEvals evals]. split.
  - intros i Hi. rewrite Hlast by lia. subst s2. unfold stablePass.
    destruct s1 as [next w1] eqn:Hs1.
    assert (next !! i = None) as Hnext.
    { change next with (fst (next, w1)). rewrite <- Hs1. subst s1. unfold fastPass.
      rewrite (forEachFrom_beyond (fastLoopBody depth o) i
                 (fun j x s Hj => fastBody_frame depth o i j x s Hj));
        [apply lookup_empty|].
      by apply lookup_ge_None_2. }
    destruct (stableFinalPass o).
    + rewrite (forEachFrom_beyond (stableLoopBody o next) i
                 (fun j x s Hj =>
                    stableBody_frame Board chessLoad isCheckmate isStalemate engine
                      o next i j x s Hj));
        [apply lookup_empty|].
      by apply lookup_ge_None_2.
    + cbn [fst]. by rewrite lookup_fmap, Hnext.
  - intros Hst i Hi.
    destruct (lookup_lt_is_Some_2 fenList i Hi) as [fen Hfen].
    assert (is_Some (fst s2 !! i)) as Hs2.
    { subst s2. destruct s1 as [next w1].
      rewrite (stablePass_at Board chessLoad isCheckmate isStalemate engine
                 fenList o next w1 i fen Hst Hfen). eauto. }
    destruct (decide (S i < length fenList)) as [Hlt|Hge].
    + destruct (Hat i fen Hfen Hlt) as [Hbefore ->].
      apply deepBody_keeps. by rewrite Hbefore.
    + rewrite Hlast by lia. exact Hs2.
Qed.

End FootprintFacts.

Lemma analyzeAll_replaces_evals_witness :
  let w' := Scenario.analyze "d2d3" 12 Scenario.italianGame Channel.defaultAllOpts
              Scenario.readyWorld in
  (forall i, (length Scenario.italianGame <= i)%nat -> Channel.evals w' !! i = None)
  /\ (Channel.stableFinalPass Channel.defaultAllOpts = true ->
      forall i, (i < length Scenario.italianGame)%nat -> is_Some (Channel.evals w' !! i)).
Proof.
  apply (analyzeAll_replaces_evals string Scenario.chessLoad Scenario.isCheckmate
           Scenario.isStalemate (Scenario.engine "d2d3") Scenario.getMovedPieceType
           Scenario.offeredSacrificeLossMagnitude Scenario.uciToSan Scenario.italianSans
           12 Scenario.italianGame Channel.defaultAllOpts Scenario.readyWorld).
  - reflexivity.
  - reflexivity.
  - discriminate.
Defined.

(** ** Evaluation bar and evaluation chart *)

Section BarFacts.

Import Bar.

Local Open Scope R_scope.




Lemma clamp10_sign (p : R) :
  (0 < p -> 0 < Rmax (-10) (Rmin 10 p))
  /\ (p < 0 -> Rmax (-10) (Rmin 10 p) < 0)
  /\ (p = 0 -> Rmax (-10) (Rmin 10 p) = 0).
Proof. unfold Rmax, Rmin. repeat destruct (Rle_dec _ _); lra. Qed.

Lemma clamp10_mono (p q : R) :
  p <= q -> Rmax (-10) (Rmin 10 p) <= Rmax (-10) (Rmin 10 q).
Proof. unfold Rmax, Rmin. repeat destruct (Rle_dec _ _); lra. Qed.

Lemma clamp99_mono (p q : R) : p <= q -> Rmax 1 (Rmin 99 p) <= Rmax 1 (Rmin 99 q).
Proof. unfold Rmax, Rmin. repeat destruct (Rle_dec _ _); lra. Qed.

Lemma clamp99_sign (p : R) :
  (50 < p -> 50 < Rmax 1 (Rmin 99 p))
  /\ (p < 50 -> Rmax 1 (Rmin 99 p) < 50)
  /\ (p = 50 -> Rmax 1 (Rmin 99 p) = 50).
Proof. unfold Rmax, Rmin. repeat destruct (Rle_dec _ _); lra. Qed.

Lemma pawnsToPct_bounds (p : R) : 1 <= pawnsToPct p <= 99.
Proof.
  unfold pawnsToPct. cbv zeta. split; [apply Rmax_l|].
  apply Rmax_lub; [lra|apply Rmin_l].
Qed.


Lemma logistic_sign (x : R) :
  (0 < x -> 50 < 100 / (1 + exp (- (0.85) * x)))
  /\ (x < 0 -> 100 / (1 + exp (- (0.85) * x)) < 50)
  /\ (x = 0 -> 100 / (1 + exp (- (0.85) * x)) = 50).
Proof.
  pose proof (exp_pos (- (0.85) * x)) as Hpos.
  assert (forall E, 0 < E -> E < 1 -> 50 < 100 / (1 + E)) as Hlt.
  { intros E HE H1. apply (Rmult_lt_reg_r (1 + E)); [lra|].
    unfold Rdiv. rewrite Rmult_assoc, Rinv_l by lra. lra. }
  assert (forall E, 1 < E -> 100 / (1 + E) < 50) as Hgt.
  { intros E H1. apply (Rmult_lt_reg_r (1 + E)); [lra|].
    unfold Rdiv. rewrite Rmult_assoc, Rinv_l by lra. lra. }
  split; [|split].
  - intros Hx. apply Hlt; [exact Hpos|]. rewrite <- exp_0. apply exp_increasing. lra.
  - intros Hx. apply Hgt. rewrite <- exp_0. apply exp_increasing. lra.
  - intros ->. rewrite Rmult_0_r, exp_0. lra.
Qed.

Lemma pawnsToPct_sign (p : R) :
  (0 < p <-> 50 < pawnsToPct p) /\ (p < 0 <-> pawnsToPct p < 50).
Proof.
  unfold pawnsToPct. cbv zeta.
  destruct (clamp10_sign p) as (C1 & C2 & C3).
  set (x := Rmax (-10) (Rmin 10 p)) in *.
  destruct (logistic_sign x) as (L1 & L2 & L3).
  set (q := 100 / (1 + exp (- (0.85) * x))) in *.
  destruct (clamp99_sign q) as (Q1 & Q2 & Q3).
  destruct (Rtotal_order p 0) as [Hp | [Hp | Hp]].
  - pose proof (Q2 (L2 (C2 Hp))). split; split; intros; lra.
  - pose proof (Q3 (L3 (C3 Hp))). split; split; intros; lra.
  - pose proof (Q1 (L1 (C1 Hp))). split; split; intros; lra.
Qed.

Lemma pawnsToPct_mono (p q : R) : p <= q -> pawnsToPct p <= pawnsToPct q.
Proof.
  intros Hpq. unfold pawnsToPct. cbv zeta. apply clamp99_mono.
  pose proof (clamp10_mono p q Hpq) as Hx.
  set (x := Rmax (-10) (Rmin 10 p)) in *. set (y := Rmax (-10) (Rmin 10 q)) in *.
  pose proof (exp_pos (- (0.85) * x)) as Ex. pose proof (exp_pos (- (0.85) * y)) as Ey.
  assert (exp (- (0.85) * y) <= exp (- (0.85) * x)) as Hexp.
  { destruct (Req_dec x y) as [->|Hne]; [lra|].
    left. apply exp_increasing. lra. }
  unfold Rdiv. apply Rmult_le_compat_l; [lra|].
  apply Rinv_le_contravar; lra.
Qed.

(** X21. The white part of the evaluation bar is between 1% and 99% of the
    bar, except on a checkmate (mate 0), where it is all or nothing: 100%
    when Black is to move and mated, and 0% otherwise. *)
Theorem bar_fill_bounds (evaluation : option Eval) (sideToMove : option string) :
  match evaluation with
  | Some (mkEval (Mate 0) _ _) =>
      percentage evaluation sideToMove = (if sideIs sideToMove "b" then 100 else 0)
  | _ => 1 <= percentage evaluation sideToMove <= 99
  end.
Proof.
  destruct evaluation as [[[c|m] bm lines]|]; try apply pawnsToPct_bounds.
  destruct m as [|m|m]; [reflexivity| |]; cbn [percentage];
    change (Z.pos m =? 0)%Z with false; change (Z.neg m =? 0)%Z with false;
    cbv iota; repeat match goal with |- context [ if ?c then _ else _ ] => destruct c end;
    lra.
Qed.




(** X23. The chart and the bar agree on who is better: for an evaluation
    whose top-level score is the score of its own line of rank 1 (as the
    message handler builds it) and a side to move that is White or Black,
    the chart value is positive exactly when the bar is more than half
    white, and negative exactly when it is less than half white. *)
Theorem chart_and_bar_agree (e : Eval) (sideToMove : option string) (p : R) :
  sideIs sideToMove "w" = true \/ sideIs sideToMove "b" = true ->
  (forall x, x ∈ multipv e -> rank x = 1%Z -> score e = pv_score x) ->
  evalToPawns (Some e) sideToMove = Some p ->
  (0 < p <-> 50 < percentage (Some e) sideToMove)
  /\ (p < 0 <-> percentage (Some e) sideToMove < 50).
Proof.
  intros Hside Hpv Hp.
  assert (sideIs sideToMove "w" = negb (sideIs sideToMove "b")) as Hwb.
  { destruct sideToMove as [s|]; [|destruct Hside; discriminate].
    cbn [sideIs] in *. destruct (String.eqb_spec s "w") as [->|Hw]; [reflexivity|].
    destruct (String.eqb_spec s "b") as [->|Hb]; [reflexivity|].
    destruct Hside; discriminate. }
  destruct e as [[c|m] bm lines]; cbn [evalToPawns score] in Hp.
  - assert (pv1Mate (mkEval (Cp c) bm lines) = None) as Hnone.
    { unfold pv1Mate. cbn [multipv].
      destruct (List.find _ lines) as [pv1|] eqn:Hfind; [|reflexivity].
      apply find_some in Hfind as [Hin Hrank]. apply Z.eqb_eq in Hrank.
      apply list_elem_of_In in Hin.
      specialize (Hpv pv1 Hin Hrank). cbn [score] in Hpv. by rewrite <- Hpv. }
    injection Hp as <-.
    unfold percentage, evalToWhitePawns. cbn [score]. rewrite Hnone.
    replace (IZR (c * (if sideIs sideToMove "b" then -1 else 1)) / 100)
      with (IZR (if sideIs sideToMove "b" then (- c)%Z else c) / 100)
      by (destruct (sideIs sideToMove "b"); [rewrite Z.mul_comm|rewrite Z.mul_1_r];
          reflexivity).
    apply pawnsToPct_sign.
  - unfold percentage. rewrite Hwb in *.
    destruct (Z.eqb_spec m 0).
    + injection Hp as <-. destruct (sideIs sideToMove "b"); cbn [negb];
        split; split; intros; lra.
    + injection Hp as <-.
      destruct (Z.ltb_spec 0 (if negb (sideIs sideToMove "b") then m else (- m)%Z));
        split; split; intros; lra.
Qed.

(** X24. Among centipawn evaluations the bar is monotone: a score that is
    no smaller from White's side (no smaller with White to move, no larger
    with Black to move) never gives a smaller white part. *)
Theorem bar_fill_monotone (e1 e2 : Eval) (c1 c2 : Z) (sideToMove : option string) :
  score e1 = Cp c1 -> score e2 = Cp c2 ->
  pv1Mate e1 = None -> pv1Mate e2 = None ->
  (if sideIs sideToMove "b" then c2 <= c1 else c1 <= c2)%Z ->
  percentage (Some e1) sideToMove <= percentage (Some e2) sideToMove.
Proof.
  intros H1 H2 P1 P2 Hc.
  destruct e1 as [s1 b1 l1], e2 as [s2 b2 l2]. cbn [score] in H1, H2. subst s1 s2.
  unfold percentage, evalToWhitePawns. cbn [score]. rewrite P1, P2.
  apply pawnsToPct_mono.
  apply Rmult_le_compat_r; [lra|]. apply IZR_le.
  destruct (sideIs sideToMove "b"); lia.
Qed.

Lemma pawnsToPct_zero : pawnsToPct 0 = 50.
Proof.
  unfold pawnsToPct. cbv zeta.
  destruct (clamp10_sign 0) as (_ & _ & C3). rewrite (C3 eq_refl).
  destruct (logistic_sign 0) as (_ & _ & L3).
  destruct (clamp99_sign (100 / (1 + exp (- (0.85) * 0)))) as (_ & _ & Q3).
  apply Q3, L3. reflexivity.
Qed.

Section TerminalBar.

Variable Board : Type.
Variable chessLoad : string -> option Board.
Variable isCheckmate : Board -> bool.
Variable isStalemate : Board -> bool.

(** X29. On a finished game the bar does not depend on the recorded
    evaluations: on a checkmate position it is all white when Black is to
    move (and mated) and all black otherwise, and on a stalemate position it
    is exactly half white. *)
Theorem bar_on_terminal_position
    (fens : list string) (idx : nat) (evals : gmap nat (option Eval))
    (fen : string) (g : Board) :
  fens !! idx = Some fen -> fen <> ""%string -> chessLoad fen = Some g ->
  (isCheckmate g = true ->
   barFill Board chessLoad isCheckmate isStalemate fens idx evals
   = if sideIs (Js.field1 fen) "b" then 100 else 0)
  /\ (isCheckmate g = false -> isStalemate g = true ->
      barFill Board chessLoad isCheckmate isStalemate fens idx evals = 50).
Proof.
  intros Hfen Hne Hload. unfold barFill, effective. rewrite Hfen.
  assert (Js.truthy (Some fen) = Some fen) as -> by (destruct fen; [congruence|reflexivity]).
  unfold Channel.getTerminalEval. rewrite Hload. split.
  - intros ->. reflexivity.
  - intros -> ->. cbn [fst snd percentage evalToWhitePawns score pv1Mate multipv List.find].
    destruct (sideIs (Js.field1 fen) "b"); [change (- 0)%Z with 0%Z|];
      replace (IZR 0 / 100) with 0 by (unfold Rdiv; lra); apply pawnsToPct_zero.
Qed.

End TerminalBar.

End BarFacts.

Lemma bar_on_terminal_position_witness :
  Bar.barFill string Scenario.chessLoad Scenario.isCheckmate Scenario.isStalemate
    [Scenario.startFen; Scenario.foolsMateFen] 1 ∅ = 0%R.
Proof.
  destruct (bar_on_terminal_position string Scenario.chessLoad Scenario.isCheckmate
              Scenario.isStalemate [Scenario.startFen; Scenario.foolsMateFen] 1 ∅
              Scenario.foolsMateFen Scenario.foolsMateFen) as [H _].
  - reflexivity.
  - discriminate.
  - reflexivity.
  - exact (H eq_refl).
Defined.


Lemma chart_and_bar_agree_witness :
  ((0 < -10 <-> 50 < Bar.percentage (Some Cases.mated) (Some "w"%string))
   /\ (-10 < 0 <-> Bar.percentage (Some Cases.mated) (Some "w"%string) < 50))%R.
Proof.
  apply (chart_and_bar_agree Cases.mated (Some "w"%string) (-10)%R).
  - left. reflexivity.
  - intros x Hx. cbn in Hx. by apply elem_of_nil in Hx.
  - reflexivity.
Defined.

Lemma bar_fill_monotone_witness :
  (Bar.percentage (Some (Scenario.evalOf (Cp 30) "e2e4")) (Some "b"%string)
   <= Bar.percentage (Some (Scenario.evalOf (Cp (-45)) "e2e4")) (Some "b"%string))%R.
Proof.
  apply (bar_fill_monotone (Scenario.evalOf (Cp 30) "e2e4")
           (Scenario.evalOf (Cp (-45)) "e2e4") 30 (-45) (Some "b"%string)).
  - reflexivity.
  - reflexivity.
  - reflexivity.
  - reflexivity.
  - cbn. lia.
Defined.

(** ** Captured pieces *)

Section CaptureFacts.

Import Captures.

Variable Board : Type.
Variable move : Board -> Move -> Board.
Variable fen : Board -> string.
Variable start : Board.

Local Abbreviation walkOf := (walkMoves Board move fen start).

Local Open Scope nat_scope.

Lemma getCount_insert (c : Caps) (k t : string) (n : nat) :
  getCount (<[k := n]> c) t = if decide (k = t) then n else getCount c t.
Proof.
  unfold getCount. destruct (decide (k = t)) as [->|Hne].
  - by rewrite lookup_insert_eq.
  - by rewrite lookup_insert_ne.
Qed.

Lemma getCount_empty (t : string) : getCount emptyCaps t = 0.
Proof.
  unfold emptyCaps. rewrite !getCount_insert.
  repeat destruct (decide _); reflexivity.
Qed.

Lemma getCount_bump (acc : Caps) (t t' : string) :
  getCount (bumpCap acc t) t' = getCount acc t' + (if decide (t = t') then 1 else 0).
Proof.
  unfold bumpCap. rewrite getCount_insert.
  destruct (decide (t = t')) as [->|]; lia.
Qed.

Lemma capturesOf_snoc (byWhite : bool) (t : string) (ms : list Move) (mv : Move) :
  capturesOf byWhite t (ms ++ [mv])
  = capturesOf byWhite t ms
    + (if bool_decide (Js.truthy (captured mv) = Some t)
          && Bool.eqb (String.eqb (color mv) "w") byWhite
       then 1 else 0).
Proof.
  unfold capturesOf. rewrite List.filter_app, length_app. cbn [List.filter].
  destruct (_ && _); reflexivity.
Qed.

Lemma walk_snoc (ms : list Move) (mv : Move) :
  walkOf (ms ++ [mv]) = walkBody Board move fen (walkOf ms) mv.
Proof. unfold walkMoves. by rewrite fold_left_app. Qed.

(** What the loop has built after the moves [ms]. *)
Lemma walk_state (ms : list Move) :
  let st := walkOf ms in
  length (fens st) = S (length ms)
  /\ sans st = List.map san ms
  /\ length (capsProgress st) = S (length ms)
  /\ capsProgress st !! length ms = Some (accWhite st, accBlack st)
  /\ (forall t, getCount (accWhite st) t = capturesOf true t ms
                /\ getCount (accBlack st) t = capturesOf false t ms).
Proof.
  induction ms as [|mv ms IH] using rev_ind.
  - cbn. repeat split; try reflexivity; apply getCount_empty.
  - destruct IH as (Hf & Hs & Hc & Hl & Hcount).
    rewrite walk_snoc. set (st := walkOf ms) in *.
    unfold walkBody. cbn [fens sans capsProgress accWhite accBlack].
    rewrite !length_app, Hf, Hc, Hs, List.map_app. cbn [length List.map].
    split; [lia|]. split; [reflexivity|]. split; [lia|]. split.
    + replace (length ms + 1) with (length (capsProgress st) + 0) by lia.
      rewrite lookup_app_r by lia.
      replace (length (capsProgress st) + 0 - length (capsProgress st)) with 0 by lia.
      reflexivity.
    + intros t. destruct (Hcount t) as [Hw Hb]. rewrite !capturesOf_snoc.
      destruct (Js.truthy (captured mv)) as [t0|] eqn:Ht0.
      * destruct (String.eqb (color mv) "w"); cbn [Bool.eqb];
          rewrite ?getCount_bump, ?andb_false_r, ?andb_true_r, Hw, Hb;
          (split; [|]); try lia;
          destruct (decide (t0 = t)) as [->|Hne];
          rewrite ?bool_decide_eq_true_2, ?bool_decide_eq_false_2 by congruence;
          lia.
      * rewrite bool_decide_eq_false_2 by discriminate. cbn [andb]. lia.
Qed.

Lemma walk_prefix (ms : list Move) (i : nat) :
  i <= length ms ->
  capsProgress (walkOf ms) !! i
  = Some (accWhite (walkOf (take i ms)), accBlack (walkOf (take i ms))).
Proof.
  induction ms as [|mv ms IH] using rev_ind; intros Hi.
  - cbn in Hi. assert (i = 0) as -> by lia. reflexivity.
  - rewrite length_app in Hi. cbn [length] in Hi.
    destruct (decide (i <= length ms)) as [Hle|Hgt].
    + rewrite take_app_le by exact Hle. rewrite <- (IH Hle).
      rewrite walk_snoc. unfold walkBody. cbn [capsProgress].
      apply lookup_app_l. destruct (walk_state ms) as (_ & _ & Hc & _). lia.
    + assert (i = length (ms ++ [mv])) as -> by (rewrite length_app; cbn; lia).
      rewrite firstn_all. apply walk_state.
Qed.

(** X25. The walk over the moves keeps its lists aligned and its counts
    exact: there is one position and one capture record more than there are
    moves, the SANs are those of the moves in order, and the record at index
    [i] counts, for every piece type, the captures of that type made by
    White and by Black in the first [i] moves. *)
Theorem captures_follow_the_moves (moves : list Move) :
  let st := walkOf moves in
  length (fens st) = S (length moves)
  /\ sans st = List.map san moves
  /\ length (capsProgress st) = S (length moves)
  /\ forall i, i <= length moves ->
       exists white black,
         capsProgress st !! i = Some (white, black)
         /\ forall t, getCount white t = capturesOf true t (take i moves)
                      /\ getCount black t = capturesOf false t (take i moves).
Proof.
  intros st. subst st. destruct (walk_state moves) as (Hf & Hs & Hc & _).
  split; [exact Hf|]. split; [exact Hs|]. split; [exact Hc|].
  intros i Hi. eexists _, _. split; [by apply walk_prefix|].
  apply (walk_state (take i moves)).
Qed.

Lemma rowItems_length (c : Caps) (rowColor : string) :
  length (rowItems (Some c) rowColor)
  = getCount c "q" + getCount c "r" + getCount c "b" + getCount c "n" + getCount c "p".
Proof.
  unfold rowItems, order. cbn [flat_map]. rewrite !length_app, !repeat_length.
  cbn [length]. lia.
Qed.

(** X26. At every position of the game the row of a player shows one icon
    for each queen, rook, bishop, knight and pawn that player has captured
    so far, and at most one of the two rows shows a material lead: the two
    leads are opposite numbers. *)
Theorem rows_show_the_captures (moves : list Move) (i : nat) (white black : Caps) :
  capsProgress (walkOf moves) !! i = Some (white, black) ->
  i <= length moves ->
  length (rowItems (Some white) "white")
    = list_sum (List.map (fun t => capturesOf true t (take i moves)) order)
  /\ length (rowItems (Some black) "black")
     = list_sum (List.map (fun t => capturesOf false t (take i moves)) order)
  /\ lead (Some black) (Some white) = (- lead (Some white) (Some black))%Z
  /\ showsLead (Some black) (Some white) && showsLead (Some white) (Some black) = false.
Proof.
  intros Hi Hle.
  pose proof (walk_prefix moves i Hle) as Hi'.
  rewrite Hi in Hi'. injection Hi' as Hw Hb.
  destruct (walk_state (take i moves)) as (_ & _ & _ & _ & Hc).
  rewrite <- Hw, <- Hb in Hc.
  rewrite !rowItems_length. unfold order, list_sum. cbn [List.map fold_right].
  pose proof (Hc "q"%string) as [Wq Bq]. pose proof (Hc "r"%string) as [Wr Br].
  pose proof (Hc "b"%string) as [Wb Bb]. pose proof (Hc "n"%string) as [Wn Bn].
  pose proof (Hc "p"%string) as [Wp Bp].
  split; [|split; [|split]].
  - lia.
  - lia.
  - unfold lead. lia.
  - unfold showsLead, lead.
    destruct (Z.ltb_spec 0 (sumVals (Some white) - sumVals (Some black))),
             (Z.ltb_spec 0 (sumVals (Some black) - sumVals (Some white)));
      try reflexivity; lia.
Qed.

End CaptureFacts.

Lemma rows_show_the_captures_witness :
  length (Captures.rowItems (Some (Captures.bumpCap Captures.emptyCaps "p")) "white")
    = list_sum (List.map (fun t => Captures.capturesOf true t (take 3 Cases.scandinavian))
                  Captures.order)
  /\ length (Captures.rowItems (Some Captures.emptyCaps) "black")
     = list_sum (List.map (fun t => Captures.capturesOf false t (take 3 Cases.scandinavian))
                   Captures.order)
  /\ Captures.lead (Some Captures.emptyCaps)
       (Some (Captures.bumpCap Captures.emptyCaps "p"))
     = (- Captures.lead (Some (Captures.bumpCap Captures.emptyCaps "p"))
            (Some Captures.emptyCaps))%Z
  /\ Captures.showsLead (Some Captures.emptyCaps)
       (Some (Captures.bumpCap Captures.emptyCaps "p"))
     && Captures.showsLead (Some (Captures.bumpCap Captures.emptyCaps "p"))
          (Some Captures.emptyCaps) = false.
Proof.
  apply (rows_show_the_captures (list Captures.Move) Cases.playMove Cases.moveCount []
           Cases.scandinavian 3).
  - vm_compute. reflexivity.
  - cbn. lia.
Defined.

Lemma captures_follow_the_moves_witness :
  exists white black,
    Captures.capsProgress
      (Captures.walkMoves (list Captures.Move) Cases.playMove Cases.moveCount []
         Cases.scandinavian) !! 3%nat = Some (white, black)
    /\ forall t,
         Captures.getCount white t = Captures.capturesOf true t (take 3 Cases.scandinavian)
         /\ Captures.getCount black t
            = Captures.capturesOf false t (take 3 Cases.scandinavian).
Proof.
  destruct (captures_follow_the_moves (list Captures.Move) Cases.playMove
              Cases.moveCount [] Cases.scandinavian) as (_ & _ & _ & H).
  apply (H 3%nat). cbn. lia.
Defined.

(** ** The arrow of the engine's move *)

Section ArrowFacts.

Import Arrow Annotations.

Variable uciToSan : string -> string -> option string.

Lemma truthy_Some (x : option string) (s : string) : Js.truthy x = Some s -> x = Some s.
Proof. destruct x as [[|c r]|]; cbn; congruence. Qed.

Lemma normalizeSan_truthy (x : option string) (s : string) :
  Js.truthy (normalizeSan x) = Some s ->
  exists raw, Js.truthy x = Some raw /\ normalizeSan (Some raw) = Some s.
Proof.
  intros H. destruct (Js.truthy x) as [raw|] eqn:Hx.
  - exists raw. split; [reflexivity|].
    apply truthy_Some in Hx. subst x. by apply truthy_Some in H.
  - unfold normalizeSan in H. rewrite Hx in H. congruence.
Qed.

(** X27. The arrow of the engine's move is never drawn on a position whose
    played move the annotations take for the engine's first move. *)
Theorem no_arrow_on_best_move
    (fens : list string) (idx : nat) (evals : gmap nat (option Eval))
    (sans : list string) (fen : string) (best : Eval) :
  fens !! idx = Some fen ->
  present (evals !! idx) = Some best ->
  playedIsBest uciToSan fen best (sans !! idx) = true ->
  bestMoveArrow uciToSan fens idx evals sans = [].
Proof.
  intros Hfen Hbest Hsame. unfold bestMoveArrow. rewrite Hfen, Hbest.
  destruct (Js.truthy (Some fen)) as [fen'|] eqn:Hf; [|reflexivity].
  apply truthy_Some in Hf. injection Hf as <-.
  destruct (Js.truthy (bestmoveUci best)) as [uci|] eqn:Huci; [|reflexivity].
  destruct (String.length uci <? 4)%nat; [reflexivity|].
  unfold playedIsBest, sameAsBest, Channel.topSan, Channel.topUci, Js.orElse in Hsame.
  rewrite Huci in Hsame.
  assert (Js.truthy (Some uci) = Some uci) as Hu.
  { destruct uci; [|reflexivity].
    destruct (bestmoveUci best) as [[|c r]|]; discriminate. }
  rewrite Hu in Hsame.
  destruct (Js.truthy (normalizeSan (uciToSan fen uci))) as [b|] eqn:Hb; [|discriminate].
  destruct (Js.truthy (normalizeSan (sans !! idx))) as [p|] eqn:Hp; [|discriminate].
  apply String.eqb_eq in Hsame. subst p.
  apply normalizeSan_truthy in Hb as (rawB & HrawB & HnB).
  apply normalizeSan_truthy in Hp as (rawP & HrawP & HnP).
  rewrite HrawB, HrawP.
  assert (idx < length sans)%nat as Hlt.
  { apply truthy_Some in HrawP. by apply lookup_lt_Some in HrawP. }
  apply Nat.ltb_lt in Hlt. rewrite Hlt. cbn [andb].
  rewrite bool_decide_eq_true_2 by congruence. reflexivity.
Qed.

End ArrowFacts.

Lemma no_arrow_on_best_move_witness :
  Arrow.bestMoveArrow Scenario.uciToSan Scenario.italianGame 0
    (Cases.italianEvals "c4f7") Scenario.italianSans = [].
Proof.
  apply (no_arrow_on_best_move Scenario.uciToSan Scenario.italianGame 0
           (Cases.italianEvals "c4f7") Scenario.italianSans
           Scenario.italianFen (Scenario.evalOf (Cp 25) "c4f7")).
  - reflexivity.
  - reflexivity.
  - vm_compute. reflexivity.
Defined.

(** ** Move quality summary *)

Section SummaryFacts.

Import Classifier Annotations Stats Summary.

Variable uciToSan : string -> string -> option string.
Variable captureKeepsMaterial : string -> option string -> option string -> bool.
Variable getMovedPieceType : string -> string -> option string.
Variable offeredSacrificeLossMagnitude : string -> string -> option string -> option Z.
Variable hasOpponentCaptureOnTarget : string -> string -> bool.
Variable moverHasImmediateCheckAfterTargetCapture : string -> string -> option string -> bool.
Variable worstImmediateCaptureLoss : string -> string -> option string -> option Z.

Local Abbreviation statsLoop := (statsBody uciToSan captureKeepsMaterial).
Local Abbreviation annotLoop :=
  (annotateBody uciToSan getMovedPieceType offeredSacrificeLossMagnitude
     hasOpponentCaptureOnTarget moverHasImmediateCheckAfterTargetCapture
     worstImmediateCaptureLoss).
Local Abbreviation tagOf :=
  (moveTag uciToSan getMovedPieceType offeredSacrificeLossMagnitude
     hasOpponentCaptureOnTarget moverHasImmediateCheckAfterTargetCapture
     worstImmediateCaptureLoss).

Local Open Scope nat_scope.

(** An entry as the [annotations] memo writes it. *)
Local Abbreviation wellFormed :=
  (fun a : Annotation =>
     (mover a = "White"%string \/ mover a = "Black"%string)
     /\ tag a <> Great /\ tag a <> Miss).

Lemma bumpTag_total (f : Tag -> nat) (t : Tag) : total (bumpTag f t) = S (total f).
Proof. destruct t; unfold total, bumpTag; cbn; lia. Qed.

Lemma bumpTag_other (f : Tag -> nat) (t t' : Tag) :
  t <> t' -> bumpTag f t t' = f t'.
Proof. intros H. destruct t, t'; try reflexivity; congruence. Qed.

Lemma moversOf_cons (c : string) (e : nat * Annotation) (l : list (nat * Annotation)) :
  moversOf c (e :: l) = (if String.eqb (mover (snd e)) c then 1 else 0) + moversOf c l.
Proof. unfold moversOf. cbn [List.filter]. destruct (String.eqb _ c); reflexivity. Qed.

Lemma moversOf_Permutation (c : string) (l l' : list (nat * Annotation)) :
  l ≡ₚ l' -> moversOf c l = moversOf c l'.
Proof.
  induction 1 as [|x l l' _ IH|x y l|l l' l'' _ IH1 _ IH2].
  - reflexivity.
  - rewrite !moversOf_cons. lia.
  - rewrite !moversOf_cons. lia.
  - congruence.
Qed.

Lemma moversOf_insert (c : string) (ann : gmap nat Annotation) (k : nat) (a : Annotation) :
  ann !! k = None ->
  moversOf c (map_to_list (<[k := a]> ann))
  = (if String.eqb (mover a) c then 1 else 0) + moversOf c (map_to_list ann).
Proof.
  intros Hk. rewrite (moversOf_Permutation c _ _ (map_to_list_insert ann k a Hk)).
  apply moversOf_cons.
Qed.

(** What the [forEach] adds to the counters. *)
Lemma countEntries (l : list (nat * Annotation)) :
  forall res : Res,
    Forall (fun e => wellFormed (snd e)) l ->
    let r := fold_left countEntry l res in
    total (white r) = total (white res) + moversOf "White" l
    /\ total (black r) = total (black res) + moversOf "Black" l
    /\ white r Great = white res Great /\ white r Miss = white res Miss
    /\ black r Great = black res Great /\ black r Miss = black res Miss.
Proof.
  induction l as [|[k a] l IH]; intros res Hl r; subst r.
  - cbn. repeat split; lia.
  - apply Forall_cons in Hl as [Ha Hl]. cbn beta in Ha. cbn [snd] in Ha.
    destruct Ha as (Hm & HG & HM).
    cbn [fold_left]. destruct (IH (countEntry res (k, a)) Hl) as (I1 & I2 & I3 & I4 & I5 & I6).
    rewrite I1, I2, I3, I4, I5, I6, !moversOf_cons. cbn [snd].
    unfold countEntry. cbn [snd].
    destruct Hm as [-> | ->].
    + change (toLowerCase "White") with "white"%string. cbn [String.eqb Ascii.eqb Bool.eqb].
      cbn [white black]. rewrite bumpTag_total, !bumpTag_other by congruence.
      change ("White" =? "White")%string with true.
      change ("White" =? "Black")%string with false.
      repeat split; lia.
    + change (toLowerCase "Black") with "black"%string.
      change ("black" =? "white")%string with false.
      change ("black" =? "black")%string with true.
      cbn [white black]. rewrite bumpTag_total, !bumpTag_other by congruence.
      change ("Black" =? "White")%string with false.
      change ("Black" =? "Black")%string with true.
      repeat split; lia.
Qed.

Lemma annotationAt_wellFormed (evals : gmap nat (option Eval)) (sans : list string)
    (i : nat) (fen : string) (a : Annotation) :
  annotationAt uciToSan getMovedPieceType offeredSacrificeLossMagnitude
    hasOpponentCaptureOnTarget moverHasImmediateCheckAfterTargetCapture
    worstImmediateCaptureLoss evals sans i fen = Some a ->
  wellFormed a
  /\ mover a = (if bool_decide (Js.field1 fen = Some "w"%string)
                then "White" else "Black")%string.
Proof.
  unfold annotationAt.
  destruct (present (evals !! i)) as [best|]; [|discriminate].
  destruct (present (evals !! S i)) as [after|]; [|discriminate].
  intros [= <-]. cbn [mover tag]. split; [|reflexivity]. split.
  - case_bool_decide; auto.
  - pose proof (annotBaseTag_never_miss (score best) (score after)) as HnM.
    destruct (classify_tags (Some (annotBestCp (score best)))
                (Some (annotPlayedCp (score after)))
                (mkFlags (annotBestIsMate (score best))
                   (annotDeltaMate (score best) (score after)))) as [_ HnG].
    fold (annotBaseTag (score best) (score after)) in HnG.
    destruct (moveTag_shape uciToSan getMovedPieceType offeredSacrificeLossMagnitude
                hasOpponentCaptureOnTarget moverHasImmediateCheckAfterTargetCapture
                worstImmediateCaptureLoss fen best after (sans !! i))
      as [-> | [[_ ->] | [_ ->]]]; split; congruence.
Qed.

(** The two loops count the same moves for each player, and every entry of
    the annotations is well formed. *)
Lemma loops_by_colour (evals : gmap nat (option Eval)) (sans : list string)
    (l : list string) :
  forall (i0 : nat) (s : PlayerStat * PlayerStat) (ann : gmap nat Annotation),
    (forall k : nat, is_Some (ann !! k) -> k <= i0) ->
    (forall k a, ann !! k = Some a -> wellFormed a) ->
    let s' := Channel.forEachFrom (statsLoop evals sans) i0 l s in
    let ann' := Channel.forEachFrom (annotLoop evals sans) i0 l ann in
    totalMoves (fst s') + moversOf "White" (map_to_list ann)
    = totalMoves (fst s) + moversOf "White" (map_to_list ann')
    /\ totalMoves (snd s') + moversOf "Black" (map_to_list ann)
       = totalMoves (snd s) + moversOf "Black" (map_to_list ann')
    /\ (forall k a, ann' !! k = Some a -> wellFormed a).
Proof.
  induction l as [|x l IH]; intros i0 s ann Hkeys Hwf; cbn [Channel.forEachFrom];
    [cbv zeta; split; [lia|split; [lia|exact Hwf]]|].
  assert (ann !! S i0 = None) as Hfresh.
  { destruct (ann !! S i0) eqn:Hl; [|reflexivity].
    specialize (Hkeys (S i0) ltac:(rewrite Hl; eauto)). lia. }
  assert (forall k : nat, is_Some (ann !! k) -> k <= S i0) as Hkeys0.
  { intros k Hk. specialize (Hkeys k Hk). lia. }
  destruct (annotationAt uciToSan getMovedPieceType offeredSacrificeLossMagnitude
              hasOpponentCaptureOnTarget moverHasImmediateCheckAfterTargetCapture
              worstImmediateCaptureLoss evals sans i0 x) as [a|] eqn:Hat.
  - destruct (annotationAt_wellFormed evals sans i0 x a Hat) as [Hgood Hmover].
    assert (annotLoop evals sans i0 x ann = <[S i0 := a]> ann) as ->
      by (unfold annotateBody; rewrite Hat; reflexivity).
    assert (exists best after,
              statsLoop evals sans i0 x s
              = if bool_decide (Js.field1 x = Some "w"%string)
                then (countMove uciToSan captureKeepsMaterial x best after
                        (sans !! i0) (fst s), snd s)
                else (fst s, countMove uciToSan captureKeepsMaterial x best after
                               (sans !! i0) (snd s))) as (best & after & ->).
    { unfold annotationAt in Hat. unfold statsBody.
      destruct (present (evals !! i0)) as [best|]; [|discriminate].
      destruct (present (evals !! S i0)) as [after|]; [|discriminate]. eauto. }
    assert (forall k : nat, is_Some (<[S i0 := a]> ann !! k) -> k <= S i0) as Hkeys'.
    { intros k Hk. destruct (decide (k = S i0)) as [->|Hne]; [lia|].
      rewrite lookup_insert_ne in Hk by congruence. by apply Hkeys0. }
    assert (forall k a0, <[S i0 := a]> ann !! k = Some a0 -> wellFormed a0) as Hwf'.
    { intros k a0 Hk. destruct (decide (k = S i0)) as [->|Hne].
      - rewrite lookup_insert_eq in Hk. by injection Hk as <-.
      - rewrite lookup_insert_ne in Hk by congruence. by apply (Hwf k). }
    pose proof (fun s0 => IH (S i0) s0 _ Hkeys' Hwf') as H.
    cbv zeta in H |- *.
    rewrite !moversOf_insert in H by exact Hfresh. rewrite Hmover in H.
    case_bool_decide.
    + specialize (H (countMove uciToSan captureKeepsMaterial x best after
                       (sans !! i0) (fst s), snd s)).
      destruct H as (H1 & H2 & H3).
      change ("White" =? "White")%string with true in H1.
      change ("White" =? "Black")%string with false in H2.
      cbn [fst snd countMove totalMoves] in H1, H2.
      split; [lia|]. split; [lia|exact H3].
    + specialize (H (fst s, countMove uciToSan captureKeepsMaterial x best after
                               (sans !! i0) (snd s))).
      destruct H as (H1 & H2 & H3).
      change ("Black" =? "White")%string with false in H1.
      change ("Black" =? "Black")%string with true in H2.
      cbn [fst snd countMove totalMoves] in H1, H2.
      split; [lia|]. split; [lia|exact H3].
  - assert (annotLoop evals sans i0 x ann = ann) as ->
      by (unfold annotateBody; rewrite Hat; reflexivity).
    assert (statsLoop evals sans i0 x s = s) as ->.
    { unfold annotationAt in Hat. unfold statsBody.
      destruct (present (evals !! i0)) as [best|]; [|reflexivity].
      destruct (present (evals !! S i0)) as [after|]; [discriminate|reflexivity]. }
    apply IH; assumption.
Qed.

#[local] Instance keyLe_total : Total keyLe.
Proof. intros a b. unfold keyLe. lia. Qed.

(** X28. The move quality summary and the statistics: the counters of a
    column of the summary add up to the number of moves [playerStats] counts
    for that player, and the rows [great] and [miss] of the summary are 0 in
    both columns, since no annotation carries these tags. *)
Theorem summary_matches_the_statistics
    (fens : list string) (evals : gmap nat (option Eval)) (sans : list string) :
  let ann := annotations uciToSan getMovedPieceType offeredSacrificeLossMagnitude
               hasOpponentCaptureOnTarget moverHasImmediateCheckAfterTargetCapture
               worstImmediateCaptureLoss fens evals sans in
  let stats := playerStats uciToSan captureKeepsMaterial fens evals sans in
  let res := moveTypeCounts ann in
  total (white res) = totalMoves (fst stats)
  /\ total (black res) = totalMoves (snd stats)
  /\ white res Great = 0 /\ white res Miss = 0
  /\ black res Great = 0 /\ black res Miss = 0.
Proof.
  intros ann stats res. subst ann stats res. unfold playerStats, annotations.
  cbn [fst snd]. rewrite !finalize_totalMoves.
  destruct (loops_by_colour evals sans (take (length fens - 1) fens) 0
              (emptyStat, emptyStat) ∅) as (H1 & H2 & Hwf).
  { intros k Hk. rewrite lookup_empty in Hk. by apply is_Some_None in Hk. }
  { intros k a Hk. rewrite lookup_empty in Hk. discriminate. }
  rewrite map_to_list_empty in H1, H2. cbn [fst snd emptyStat totalMoves] in H1, H2.
  unfold moversOf at 1 in H1. unfold moversOf at 1 in H2. cbn in H1, H2.
  set (ann := Channel.forEachFrom _ 0 _ ∅) in *.
  unfold moveTypeCounts.
  destruct (countEntries (merge_sort keyLe (map_to_list ann)) (mkRes base base))
    as (C1 & C2 & C3 & C4 & C5 & C6).
  { apply Forall_forall. intros [k a] Hin. cbn [snd].
    rewrite merge_sort_Permutation in Hin. apply elem_of_map_to_list in Hin.
    by apply (Hwf k). }
  rewrite C1, C2, C3, C4, C5, C6.
  rewrite !(moversOf_Permutation _ _ _ (merge_sort_Permutation keyLe (map_to_list ann))).
  cbn [white black base]. unfold total, base. cbn. repeat split; lia.
Qed.

End SummaryFacts.
